(** * Venus AI: the socket relay (chat_message handler, connection registry,
      identity verification) and the Chat model it persists through.

    Shallow embedding of
      - backend socket handler  (src/start-dev.bat, second document:
        authenticateSocket, handleSocketConnection and its event handlers),
      - the Chat mongoose model (src/backend/src/server-temp.js, third
        document: messageSchema, chatSchema, the pre-save hook),
      - the HTTP auth middleware (src/backend/src/server-temp.js, second
        document: authenticateToken),
      - the server wiring       (src/backend/src/routes/user.js, last document:
        io.use(socketAuthMiddleware) / io.on("connection")).
      - the other methods of the Chat model ([addMessage], [generateTitle],
        the virtual [lastMessage], [findUserChats]) and the optional HTTP
        middleware [optionalAuth] (same documents),
      - the chat routes GET /api/chat, POST /api/chat,
        POST /api/chat/:chatId/messages and PUT /api/chat/:chatId/settings
        (src/backend/src/server-temp.js, fifth document),
      - the upload route        (src/backend/src/server-temp.js, fourth
        document: [fileFilter], [excerpt], [extractText]),
      - the temporary server    (src/backend/src/server-temp.js, first
        document: the in-memory chat routes),
      - the rooms and the small socket handlers (typing, join_chat,
        leave_chat, disconnect, broadcastToUser, broadcastToChat) and the
        client functions that address them (src/frontend/src/contexts/
        AuthContext.jsx, SocketContext: joinChat, leaveChat, startTyping,
        stopTyping).

    Conventions.
      - A JavaScript string is a [string]: one [ascii] per UTF-16 code unit,
        so the model is exact on ASCII text.  [String.prototype.trim] strips
        the ASCII white space characters (code units 9-13 and 32).
      - [new Date()] reads a logical clock kept in the state; every reading
        advances it.
      - console.log diagnostics are not modelled; the two console.error
        calls of the handler are, as [eff_log_error].
      - One run of a handler is modelled without interleaving with other
        handlers.

    Library behaviour the model relies on.
      - mongoose: pushing an object literal on a document array casts it
        to the subdocument schema, which is strict (undeclared paths are
        dropped, declared paths take their defaults); [save()] validates,
        then runs the pre("save") hooks, then writes; a rejected
        validation throws a ValidationError whose message is the model
        name, " validation failed: ", and the failing paths with their
        messages; [isModified("messages")] holds after a push and on a
        new document.
      - socket.io: a middleware that calls [next(err)] refuses the
        connection, and the connection handler does not run. *)

From Stdlib Require Import Ascii String QArith.
From stdpp Require Import gmap strings list fin_maps pretty.

Local Open Scope nat_scope.

(** ** JavaScript string primitives *)

Module Js.

Definition nl : string := String (ascii_of_nat 10) EmptyString.

Definition is_ws (c : ascii) : bool :=
  let n := nat_of_ascii c in
  ((9 <=? n) && (n <=? 13)) || (n =? 32).

Fixpoint trimStart (s : string) : string :=
  match s with
  | EmptyString => EmptyString
  | String c r => if is_ws c then trimStart r else s
  end.

Fixpoint trimEnd (s : string) : string :=
  match s with
  | EmptyString => EmptyString
  | String c r =>
      match trimEnd r with
      | EmptyString => if is_ws c then EmptyString else String c EmptyString
      | r' => String c r'
      end
  end.

(** [s.trim()] *)
Definition trim (s : string) : string := trimEnd (trimStart s).

(** [s.substring(0, n)] *)
Definition substring0 (n : nat) (s : string) : string := String.substring 0 n s.

(** [arr.join(sep)] *)
Definition join (sep : string) (l : list string) : string := String.concat sep l.

(** Truthiness of a string value: only the empty string is falsy. *)
Definition truthy (s : string) : bool :=
  match s with EmptyString => false | _ => true end.

(** Truthiness of a possibly [undefined]/[null] string. *)
Definition truthy_opt (o : option string) : bool :=
  match o with Some s => truthy s | None => false end.

(** [a || b] on strings. *)
Definition or_else (a b : string) : string := if truthy a then a else b.

Fixpoint is_prefix (p s : string) : bool :=
  match p, s with
  | EmptyString, _ => true
  | String a p', String b s' => if Ascii.eqb a b then is_prefix p' s' else false
  | String _ _, EmptyString => false
  end.

Fixpoint drop (n : nat) (s : string) : string :=
  match n, s with
  | S n', String _ s' => drop n' s'
  | _, _ => s
  end.

(** [s.replace(pat, rep)] with a string pattern: first occurrence only.
    Used with a non-empty pattern. *)
Fixpoint replace_first (pat rep s : string) : string :=
  if is_prefix pat s then rep +:+ drop (String.length pat) s
  else match s with
       | EmptyString => EmptyString
       | String c r => String c (replace_first pat rep r)
       end.

(** [s.split(" ")]: the pieces between single spaces. *)
Fixpoint split_space_aux (cur : string) (s : string) : list string :=
  match s with
  | EmptyString => [String.rev cur]
  | String c r =>
      if Ascii.eqb c " "%char then String.rev cur :: split_space_aux EmptyString r
      else split_space_aux (String c cur) r
  end.

Definition split_space (s : string) : list string := split_space_aux EmptyString s.

End Js.

(** ** Data model (models/Chat.js: attachmentSchema, messageSchema, chatSchema) *)

Record Attachment := {
  filename    : string;
  savedAs     : string;
  mimeType    : string;
  att_size    : nat;
  url         : string;
  textExcerpt : option string          (* [None] is [null] *)
}.

Inductive Role := user | assistant | system.

Record Tokens := { prompt : nat; completion : nat; total : nat }.

(** [messageSchema.metadata]: exactly these four paths. *)
Record Metadata := {
  md_model       : string;             (* default "deepseek-r1" *)
  tokens         : Tokens;             (* defaults 0, 0, 0 *)
  processingTime : nat;                (* default 0 *)
  md_error       : option string       (* type String, default null *)
}.

Record Message := {
  role        : Role;
  content     : string;
  attachments : list Attachment;
  timestamp   : nat;
  metadata    : Metadata
}.

Record Settings := {
  model        : string;
  temperature  : Q;
  maxTokens    : nat;
  systemPrompt : string
}.

Record Statistics := {
  messageCount : nat;
  totalTokens  : nat;
  lastActivity : nat
}.

Record Chat := {
  _id        : string;
  userId     : string;
  title      : string;
  settings   : Settings;
  messages   : list Message;
  statistics : Statistics
}.

(** The user record the handlers read (models/User.js is not part of the
    sources; these are the fields the code under study touches). *)
Record User := {
  u_id     : string;
  username : string;
  email    : string;
  isActive : bool
}.

(** *** Plain objects built by the handler

    The handler builds message object literals and both pushes them on
    [chat.messages] (where mongoose casts them to [messageSchema]) and emits
    them to the client as they are. *)

(** [aiResponse.data.usage] as the upstream service returns it. *)
Record Usage := {
  prompt_tokens     : option nat;
  completion_tokens : option nat;
  total_tokens      : option nat
}.

(** The [metadata] literal of a handler-built message: the success path
    writes [model] and [usage], the failure path [error] and [errorType]. *)
Record RawMetadata := {
  rm_model     : option string;
  rm_usage     : option Usage;
  rm_error     : option bool;
  rm_errorType : option string
}.

Record RawMessage := {
  r_role        : Role;
  r_content     : string;
  r_attachments : option (list Attachment);
  r_timestamp   : nat;
  r_metadata    : option RawMetadata
}.

Definition default_model : string := "deepseek-r1".

(** Cast of a metadata literal to [messageSchema.metadata] (strict schema:
    paths that the schema does not declare, here [usage] and [errorType],
    are dropped; declared paths that the literal lacks take their default;
    a boolean assigned to the String path [error] is stored as its
    [toString()]). *)
Definition castMetadata (o : option RawMetadata) : Metadata :=
  {| md_model := match o with
                 | Some m => default default_model (rm_model m)
                 | None => default_model
                 end;
     tokens := {| prompt := 0; completion := 0; total := 0 |};
     processingTime := 0;
     md_error := match o with
                 | Some m => (fun b : bool => if b then "true" else "false") <$> rm_error m
                 | None => None
                 end |}.

(** [chat.messages.push(obj)] casts [obj] to a [messageSchema] subdocument. *)
Definition castMessage (m : RawMessage) : Message :=
  {| role := r_role m;
     content := r_content m;
     attachments := default [] (r_attachments m);
     timestamp := r_timestamp m;
     metadata := castMetadata (r_metadata m) |}.

(** ** Events, effects, exceptions *)

(** The [chat] object of an [ai_response] event. *)
Record Summary := {
  s_id           : string;
  s_title        : string;
  s_messageCount : nat;
  s_totalTokens  : nat
}.

(** [socket.emit(name, payload)] *)
Inductive Event :=
| ev_error (message : string) (details : option string)
| ev_connected (message : string) (id uname mail : string)
| ev_message_received (chatId : string) (message : RawMessage)
| ev_ai_typing (chatId : string) (typing : bool)
| ev_ai_response (chatId : string) (message : RawMessage) (chat : Summary)
                 (error : option string)
| ev_pong (timestamp : nat).

(** [{role, content}] pairs sent upstream. *)
Record Prompt := { p_role : Role; p_content : string }.

(** Body and options of the [axios.post] call. *)
Record Request := {
  rq_messages    : list Prompt;
  rq_model       : string;
  rq_temperature : Q;
  rq_max_tokens  : nat;
  rq_timeout     : N                   (* milliseconds *)
}.

(** Why an [axios.post] rejected. *)
Inductive FailureReason :=
| TimedOut                             (* the [timeout] option elapsed *)
| Transport (msg : string)             (* no response: network error *)
| BadStatus (status : nat).            (* response with a non-2xx status *)

(** [aiResponse.data]; [d_choice = None] stands for a body in which
    [choices[0].message] cannot be read. *)
Record AiData := {
  d_choice : option string;            (* choices[0].message.content *)
  d_model  : option string;
  d_usage  : option Usage
}.

Inductive UpstreamOutcome :=
| Completed (data : AiData)
| Failed (reason : FailureReason).

Inductive Exn :=
| TypeError (msg : string)
| CastError (msg : string)
| AxiosError (reason : FailureReason)
| SaveError (msg : string).

Definition reasonMessage (r : FailureReason) : string :=
  match r with
  | TimedOut => "timeout of 120000ms exceeded"
  | Transport msg => msg
  | BadStatus _ => "Request failed with a non-success status code"
  end.

(** [error.message] *)
Definition exnMessage (e : Exn) : string :=
  match e with
  | TypeError msg | CastError msg | SaveError msg => msg
  | AxiosError r => reasonMessage r
  end.

(** What a handler run does to the outside, newest first in the trace. *)
Inductive Effect :=
| eff_emit (e : Event)
| eff_findOne (chatId uid : string)
| eff_save (id : string) (ok : bool)
| eff_post (rq : Request)
| eff_log_error (msg : string).

(** ** The handler monad: state, exceptions, try/catch *)

(** What lies outside the handler and answers it. *)
Record Env := {
  castable  : string -> bool;          (* does a string cast to an ObjectId *)
  newId     : nat -> string;           (* the n-th ObjectId the process makes *)
  validates : Chat -> bool;            (* schema validation run by save() *)
  writes    : nat -> bool;             (* does the n-th write reach the store *)
  respond   : Request -> UpstreamOutcome;  (* the completion service *)
  validationError : Chat -> string     (* message of the ValidationError that
                                          a rejected validation throws *)
}.

(** What outlives a handler run. *)
Record World := {
  store   : list Chat;                 (* the chats collection *)
  clock   : nat;
  nextId  : nat;
  nwrites : nat
}.

(** A mongoose document held in a local variable. *)
Record Doc := {
  chat              : Chat;
  messages_modified : bool             (* this.isModified("messages") *)
}.

Record State := {
  world : World;
  trace : list Effect;                 (* newest first *)
  doc   : option Doc                   (* the handler's [let chat] *)
}.

Definition M (A : Type) : Type := State -> (Exn + A) * State.

Definition ret {A} (a : A) : M A := fun s => (inr a, s).

Definition bind {A B} (m : M A) (k : A -> M B) : M B :=
  fun s => match m s with
           | (inr a, s') => k a s'
           | (inl e, s') => (inl e, s')
           end.

Definition throw {A} (e : Exn) : M A := fun s => (inl e, s).

(** [try { m } catch (e) { h e }]: what [m] did to the state before it
    threw stays done. *)
Definition try_catch {A} (m : M A) (h : Exn -> M A) : M A :=
  fun s => match m s with
           | (inr a, s') => (inr a, s')
           | (inl e, s') => h e s'
           end.

Declare Scope handler_scope.
Delimit Scope handler_scope with handler.
Notation "'let*' x ':=' m 'in' k" := (bind m (fun x => k))
  (at level 10, x name, m at level 100, k at level 200) : handler_scope.
Notation "m '>>' k" := (bind m (fun _ => k))
  (at level 90, right associativity) : handler_scope.
Local Open Scope handler_scope.

Definition effect (e : Effect) : M unit :=
  fun s => (inr tt, {| world := world s; trace := e :: trace s; doc := doc s |}).

(** [socket.emit] on the originating connection. *)
Definition emit (e : Event) : M unit := effect (eff_emit e).

(** [new Date()] *)
Definition now : M nat :=
  fun s =>
    let w := world s in
    (inr (clock w),
     {| world := {| store := store w; clock := S (clock w);
                    nextId := nextId w; nwrites := nwrites w |};
        trace := trace s; doc := doc s |}).

Definition setDoc (d : option Doc) : M unit :=
  fun s => (inr tt, {| world := world s; trace := trace s; doc := d |}).

(** Reading [chat]; a property access on [undefined] throws. *)
Definition getDoc : M Doc :=
  fun s => match doc s with
           | Some d => (inr d, s)
           | None => (inl (TypeError "Cannot read properties of undefined"), s)
           end.

Definition modifyChat (f : Chat -> Chat) (touches_messages : bool) : M unit :=
  let* d := getDoc in
  setDoc (Some {| chat := f (chat d);
                  messages_modified := messages_modified d || touches_messages |}).

(** ** Chat model operations (models/Chat.js) *)

Definition setStatistics (st : Statistics) (c : Chat) : Chat :=
  {| _id := _id c; userId := userId c; title := title c; settings := settings c;
     messages := messages c; statistics := st |}.

(** [chat.title = v]; the schema declares [trim: true], so the setter stores
    the trimmed value. *)
Definition setTitle (v : string) (c : Chat) : Chat :=
  {| _id := _id c; userId := userId c; title := Js.trim v; settings := settings c;
     messages := messages c; statistics := statistics c |}.

(** [chat.messages.push(m)] *)
Definition pushRaw (m : RawMessage) (c : Chat) : Chat :=
  {| _id := _id c; userId := userId c; title := title c; settings := settings c;
     messages := messages c ++ [castMessage m]; statistics := statistics c |}.

(** The reduce of the pre-save hook: sum of [msg.metadata?.tokens?.total || 0]. *)
Definition sumTokens (ms : list Message) : nat :=
  foldl (fun acc msg => acc + total (tokens (metadata msg))) 0 ms.

(** Body of [chatSchema.pre("save")] when [this.isModified("messages")]. *)
Definition preSaveHook (date : nat) (c : Chat) : Chat :=
  setStatistics {| messageCount := length (messages c);
                   totalTokens := sumTokens (messages c);
                   lastActivity := date |} c.

(** Writing a document: replace the stored one with the same [_id], or
    insert. *)
Fixpoint upsert (c : Chat) (l : list Chat) : list Chat :=
  match l with
  | [] => [c]
  | x :: r => if String.eqb (_id x) (_id c) then c :: r else x :: upsert c r
  end.

(** The write itself: the [n]-th write of the process succeeds when the
    environment says so. *)
Definition write (env : Env) (c : Chat) : M bool :=
  fun s =>
    let w := world s in
    let ok := writes env (nwrites w) in
    (inr ok,
     {| world := {| store := if ok then upsert c (store w) else store w;
                    clock := clock w; nextId := nextId w; nwrites := S (nwrites w) |};
        trace := eff_save (_id c) ok :: trace s;
        doc := doc s |}).

(** [await chat.save()]: schema validation, then the pre-save hook, then
    the write.  A failed validation rejects with mongoose's ValidationError,
    whose message names the failing paths; a failed write rejects too. *)
Definition save (env : Env) : M unit :=
  let* d := getDoc in
  if validates env (chat d) then
    (let* d1 :=
       (if messages_modified d
        then let* date := now in
             ret {| chat := preSaveHook date (chat d);
                    messages_modified := messages_modified d |}
        else ret d) in
     setDoc (Some d1) >>
     let* ok := write env (chat d1) in
     if ok
     then setDoc (Some {| chat := chat d1; messages_modified := false |})
     else throw (SaveError "write failed"))
  else
    (effect (eff_save (_id (chat d)) false) >>
     throw (SaveError (validationError env (chat d)))).

(** [await Chat.findOne({ _id: chatId, userId: uid })]: the filter is cast
    first (a string that is no ObjectId rejects); the document returned is
    the first that satisfies both conditions. *)
Definition matches (chatId uid : string) (c : Chat) : bool :=
  String.eqb (_id c) chatId && String.eqb (userId c) uid.

Definition findOne (env : Env) (chatId uid : string) : M (option Chat) :=
  effect (eff_findOne chatId uid) >>
  (if castable env chatId
   then fun s => (inr (List.find (matches chatId uid) (store (world s))), s)
   else throw (CastError "Cast to ObjectId failed")).

(** [new Chat({...})]: mongoose gives the document a new [_id]. *)
Definition freshId (env : Env) : M string :=
  fun s =>
    let w := world s in
    (inr (newId env (nextId w)),
     {| world := {| store := store w; clock := clock w;
                    nextId := S (nextId w); nwrites := nwrites w |};
        trace := trace s; doc := doc s |}).

(** Constraints that chatSchema and messageSchema declare on the paths the
    handler writes: [title] required and at most 200 characters, every
    message [content] required and at most 10000 characters. *)
Definition schemaValidates (c : Chat) : bool :=
  Js.truthy (title c) && (N.of_nat (String.length (title c)) <=? 200)%N &&
  forallb (fun m => Js.truthy (content m) &&
                    (N.of_nat (String.length (content m)) <=? 10000)%N)
          (messages c).

(** The message of the ValidationError for a chat that these constraints
    reject: "Chat validation failed: " and then, for every failing path,
    the path and the message the schema declares for it, separated by
    ", ".  The title comes first here, then the entries by index. *)
Definition titleErrors (c : Chat) : list string :=
  if Js.truthy (title c)
  then if (N.of_nat (String.length (title c)) <=? 200)%N
       then []
       else ["title: Chat title cannot exceed 200 characters"]
  else ["title: Chat title is required"].

Definition contentErrors (i : nat) (m : Message) : list string :=
  if Js.truthy (content m)
  then if (N.of_nat (String.length (content m)) <=? 10000)%N
       then []
       else ["messages." +:+ pretty i
             +:+ ".content: Message content cannot exceed 10000 characters"]
  else ["messages." +:+ pretty i +:+ ".content: Message content is required"].

Definition schemaError (c : Chat) : string :=
  "Chat validation failed: " +:+
  String.concat ", "
    (titleErrors c ++ List.concat (imap contentErrors (messages c))).

(** ** The chat_message handler (socketHandler.js, [socket.on("chat_message")]) *)

(** The event payload [{ chatId, message, attachments }]; a field that is
    [None] is absent ([undefined]). *)
Record ChatMessageData := {
  d_chatId      : string;
  d_message     : option string;
  d_attachments : option (list Attachment)
}.

Definition placeholder_title : string := "New Chat".
Definition placeholder_content : string := "(no text, attachments only)".
Definition apology : string :=
  "I apologize, but I'm currently unable to process your request. Please try again later.".
Definition default_system_prompt : string :=
  "You are Venus AI, a helpful and intelligent assistant.".

(** [(!message || !message.trim()) && attachments.length === 0] *)
Definition isEmptyMessage (message : option string) (atts : list Attachment) : bool :=
  (negb (Js.truthy_opt message) || negb (Js.truthy (Js.trim (default "" message))))
  && (length atts =? 0).

(** One element of [attachmentNotes] before the join. *)
Definition attachmentNote (a : Attachment) : string :=
  if Js.truthy_opt (textExcerpt a)
  then Js.nl +:+ "[Attachment: " +:+ filename a +:+ "]" +:+ Js.nl +:+ default "" (textExcerpt a)
  else Js.nl +:+ "[Attachment: " +:+ filename a +:+ "]".

Definition attachmentNotes (atts : list Attachment) : string :=
  Js.join Js.nl (map attachmentNote atts).

Definition fullContent (message : option string) (atts : list Attachment) : string :=
  Js.trim (Js.trim (default "" message) +:+ attachmentNotes atts).

(** [userMessage.content] *)
Definition userContent (message : option string) (atts : list Attachment) : string :=
  Js.or_else (fullContent message atts) placeholder_content.

(** The literal passed to [new Chat] for the "default" chat id. *)
Definition newChat (id uid : string) (date : nat) : Chat :=
  {| _id := id;
     userId := uid;
     title := placeholder_title;
     settings := {| model := "deepseek/deepseek-r1";
                    temperature := 7 # 10;
                    maxTokens := 2048;
                    systemPrompt := default_system_prompt |};
     messages := [];
     statistics := {| messageCount := 0; totalTokens := 0; lastActivity := date |} |}.

Definition toPrompt (m : Message) : Prompt :=
  {| p_role := role m; p_content := content m |}.

(** [messagesForAI], with the system prompt unshifted for a first message. *)
Definition messagesForAI (c : Chat) : list Prompt :=
  let l := map toPrompt (messages c) in
  if length (messages c) =? 1
  then {| p_role := system; p_content := systemPrompt (settings c) |} :: l
  else l.

Definition upstream_timeout : N := 120000.

Definition completionRequest (c : Chat) : Request :=
  {| rq_messages := messagesForAI c;
     rq_model := model (settings c);
     rq_temperature := temperature (settings c);
     rq_max_tokens := maxTokens (settings c);
     rq_timeout := upstream_timeout |}.

(** [await axios.post(url, body, { timeout: 120000, ... })] *)
Definition axiosPost (env : Env) (rq : Request) : M AiData :=
  effect (eff_post rq) >>
  match respond env rq with
  | Completed data => ret data
  | Failed reason => throw (AxiosError reason)
  end.

Definition summaryOf (c : Chat) : Summary :=
  {| s_id := _id c; s_title := title c;
     s_messageCount := messageCount (statistics c);
     s_totalTokens := totalTokens (statistics c) |}.

(** [aiResponse.data.usage?.total_tokens || 0] *)
Definition usageTotal (data : AiData) : nat :=
  default 0 (d_usage data ≫= total_tokens).

(** The title of a first exchange. *)
Definition titleFor (firstMessage : string) : string :=
  if 50 <? String.length firstMessage
  then Js.substring0 47 firstMessage +:+ "..."
  else firstMessage.

(** Lines "Add AI response to chat" through "Emit AI response": what the
    [try] block does once [axios.post] has resolved. *)
Definition settleSuccess (env : Env) (chatId : string) (message : option string)
    (data : AiData) : M unit :=
  emit (ev_ai_typing chatId false) >>
  let* text :=
    match d_choice data with
    | Some c => ret c
    | None => throw (TypeError "Cannot read properties of undefined (reading '0')")
    end in
  let* date := now in
  let aiMessage :=
    {| r_role := assistant; r_content := text; r_attachments := None;
       r_timestamp := date;
       r_metadata := Some {| rm_model := d_model data; rm_usage := d_usage data;
                             rm_error := None; rm_errorType := None |} |} in
  modifyChat (pushRaw aiMessage) true >>
  (* Update chat statistics *)
  let* date2 := now in
  modifyChat (fun c =>
    setStatistics {| messageCount := length (messages c);
                     totalTokens := totalTokens (statistics c) + usageTotal data;
                     lastActivity := date2 |} c) false >>
  (* Update chat title if it's the first exchange *)
  let* d := getDoc in
  (if (length (messages (chat d)) =? 2) && String.eqb (title (chat d)) placeholder_title
   then
     let* firstMessage :=
       match message with
       | Some m => ret (Js.trim m)
       | None => throw (TypeError "Cannot read properties of undefined (reading 'trim')")
       end in
     modifyChat (setTitle (titleFor firstMessage)) false
   else ret tt) >>
  save env >>
  let* d := getDoc in
  emit (ev_ai_response (_id (chat d)) aiMessage (summaryOf (chat d)) None).

(** The [catch (aiError)] block. *)
Definition settleFailure (env : Env) (chatId : string) (aiError : Exn) : M unit :=
  effect (eff_log_error (exnMessage aiError)) >>
  emit (ev_ai_typing chatId false) >>
  let* date := now in
  let errorMessage :=
    {| r_role := assistant; r_content := apology; r_attachments := None;
       r_timestamp := date;
       r_metadata := Some {| rm_model := None; rm_usage := None;
                             rm_error := Some true;
                             rm_errorType := Some "ai_service_error" |} |} in
  modifyChat (pushRaw errorMessage) true >>
  let* date2 := now in
  modifyChat (fun c =>
    setStatistics {| messageCount := length (messages c);
                     totalTokens := totalTokens (statistics c);
                     lastActivity := date2 |} c) false >>
  save env >>
  let* d := getDoc in
  emit (ev_ai_response (_id (chat d)) errorMessage (summaryOf (chat d))
          (Some "AI service temporarily unavailable")).

(** From "Build content including attachment excerpts" to the end of the
    inner try/catch: the exchange on a resolved chat. *)
Definition exchange (env : Env) (chatId : string) (message : option string)
    (atts : list Attachment) : M unit :=
  let* date := now in
  let userMessage :=
    {| r_role := user; r_content := userContent message atts;
       r_attachments := Some atts; r_timestamp := date; r_metadata := None |} in
  modifyChat (pushRaw userMessage) true >>
  emit (ev_message_received chatId userMessage) >>
  emit (ev_ai_typing chatId true) >>
  let* d := getDoc in
  try_catch
    (let* data := axiosPost env (completionRequest (chat d)) in
     settleSuccess env chatId message data)
    (settleFailure env chatId).

(** "Find or create the chat", then the exchange. *)
Definition resolveAndExchange (env : Env) (u : User) (chatId : string)
    (message : option string) (atts : list Attachment) : M unit :=
  if String.eqb chatId "default" then
    let* id := freshId env in
    let* date := now in
    setDoc (Some {| chat := newChat id (u_id u) date; messages_modified := true |}) >>
    save env >>
    exchange env chatId message atts
  else
    let* found :=
      try_catch
        (let* r := findOne env chatId (u_id u) in ret (Some r))
        (fun _ => emit (ev_error "Invalid chat ID" None) >> ret None) in
    match found with
    | None => ret tt                                   (* return *)
    | Some None => emit (ev_error "Chat not found" None)   (* return *)
    | Some (Some c) =>
        setDoc (Some {| chat := c; messages_modified := false |}) >>
        exchange env chatId message atts
    end.

(** The whole handler, outer try/catch included.  [data = None] is a
    payload that cannot be destructured. *)
Definition chat_message (env : Env) (u : User) (data : option ChatMessageData) : M unit :=
  try_catch
    (match data with
     | None => throw (TypeError "Cannot destructure property 'chatId'")
     | Some d =>
         let atts := default [] (d_attachments d) in
         if isEmptyMessage (d_message d) atts
         then emit (ev_error "Message or attachments are required" None)
         else resolveAndExchange env u (d_chatId d) (d_message d) atts
     end)
    (fun error => effect (eff_log_error (exnMessage error)) >>
                  emit (ev_error "Failed to process message" (Some (exnMessage error)))).

(** The state a handler run starts in: nothing done yet, [let chat;]. *)
Definition entry (w : World) : State := {| world := w; trace := []; doc := None |}.

(** One delivery of a chat_message event to an authenticated socket: the
    world afterwards and what the handler did, oldest first. *)
Definition on_chat_message (env : Env) (u : User) (data : option ChatMessageData)
    (w : World) : World * list Effect :=
  let s := snd (chat_message env u data (entry w)) in
  (world s, rev (trace s)).

(** *** Reading a run *)

Definition emitted (l : list Effect) : list Event :=
  omap (fun e => match e with eff_emit ev => Some ev | _ => None end) l.

Definition is_terminal (e : Event) : bool :=
  match e with ev_ai_response _ _ _ _ => true | _ => false end.

Definition is_lookup (e : Effect) : bool :=
  match e with eff_findOne _ _ => true | _ => false end.

Definition is_post (e : Effect) : bool :=
  match e with eff_post _ => true | _ => false end.

Definition terminal_count (l : list Effect) : nat :=
  length (List.filter is_terminal (emitted l)).

Definition post_count (l : list Effect) : nat :=
  length (List.filter is_post l).

(** Outcomes of the saves of a run, oldest first. *)
Definition save_outcomes (l : list Effect) : list bool :=
  omap (fun e => match e with eff_save _ ok => Some ok | _ => None end) l.

(** Did the last save of the run succeed. *)
Definition last_save_ok (l : list Effect) : bool :=
  default false (last (save_outcomes l)).

(** The message passes the handler's validation. *)
Definition validMessage (d : ChatMessageData) : bool :=
  negb (isEmptyMessage (d_message d) (default [] (d_attachments d))).

(** The chat the handler works on once the conversation is resolved: for
    the "default" id the new chat as its first save leaves it, otherwise
    the document that the lookup returns.  [None] when the handler stops
    before the exchange. *)
Definition resolvedChat (env : Env) (u : User) (chatId : string) (w : World)
    : option Chat :=
  if String.eqb chatId "default" then
    let c := newChat (newId env (nextId w)) (u_id u) (clock w) in
    if validates env c && writes env (nwrites w)
    then Some (preSaveHook (S (clock w)) c)
    else None
  else
    if castable env chatId
    then List.find (matches chatId (u_id u)) (store w)
    else None.

(** The store once the conversation is resolved: the "default" id has
    inserted its new chat, a lookup has changed nothing. *)
Definition resolvedStore (env : Env) (u : User) (chatId : string) (w : World)
    : list Chat :=
  if String.eqb chatId "default"
  then upsert (preSaveHook (S (clock w))
                 (newChat (newId env (nextId w)) (u_id u) (clock w))) (store w)
  else store w.

(** The same environment with another completion service. *)
Definition withRespond (env : Env) (f : Request -> UpstreamOutcome) : Env :=
  {| castable := castable env; newId := newId env; validates := validates env;
     writes := writes env; respond := f;
     validationError := validationError env |}.


(** ** Identity verification and the connection registry *)

(** [socket.handshake]: the auth payload's [token] and the Authorization
    header, each possibly absent. *)
Record Handshake := {
  auth_token    : option string;
  authorization : option string
}.

Record Socket := {
  socketId  : string;
  handshake : Handshake;
  sock_user : option User              (* socket.user *)
}.

(** [jwt.verify(token, secret)] returns the payload or throws. *)
Inductive JwtResult :=
| Decoded (userId : string)
| JsonWebTokenError
| TokenExpiredError.

Record AuthEnv := {
  jwtVerify : string -> JwtResult;
  users     : list User                (* the users collection *)
}.

(** [User.findById(id)] *)
Definition findById (a : AuthEnv) (id : string) : option User :=
  List.find (fun u => String.eqb (u_id u) id) (users a).

(** [auth.token || headers.authorization?.replace("Bearer ", "")] *)
Definition handshakeToken (h : Handshake) : option string :=
  if Js.truthy_opt (auth_token h)
  then auth_token h
  else Js.replace_first "Bearer " "" <$> authorization h.

(** What the middleware passes to [next]. *)
Inductive Next :=
| next_error (message : string)
| next_ok (s : Socket).

(** socketHandler.js, [authenticateSocket]. *)
Definition authenticateSocket (a : AuthEnv) (s : Socket) : Next :=
  let token := handshakeToken (handshake s) in
  if negb (Js.truthy_opt token) then next_error "Authentication token required"
  else
    match jwtVerify a (default "" token) with
    | Decoded uid =>
        match findById a uid with
        | None => next_error "User not found"
        | Some u => next_ok {| socketId := socketId s; handshake := handshake s;
                               sock_user := Some u |}
        end
    | JsonWebTokenError | TokenExpiredError =>
        next_error "Invalid authentication token"     (* catch (error) *)
    end.

(** What the HTTP middleware does with a request. *)
Inductive HttpAuth :=
| http_reject (status : nat) (message : string)
| http_next (u : User).

(** [authHeader && authHeader.split(' ')[1]] *)
Definition bearerToken (authHeader : option string) : option string :=
  match authHeader with
  | Some h => if Js.truthy h then Js.split_space h !! 1 else Some h
  | None => None
  end.

(** middleware/auth.js, [authenticateToken]. *)
Definition authenticateToken (a : AuthEnv) (authHeader : option string) : HttpAuth :=
  let token := bearerToken authHeader in
  if negb (Js.truthy_opt token) then http_reject 401 "No token provided"
  else
    match jwtVerify a (default "" token) with
    | Decoded uid =>
        match findById a uid with
        | None => http_reject 401 "Invalid token - user not found"
        | Some u =>
            if negb (isActive u) then http_reject 401 "Account is deactivated"
            else http_next u
        end
    | JsonWebTokenError => http_reject 401 "Invalid token"
    | TokenExpiredError => http_reject 401 "Token expired"
    end.

(** An entry of [activeConnections]. *)
Record Session := {
  ses_socketId    : string;
  ses_user        : User;
  ses_connectedAt : nat
}.

(** The process-wide connection state: the [activeConnections] map, the
    sockets that are open, the clock. *)
Record Server := {
  activeConnections : gmap string Session;
  open_sockets      : gset string;
  srv_clock         : nat
}.

(** The head of [handleSocketConnection]: the guard, the registry insert,
    the confirmation.  Returns the events emitted on the socket. *)
Definition handleSocketConnection (s : Socket) (srv : Server) : Server * list Event :=
  match sock_user s with
  | None =>
      ({| activeConnections := activeConnections srv;
          open_sockets := open_sockets srv ∖ {[ socketId s ]};    (* socket.disconnect() *)
          srv_clock := srv_clock srv |},
       [ev_error "Authentication required" None])
  | Some u =>
      ({| activeConnections :=
            <[ u_id u := {| ses_socketId := socketId s; ses_user := u;
                            ses_connectedAt := srv_clock srv |} ]>
              (activeConnections srv);
          open_sockets := open_sockets srv;
          srv_clock := S (srv_clock srv) |},
       [ev_connected "Connected to Venus AI" (u_id u) (username u) (email u)])
  end.

(** server.js: [io.use(socketAuthMiddleware)], then [io.on("connection")].
    A middleware error refuses the connection: the socket is never opened
    and the connection handler never runs. *)
Definition connect (a : AuthEnv) (s : Socket) (srv : Server) : Server * list Event :=
  match authenticateSocket a s with
  | next_error _ => (srv, [])
  | next_ok s' =>
      handleSocketConnection s'
        {| activeConnections := activeConnections srv;
           open_sockets := {[ socketId s' ]} ∪ open_sockets srv;
           srv_clock := srv_clock srv |}
  end.

(** [socket.on("disconnect")] *)
Definition on_disconnect (s : Socket) (srv : Server) : Server :=
  {| activeConnections :=
       match sock_user s with
       | Some u => delete (u_id u) (activeConnections srv)
       | None => activeConnections srv
       end;
     open_sockets := open_sockets srv ∖ {[ socketId s ]};
     srv_clock := srv_clock srv |}.

(** [getUserConnection(userId)] *)
Definition getUserConnection (userId : string) (srv : Server) : option Session :=
  activeConnections srv !! userId.

(** [getActiveConnectionsCount()] *)
Definition getActiveConnectionsCount (srv : Server) : nat :=
  size (activeConnections srv).

(** ** Auxiliary definitions for the statements *)

(** A string with a character that [trim] keeps. *)
Fixpoint has_ink (s : string) : bool :=
  match s with
  | EmptyString => false
  | String c r => negb (Js.is_ws c) || has_ink r
  end.

(** A string that [trimStart] leaves alone. *)
Definition starts_ink (s : string) : bool :=
  match s with
  | EmptyString => true
  | String c _ => negb (Js.is_ws c)
  end.



(** The attachment blocks with one more newline between two consecutive
    blocks. *)
Fixpoint joined_blocks (atts : list Attachment) : string :=
  match atts with
  | [] => ""
  | a :: rest =>
      match rest with
      | [] => attachmentNote a
      | _ => attachmentNote a +:+ Js.nl +:+ joined_blocks rest
      end
  end.

(** *** Concrete inputs used by the examples *)

Module Fixtures.

Definition mkAttachment (name : string) (excerpt : option string) : Attachment :=
  {| filename := name; savedAs := "1700000000000_ab12cd_" +:+ name;
     mimeType := "application/pdf"; att_size := 1024;
     url := "/uploads/1700000000000_ab12cd_" +:+ name; textExcerpt := excerpt |}.

Definition alice : User :=
  {| u_id := "64b000000000000000000001"; username := "alice";
     email := "alice@example.org"; isActive := true |}.

Definition bob : User :=
  {| u_id := "64b000000000000000000002"; username := "bob";
     email := "bob@example.org"; isActive := true |}.

(** A deactivated account. *)
Definition carol : User :=
  {| u_id := "64b000000000000000000003"; username := "carol";
     email := "carol@example.org"; isActive := false |}.

Definition chatIds (n : nat) : string :=
  match n with
  | 0 => "65c0000000000000000000a0"
  | 1 => "65c0000000000000000000a1"
  | _ => "65c0000000000000000000a2"
  end.

(** A healthy environment around a completion service [f]: schema
    validation as chatSchema declares it, every write succeeds. *)
Definition healthy (f : Request -> UpstreamOutcome) : Env :=
  {| castable := fun s => String.length s =? 24;
     newId := chatIds;
     validates := schemaValidates;
     writes := fun _ => true;
     respond := f;
     validationError := schemaError |}.

(** The same with a store whose writes fail from the [n]-th on. *)
Definition failingFrom (n : nat) (f : Request -> UpstreamOutcome) : Env :=
  {| castable := fun s => String.length s =? 24;
     newId := chatIds;
     validates := schemaValidates;
     writes := fun k => k <? n;
     respond := f;
     validationError := schemaError |}.

Definition reply (text : string) (tokens : nat) : UpstreamOutcome :=
  Completed {| d_choice := Some text;
               d_model := Some "deepseek/deepseek-r1";
               d_usage := Some {| prompt_tokens := Some 10;
                                  completion_tokens := Some (tokens - 10);
                                  total_tokens := Some tokens |} |}.

Definition emptyWorld : World :=
  {| store := []; clock := 100; nextId := 0; nwrites := 0 |}.

Definition msgData (chatId text : string) : ChatMessageData :=
  {| d_chatId := chatId; d_message := Some text; d_attachments := Some [] |}.

Definition say (chatId text : string) : option ChatMessageData :=
  Some (msgData chatId text).

(** A chat of bob's with one earlier exchange. *)
Definition bobsChat : Chat :=
  {| _id := "65c0000000000000000000b0";
     userId := u_id bob;
     title := "Weather";
     settings := {| model := "deepseek/deepseek-r1"; temperature := 7 # 10;
                    maxTokens := 2048; systemPrompt := default_system_prompt |};
     messages :=
       [castMessage {| r_role := user; r_content := "Will it rain?";
                       r_attachments := Some []; r_timestamp := 10;
                       r_metadata := None |};
        castMessage {| r_role := assistant; r_content := "Probably.";
                       r_attachments := None; r_timestamp := 11;
                       r_metadata := None |}];
     statistics := {| messageCount := 2; totalTokens := 0; lastActivity := 12 |} |}.

Definition bobsWorld : World :=
  {| store := [bobsChat]; clock := 200; nextId := 5; nwrites := 40 |}.

Definition tokenOf (t : string) : JwtResult :=
  if String.eqb t "token-alice" then Decoded (u_id alice)
  else if String.eqb t "token-carol" then Decoded (u_id carol)
  else if String.eqb t "token-ghost" then Decoded "64b0000000000000000000ff"
  else if String.eqb t "token-old" then TokenExpiredError
  else JsonWebTokenError.

Definition accounts : AuthEnv :=
  {| jwtVerify := tokenOf; users := [alice; bob; carol] |}.

Definition socketWith (id : string) (token : option string) : Socket :=
  {| socketId := id;
     handshake := {| auth_token := token; authorization := None |};
     sock_user := None |}.

Definition idle : Server :=
  {| activeConnections := ∅; open_sockets := ∅; srv_clock := 50 |}.

End Fixtures.

(** ** The other methods of the Chat model (models/Chat.js) *)

(** The [metadata] argument of [addMessage]; a field that is [None] is
    absent. *)
Record MessageMeta := {
  mm_model          : option string;
  mm_tokens         : option Tokens;
  mm_processingTime : option nat;
  mm_error          : option string
}.

(** [chat.messages.push(m)] of a literal that has exactly the paths that
    messageSchema declares: the cast keeps every field. *)
Definition pushMessage (m : Message) (c : Chat) : Chat :=
  {| _id := _id c; userId := userId c; title := title c; settings := settings c;
     messages := messages c ++ [m]; statistics := statistics c |}.

(** [chatSchema.methods.addMessage], called on the document of the state. *)
Definition addMessage (role0 : Role) (content0 : string) (metadata0 : MessageMeta)
    (attachments0 : list Attachment) : M Message :=
  let* d := getDoc in
  let* date := now in
  let message :=
    {| role := role0;
       content := content0;
       attachments := attachments0;
       timestamp := date;
       metadata :=
         {| md_model := Js.or_else (default "" (mm_model metadata0))
                                   (model (settings (chat d)));
            tokens := default {| prompt := 0; completion := 0; total := 0 |}
                              (mm_tokens metadata0);
            processingTime := default 0 (mm_processingTime metadata0);
            md_error := if Js.truthy_opt (mm_error metadata0)
                        then mm_error metadata0 else None |} |} in
  modifyChat (pushMessage message) true >>
  ret message.

(** The virtual [lastMessage]. *)
Definition lastMessage (c : Chat) : option Message :=
  if 0 <? length (messages c) then messages c !! (length (messages c) - 1) else None.

Definition is_user (m : Message) : bool :=
  match role m with user => true | _ => false end.

(** [chatSchema.methods.generateTitle]; both assignments go through the
    [trim] setter of the path. *)
Definition generateTitle (c : Chat) : Chat :=
  if 0 <? length (messages c) then
    match List.find is_user (messages c) with
    | Some firstUserMessage =>
        let c1 := setTitle (Js.trim (Js.substring0 50 (content firstUserMessage))) c in
        if 50 <? String.length (content firstUserMessage)
        then setTitle (title c1 +:+ "...") c1
        else c1
    | None => c
    end
  else c.

(** *** The chat list (chatSchema.statics.findUserChats and GET /api/chat) *)

(** A filter on the chats collection: [$or] of the two case-insensitive
    regular expressions on [search], [$in] on the tags. *)
Record ChatFilter := {
  f_userId   : string;
  f_isActive : bool;
  f_search   : option string;
  f_tags     : option (list string);
  f_isPinned : option bool
}.

(** [options] of [findUserChats]; a field that is [None] is absent. *)
Record ListOptions := {
  o_page      : option nat;
  o_limit     : option nat;
  o_sortBy    : option string;
  o_sortOrder : option Z;
  o_search    : option string;
  o_tags      : option (list string);
  o_isPinned  : option bool
}.

Definition userChatsFilter (uid : string) (search : string) (tags : list string)
    (isPinned : option bool) : ChatFilter :=
  {| f_userId := uid;
     f_isActive := true;
     f_search := if Js.truthy search then Some search else None;
     f_tags := if 0 <? length tags then Some tags else None;
     f_isPinned := isPinned |}.

(** The chats collection as the queries see it: the documents that satisfy
    a filter, in the order of a sort key and direction. *)
Definition Collection : Type := ChatFilter -> string -> Z -> list Chat.

(** [Chat.findUserChats(userId, options)], for a page number of at least 1
    ([populate] and [lean] change the shape of a document, not which
    documents are returned). *)
Definition findUserChats (db : Collection) (uid : string) (options : ListOptions)
    : list Chat :=
  let page := default 1 (o_page options) in
  let limit := default 20 (o_limit options) in
  let sortBy := default "updatedAt" (o_sortBy options) in
  let sortOrder := default (-1)%Z (o_sortOrder options) in
  let search := default "" (o_search options) in
  let tags := default [] (o_tags options) in
  let query := userChatsFilter uid search tags (o_isPinned options) in
  let skip := (page - 1) * limit in
  take limit (drop skip (db query sortBy sortOrder)).

(** The [tags] query parameter: one value, or a repeated parameter. *)
Inductive TagsParam :=
| tags_one (t : string)
| tags_many (l : list string).

(** [tags ? (Array.isArray(tags) ? tags : [tags]) : []] *)
Definition tagsArray (tags : option TagsParam) : list string :=
  match tags with
  | Some (tags_one t) => if Js.truthy t then [t] else []
  | Some (tags_many l) => l
  | None => []
  end.

(** [req.query] of GET /api/chat, numbers already read by [parseInt]. *)
Record ListQuery := {
  lq_page      : option nat;
  lq_limit     : option nat;
  lq_search    : option string;
  lq_sortBy    : option string;
  lq_sortOrder : option string;
  lq_isPinned  : option string;
  lq_tags      : option TagsParam
}.

Record Pagination := {
  currentPage : nat;
  totalPages  : nat;
  totalChats  : nat;
  hasNextPage : bool;
  hasPrevPage : bool
}.

(** [Math.ceil(a / b)] for a positive [b]. *)
Definition ceil_div (a b : nat) : nat := (a + (b - 1)) / b.

(** The options object that the route passes to [findUserChats]. *)
Definition listOptions (q : ListQuery) : ListOptions :=
  {| o_page := Some (default 1 (lq_page q));
     o_limit := Some (default 20 (lq_limit q));
     o_search := Some (default "" (lq_search q));
     o_sortBy := Some (default "updatedAt" (lq_sortBy q));
     o_sortOrder := Some (if String.eqb (default "desc" (lq_sortOrder q)) "asc"
                          then 1%Z else (-1)%Z);
     o_tags := Some (tagsArray (lq_tags q));
     o_isPinned := (fun s => String.eqb s "true") <$> lq_isPinned q |}.

(** The filter of the route's [countDocuments]. *)
Definition totalFilter (uid : string) (q : ListQuery) : ChatFilter :=
  let options := listOptions q in
  {| f_userId := uid;
     f_isActive := true;
     f_search := if Js.truthy (default "" (lq_search q))
                 then Some (default "" (lq_search q)) else None;
     f_tags := if 0 <? length (tagsArray (lq_tags q))
               then Some (tagsArray (lq_tags q)) else None;
     f_isPinned := o_isPinned options |}.

(** GET /api/chat, when the two queries succeed: the page and its
    pagination block.  [count] answers [Chat.countDocuments]. *)
Definition listChats (db : Collection) (count : ChatFilter -> nat) (uid : string)
    (q : ListQuery) : list Chat * Pagination :=
  let options := listOptions q in
  let chats := findUserChats db uid options in
  let total := count (totalFilter uid q) in
  let totalPages := ceil_div total (default 20 (o_limit options)) in
  (chats,
   {| currentPage := default 1 (o_page options);
      totalPages := totalPages;
      totalChats := total;
      hasNextPage := default 1 (o_page options) <? totalPages;
      hasPrevPage := 1 <? default 1 (o_page options) |}).

(** ** The optional HTTP authentication (middleware/auth.js, [optionalAuth]) *)

(** [req.user] when [next()] is called; the middleware always calls it. *)
Definition optionalAuth (a : AuthEnv) (authHeader : option string) : option User :=
  let token := bearerToken authHeader in
  if Js.truthy_opt token then
    match jwtVerify a (default "" token) with
    | Decoded uid =>
        match findById a uid with
        | Some u => if isActive u then Some u else None
        | None => None
        end
    | JsonWebTokenError | TokenExpiredError => None      (* catch (error) *)
    end
  else None.

(** ** The upload route (routes/upload.js) *)

(** [text.replace(/\s+/g, " ")]: [run] tells that the previous character
    was white space, already replaced. *)
Fixpoint collapse_ws (run : bool) (s : string) : string :=
  match s with
  | EmptyString => EmptyString
  | String c r =>
      if Js.is_ws c
      then (if run then collapse_ws true r else String " "%char (collapse_ws true r))
      else String c (collapse_ws false r)
  end.

(** [excerpt(text, max)]; [None] is [null]. *)
Definition excerpt (text : option string) (max : nat) : option string :=
  if negb (Js.truthy_opt text) then None
  else
    let clean := Js.trim (collapse_ws false (default "" text)) in
    Some (Js.substring0 max clean).

Definition excerpt_max : nat := 2000.

(** What the upload route asks of the outside. *)
Record UploadEnv := {
  allowed    : list string;                 (* ALLOWED *)
  enable_ocr : bool;                        (* ENABLE_OCR is "true" *)
  (* POST <ai service>/extract/<kind> with the file: [None] when the file
     cannot be read, the call fails or the answer is not ok, otherwise
     [json.text] *)
  extractVia : string -> string -> option (option string);
  readUtf8   : string -> option string;     (* fs.readFile(path, "utf8") *)
  (* Tesseract.recognize: [None] when it throws, otherwise [data?.text] *)
  recognize  : string -> option (option string)
}.

Definition default_allowed : list string :=
  ["image/jpeg"; "image/png"; "image/gif"; "application/pdf"; "text/plain"].

(** [fileFilter]: is the file accepted. *)
Definition fileFilter (env : UploadEnv) (mimetype : string) : bool :=
  bool_decide (mimetype ∈ allowed env).

(** [excerpt(json.text || "")] *)
Definition excerptOf (t : option string) : option string :=
  excerpt (Some (Js.or_else (default "" t) "")) excerpt_max.

Definition viaService (env : UploadEnv) (kind filePath : string) : option string :=
  match extractVia env kind filePath with
  | Some t => excerptOf t
  | None => None
  end.

(** [extractText(filePath, mimetype)] *)
Definition extractText (env : UploadEnv) (filePath mimetype : string) : option string :=
  if String.eqb mimetype "application/pdf" then viaService env "pdf" filePath
  else if String.eqb mimetype
            "application/vnd.openxmlformats-officedocument.wordprocessingml.document"
  then viaService env "docx" filePath
  else if String.eqb mimetype "text/plain" then
    match readUtf8 env filePath with
    | Some txt => excerpt (Some txt) excerpt_max
    | None => None                              (* catch (e) *)
    end
  else if String.eqb mimetype "text/csv" || String.eqb mimetype "application/csv"
          || String.eqb mimetype "application/vnd.ms-excel"
  then viaService env "csv" filePath
  else if Js.is_prefix "image/" mimetype then
    if enable_ocr env then
      match recognize env filePath with
      | Some t => excerptOf t
      | None => None
      end
    else None
  else None.

(** A file that multer has stored. *)
Record UploadedFile := {
  originalname : string;
  basename     : string;                    (* path.basename(f.path) *)
  file_path    : string;
  mimetype     : string;
  file_size    : nat
}.

(** One element of the [attachments] array of the response. *)
Definition uploadedAttachment (env : UploadEnv) (f : UploadedFile) : Attachment :=
  {| filename := originalname f;
     savedAs := basename f;
     mimeType := mimetype f;
     att_size := file_size f;
     url := "/uploads/" +:+ basename f;
     textExcerpt := extractText env (file_path f) (mimetype f) |}.

(** ** The message route (routes/chat.js, POST /:chatId/messages) *)

Inductive HttpBody :=
| body_error (error : string)
| body_exchange (userMessage aiMessage : RawMessage) (chat : Summary)
                (warning : option string)
| body_chat (c : Chat)
| body_settings (s : Settings).

Record HttpResponse := {
  res_status : nat;
  res_body   : HttpBody
}.

(** [req.body] of the route. *)
Record MessageBody := {
  b_message     : option string;
  b_attachments : option (list Attachment)
}.

(** [!message && (!attachments || attachments.length === 0)] *)
Definition restIsEmpty (message : option string) (atts : list Attachment) : bool :=
  negb (Js.truthy_opt message) && (length atts =? 0).

(** The [try] block once [axios.post] has resolved. *)
Definition restSettleSuccess (env : Env) (message : option string)
    (userMessage : RawMessage) (data : AiData) : M HttpResponse :=
  let* text :=
    match d_choice data with
    | Some c => ret c
    | None => throw (TypeError "Cannot read properties of undefined (reading '0')")
    end in
  let* date := now in
  let aiMessage :=
    {| r_role := assistant; r_content := text; r_attachments := None;
       r_timestamp := date;
       r_metadata := Some {| rm_model := d_model data; rm_usage := d_usage data;
                             rm_error := None; rm_errorType := None |} |} in
  modifyChat (pushRaw aiMessage) true >>
  let* date2 := now in
  modifyChat (fun c =>
    setStatistics {| messageCount := length (messages c);
                     totalTokens := totalTokens (statistics c) + usageTotal data;
                     lastActivity := date2 |} c) false >>
  let* d := getDoc in
  (if (length (messages (chat d)) =? 2) && String.eqb (title (chat d)) placeholder_title
   then
     let* firstMessage :=
       match message with
       | Some m => ret (Js.trim m)
       | None => throw (TypeError "Cannot read properties of undefined (reading 'trim')")
       end in
     modifyChat (setTitle (titleFor firstMessage)) false
   else ret tt) >>
  save env >>
  let* d := getDoc in
  ret {| res_status := 200;
         res_body := body_exchange userMessage aiMessage (summaryOf (chat d)) None |}.

(** The [catch (aiError)] block. *)
Definition restSettleFailure (env : Env) (userMessage : RawMessage) (aiError : Exn)
    : M HttpResponse :=
  effect (eff_log_error (exnMessage aiError)) >>
  let* date := now in
  let errorMessage :=
    {| r_role := assistant; r_content := apology; r_attachments := None;
       r_timestamp := date;
       r_metadata := Some {| rm_model := None; rm_usage := None;
                             rm_error := Some true;
                             rm_errorType := Some "ai_service_error" |} |} in
  modifyChat (pushRaw errorMessage) true >>
  let* date2 := now in
  modifyChat (fun c =>
    setStatistics {| messageCount := length (messages c);
                     totalTokens := totalTokens (statistics c);
                     lastActivity := date2 |} c) false >>
  save env >>
  let* d := getDoc in
  ret {| res_status := 200;
         res_body := body_exchange userMessage errorMessage (summaryOf (chat d))
                       (Some "AI service temporarily unavailable") |}.

(** The route handler, outer try/catch included. *)
Definition post_message (env : Env) (u : User) (chatId : string) (body : MessageBody)
    : M HttpResponse :=
  try_catch
    (let atts := default [] (b_attachments body) in
     if restIsEmpty (b_message body) atts
     then ret {| res_status := 400;
                 res_body := body_error "Message or attachments are required" |}
     else
       let* found := findOne env chatId (u_id u) in
       match found with
       | None => ret {| res_status := 404; res_body := body_error "Chat not found" |}
       | Some c =>
           setDoc (Some {| chat := c; messages_modified := false |}) >>
           let* date := now in
           let userMessage :=
             {| r_role := user; r_content := userContent (b_message body) atts;
                r_attachments := Some atts; r_timestamp := date;
                r_metadata := None |} in
           modifyChat (pushRaw userMessage) true >>
           let* d := getDoc in
           try_catch
             (let* data := axiosPost env (completionRequest (chat d)) in
              restSettleSuccess env (b_message body) userMessage data)
             (restSettleFailure env userMessage)
       end)
    (fun error =>
       effect (eff_log_error (exnMessage error)) >>
       ret {| res_status := 500; res_body := body_error "Failed to send message" |}).

(** One request to the route: the response ([None] if the handler threw),
    the world afterwards and what the handler did, oldest first. *)
Record RestRun := {
  rr_response : option HttpResponse;
  rr_world    : World;
  rr_effects  : list Effect
}.

Definition on_post_message (env : Env) (u : User) (chatId : string)
    (body : MessageBody) (w : World) : RestRun :=
  let r := post_message env u chatId body (entry w) in
  {| rr_response := match fst r with inr res => Some res | inl _ => None end;
     rr_world := world (snd r);
     rr_effects := rev (trace (snd r)) |}.

(** The request body with the fields of a socket payload. *)
Definition bodyOf (d : ChatMessageData) : MessageBody :=
  {| b_message := d_message d; b_attachments := d_attachments d |}.

(** ** Creating a chat and changing its settings (routes/chat.js,
       POST / and PUT /:chatId/settings) *)

(** The [settings] object of a request body; a field that is [None] is
    absent. *)
Record SettingsInput := {
  si_model        : option string;
  si_temperature  : option Q;
  si_maxTokens    : option nat;
  si_systemPrompt : option string
}.


(** Truthiness of a number: zero is falsy. *)
Definition truthyQ (q : Q) : bool := negb (Qeq_bool q 0).




Definition setSettings (s : Settings) (c : Chat) : Chat :=
  {| _id := _id c; userId := userId c; title := title c; settings := s;
     messages := messages c; statistics := statistics c |}.

(** The four conditional assignments of PUT /:chatId/settings. *)
Definition applySettings (s : SettingsInput) (old : Settings) : Settings :=
  {| model := if Js.truthy_opt (si_model s) then default "" (si_model s) else model old;
     temperature := default (temperature old) (si_temperature s);
     maxTokens :=
       match si_maxTokens s with
       | Some n => if n =? 0 then maxTokens old else n
       | None => maxTokens old
       end;
     systemPrompt := if Js.truthy_opt (si_systemPrompt s)
                     then default "" (si_systemPrompt s) else systemPrompt old |}.

(** PUT /:chatId/settings; [settings = None] is a body without the field. *)
Definition update_settings (env : Env) (u : User) (chatId : string)
    (settings0 : option SettingsInput) : M HttpResponse :=
  try_catch
    (let* found := findOne env chatId (u_id u) in
     match found with
     | None => ret {| res_status := 404; res_body := body_error "Chat not found" |}
     | Some c =>
         setDoc (Some {| chat := c; messages_modified := false |}) >>
         match settings0 with
         | None => throw (TypeError "Cannot read properties of undefined (reading 'model')")
         | Some s =>
             modifyChat (fun c => setSettings (applySettings s (settings c)) c) false >>
             save env >>
             let* d := getDoc in
             ret {| res_status := 200; res_body := body_settings (settings (chat d)) |}
         end
     end)
    (fun error =>
       effect (eff_log_error (exnMessage error)) >>
       ret {| res_status := 500;
              res_body := body_error "Failed to update chat settings" |}).

Definition on_update_settings (env : Env) (u : User) (chatId : string)
    (settings0 : option SettingsInput) (w : World) : RestRun :=
  let r := update_settings env u chatId settings0 (entry w) in
  {| rr_response := match fst r with inr res => Some res | inl _ => None end;
     rr_world := world (snd r);
     rr_effects := rev (trace (snd r)) |}.

(** ** Rooms and the small socket handlers (socketHandler.js) *)

(** The rooms that each socket has joined with [socket.join] are kept in a
    map from socket ids to sets of room names (the room that socket.io
    gives every socket under its own id is left out: no code here
    addresses it). *)

Definition roomsOf (sid : string) (r : gmap string (gset string)) : gset string := default ∅ (r !! sid).

(** [socket.join(room)] *)
Definition joinRoom (sid room : string) (r : gmap string (gset string)) : gmap string (gset string) :=
  <[ sid := {[ room ]} ∪ roomsOf sid r ]> r.

(** [socket.leave(room)] *)
Definition leaveRoom (sid room : string) (r : gmap string (gset string)) : gmap string (gset string) :=
  <[ sid := roomsOf sid r ∖ {[ room ]} ]> r.

(** The sockets in a room. *)
Definition inRoom (room : string) (r : gmap string (gset string)) : gset string :=
  dom (filter (fun p => room ∈ p.2) r).

(** The value a client sends with an event: a bare string, or an object
    with the fields the handlers read. *)
Inductive Payload :=
| pl_text (s : string)
| pl_fields (chatId : option string) (typing : option bool)
| pl_message (d : ChatMessageData).

(** [const { chatId } = data] *)
Definition chatIdOf (data : Payload) : option string :=
  match data with
  | pl_fields c _ => c
  | pl_message d => Some (d_chatId d)
  | pl_text _ => None                       (* a string has no such property *)
  end.

Definition typingOf (data : Payload) : option bool :=
  match data with
  | pl_fields _ t => t
  | pl_message _ | pl_text _ => None
  end.

(** [`chat_${chatId}`]: an undefined value prints as "undefined". *)
Definition chatRoom (chatId : option string) : string :=
  "chat_" +:+ default "undefined" chatId.

Definition userRoom (uid : string) : string := "user_" +:+ uid.

(** An event sent to other sockets. *)
Record Delivery := {
  dl_to       : gset string;                (* the receiving sockets *)
  dl_event    : string;
  dl_userId   : string;
  dl_username : string;
  dl_typing   : option bool
}.

(** [socket.on("join_chat")] *)
Definition on_join_chat (s : Socket) (data : Payload) (r : gmap string (gset string)) : gmap string (gset string) :=
  joinRoom (socketId s) (chatRoom (chatIdOf data)) r.

(** [socket.on("leave_chat")] *)
Definition on_leave_chat (s : Socket) (data : Payload) (r : gmap string (gset string)) : gmap string (gset string) :=
  leaveRoom (socketId s) (chatRoom (chatIdOf data)) r.

(** [socket.on("typing")]: [socket.to(room)] reaches the room without the
    sender. *)
Definition on_typing (s : Socket) (data : Payload) (r : gmap string (gset string)) : list Delivery :=
  match sock_user s with
  | Some u =>
      [{| dl_to := inRoom (chatRoom (chatIdOf data)) r ∖ {[ socketId s ]};
          dl_event := "user_typing";
          dl_userId := u_id u; dl_username := username u;
          dl_typing := typingOf data |}]
  | None => []                              (* reading socket.user.id throws *)
  end.

(** The room of the user, joined by [handleSocketConnection] after the
    registry insert. *)
Definition joinUserRoom (s : Socket) (r : gmap string (gset string)) : gmap string (gset string) :=
  match sock_user s with
  | Some u => joinRoom (socketId s) (userRoom (u_id u)) r
  | None => r
  end.

(** The rooms after a disconnect: the handler leaves every room, and the
    socket is gone. *)
Definition dropRooms (s : Socket) (r : gmap string (gset string)) : gmap string (gset string) := delete (socketId s) r.

(** [broadcastToUser]: the sockets that [io.to(`user_${userId}`)] reaches. *)
Definition broadcastToUser (uid : string) (r : gmap string (gset string)) : gset string :=
  inRoom (userRoom uid) r.

(** [broadcastToChat] *)
Definition broadcastToChat (chatId : string) (r : gmap string (gset string)) : gset string :=
  inRoom (chatRoom (Some chatId)) r.

(** *** The client side (frontend, SocketContext) *)

(** What a SocketContext function puts on the wire. *)
Record Wire := {
  w_event   : string;
  w_payload : Payload
}.

Definition joinChat (chatId : string) : Wire :=
  {| w_event := "join_chat"; w_payload := pl_text chatId |}.

Definition leaveChat (chatId : string) : Wire :=
  {| w_event := "leave_chat"; w_payload := pl_text chatId |}.

Definition sendMessage (chatId message : string) (attachments0 : list Attachment)
    : Wire :=
  {| w_event := "chat_message";
     w_payload := pl_message {| d_chatId := chatId; d_message := Some message;
                                d_attachments := Some attachments0 |} |}.

Definition startTyping (chatId : string) : Wire :=
  {| w_event := "start_typing"; w_payload := pl_text chatId |}.

Definition stopTyping (chatId : string) : Wire :=
  {| w_event := "stop_typing"; w_payload := pl_text chatId |}.

(** The listeners of [handleSocketConnection] that touch rooms or send to
    other sockets.  The chat_message and ping listeners answer on the
    sending socket only (see [chat_message]); an event without a listener
    is dropped. *)
Definition on_wire (s : Socket) (w : Wire) (r : gmap string (gset string)) : gmap string (gset string) * list Delivery :=
  if String.eqb (w_event w) "typing" then (r, on_typing s (w_payload w) r)
  else if String.eqb (w_event w) "join_chat" then (on_join_chat s (w_payload w) r, [])
  else if String.eqb (w_event w) "leave_chat" then (on_leave_chat s (w_payload w) r, [])
  else (r, []).

(** ** The temporary server (server-temp.js) *)

(** A chat of the in-memory store; its messages are plain objects. *)
Record TempChat := {
  tc_id         : string;
  tc_userId     : string;
  tc_title      : string;
  tc_messages   : list RawMessage;
  tc_createdAt  : nat;
  tc_updatedAt  : nat;
  tc_statistics : Statistics;
  tc_settings   : Settings
}.

(** The module-level variables and the clock. *)
Record Temp := {
  chats         : list TempChat;
  currentChatId : nat;
  tmp_clock     : nat
}.

Definition temp_start (clk : nat) : Temp :=
  {| chats := []; currentChatId := 1; tmp_clock := clk |}.

(** The temporary [authenticateToken]: any token stands for the demo user. *)
Definition tempAuthenticate (authHeader : option string) : option (string * string) :=
  if negb (Js.truthy_opt (bearerToken authHeader)) then None
  else Some ("demo-user", "Demo User").

Definition tempMatches (chatId uid : string) (c : TempChat) : bool :=
  String.eqb (tc_id c) chatId && String.eqb (tc_userId c) uid.

(** GET /api/chat/:chatId *)
Definition tempGet (chatId uid : string) (t : Temp) : option TempChat :=
  List.find (tempMatches chatId uid) (chats t).

(** POST /api/chat *)
Definition tempCreate (uid : string) (title0 : option string) (t : Temp)
    : TempChat * Temp :=
  let clk := tmp_clock t in
  let newChat :=
    {| tc_id := "chat-" +:+ pretty (currentChatId t);
       tc_userId := uid;
       tc_title := Js.or_else (default "" title0) "New Chat";
       tc_messages := [];
       tc_createdAt := clk;
       tc_updatedAt := clk + 1;
       tc_statistics := {| messageCount := 0; totalTokens := 0;
                           lastActivity := clk + 2 |};
       tc_settings := {| model := "deepseek/deepseek-r1"; temperature := 7 # 10;
                         maxTokens := 2048;
                         systemPrompt := default_system_prompt |} |} in
  (newChat,
   {| chats := chats t ++ [newChat];
      currentChatId := S (currentChatId t);
      tmp_clock := clk + 3 |}).

(** [chats.findIndex(...)] then [chats.splice(index, 1)] *)
Fixpoint removeFirst (p : TempChat -> bool) (l : list TempChat) : option (list TempChat) :=
  match l with
  | [] => None
  | c :: r => if p c then Some r else cons c <$> removeFirst p r
  end.

(** DELETE /api/chat/:chatId: the status and the state. *)
Definition tempDelete (chatId uid : string) (t : Temp) : nat * Temp :=
  match removeFirst (tempMatches chatId uid) (chats t) with
  | None => (404, t)
  | Some l => (200, {| chats := l; currentChatId := currentChatId t;
                       tmp_clock := tmp_clock t |})
  end.

(** What [fetch] of the completion service gives. *)
Inductive FetchOutcome :=
| FetchOk (data : AiData)                   (* response.ok *)
| FetchNotOk (status : nat)
| FetchThrows (msg : string).

(** The chat object is mutated in place: replace the first chat that the
    lookup finds. *)
Fixpoint replaceFirst (p : TempChat -> bool) (c' : TempChat) (l : list TempChat)
    : list TempChat :=
  match l with
  | [] => []
  | c :: r => if p c then c' :: r else c :: replaceFirst p c' r
  end.

Definition tempPrompts (c : TempChat) : list Prompt :=
  map (fun m => {| p_role := r_role m; p_content := r_content m |}) (tc_messages c).

(** The body of the [fetch] call; it has no timeout. *)
Record TempRequest := {
  tq_messages    : list Prompt;
  tq_model       : string;
  tq_temperature : Q;
  tq_max_tokens  : nat
}.

(** POST /api/chat/:chatId/messages: the status, the body and the state. *)
Definition tempPost (fetch : TempRequest -> FetchOutcome) (chatId uid : string)
    (message : option string) (t : Temp) : HttpResponse * Temp :=
  if negb (Js.truthy_opt message) || negb (Js.truthy (Js.trim (default "" message)))
  then ({| res_status := 400; res_body := body_error "Message is required" |}, t)
  else
    match tempGet chatId uid t with
    | None => ({| res_status := 404; res_body := body_error "Chat not found" |}, t)
    | Some c =>
        let text := default "" message in
        let clk := tmp_clock t in
        let userMessage :=
          {| r_role := user; r_content := Js.trim text; r_attachments := None;
             r_timestamp := clk; r_metadata := None |} in
        let c1 :=
          {| tc_id := tc_id c; tc_userId := tc_userId c; tc_title := tc_title c;
             tc_messages := tc_messages c ++ [userMessage];
             tc_createdAt := tc_createdAt c; tc_updatedAt := tc_updatedAt c;
             tc_statistics := tc_statistics c; tc_settings := tc_settings c |} in
        let failed :=
          ({| res_status := 500; res_body := body_error "Failed to get AI response" |},
           {| chats := replaceFirst (tempMatches chatId uid) c1 (chats t);
              currentChatId := currentChatId t;
              tmp_clock := clk + 1 |}) in
        match fetch {| tq_messages := tempPrompts c1;
                       tq_model := model (tc_settings c1);
                       tq_temperature := temperature (tc_settings c1);
                       tq_max_tokens := maxTokens (tc_settings c1) |} with
        | FetchOk data =>
            match d_choice data with
            | Some reply =>
                let aiMessage :=
                  {| r_role := assistant; r_content := reply; r_attachments := None;
                     r_timestamp := clk + 1;
                     r_metadata := Some {| rm_model := d_model data;
                                           rm_usage := d_usage data;
                                           rm_error := None; rm_errorType := None |} |} in
                let msgs := tc_messages c1 ++ [aiMessage] in
                let stats :=
                  {| messageCount := length msgs;
                     totalTokens := totalTokens (tc_statistics c1) + usageTotal data;
                     lastActivity := clk + 2 |} in
                let title1 :=
                  if (length msgs =? 2) && String.eqb (tc_title c1) "New Chat"
                  then (if 50 <? String.length text
                        then Js.substring0 47 text +:+ "..." else text)
                  else tc_title c1 in
                let c2 :=
                  {| tc_id := tc_id c1; tc_userId := tc_userId c1; tc_title := title1;
                     tc_messages := msgs;
                     tc_createdAt := tc_createdAt c1; tc_updatedAt := clk + 3;
                     tc_statistics := stats; tc_settings := tc_settings c1 |} in
                ({| res_status := 200;
                    res_body := body_exchange userMessage aiMessage
                                  {| s_id := tc_id c2; s_title := tc_title c2;
                                     s_messageCount := messageCount stats;
                                     s_totalTokens := totalTokens stats |} None |},
                 {| chats := replaceFirst (tempMatches chatId uid) c2 (chats t);
                    currentChatId := currentChatId t;
                    tmp_clock := clk + 4 |})
            | None => failed
            end
        | FetchNotOk _ | FetchThrows _ => failed
        end
    end.

(** ** Auxiliary definitions for the statements on stored chats *)

(** The statistics agree with the entry list. *)
Definition isConsistent (c : Chat) : bool :=
  (messageCount (statistics c) =? length (messages c)) &&
  (totalTokens (statistics c) =? sumTokens (messages c)).

(** How a chat [c] written by a run for the user [uid] relates to the store
    [st] the run started from: either it carries the id [fresh], or it
    continues a chat of [uid] in [st]. *)
Definition writtenFrom (st : list Chat) (fresh uid : string) (c : Chat) : Prop :=
  isConsistent c = true ∧ userId c = uid ∧
  (_id c = fresh ∨
   ∃ c0, c0 ∈ st ∧ _id c0 = _id c ∧ userId c0 = uid ∧
         messages c0 `prefix_of` messages c).

(** The chat ids of a store. *)
Definition idsOf (st : list Chat) : list string := map _id st.

(** An event that closes an exchange on the socket. *)
Definition is_closing (e : Event) : bool :=
  match e with ev_ai_response _ _ _ _ | ev_error _ _ => true | _ => false end.

(** The upstream requests of a run, oldest first. *)
Definition posts (l : list Effect) : list Request :=
  omap (fun e => match e with eff_post rq => Some rq | _ => None end) l.

(** Text in which white space occurs only as single space characters, no
    two of them in a row; [after_space] tells that the previous character
    was a space. *)
Fixpoint tidy (after_space : bool) (s : string) : bool :=
  match s with
  | EmptyString => true
  | String c r =>
      if Js.is_ws c
      then Ascii.eqb c " "%char && negb after_space && tidy true r
      else tidy false r
  end.

(** The same query for another page. *)
Definition atPage (q : ListQuery) (p : nat) : ListQuery :=
  {| lq_page := Some p; lq_limit := lq_limit q; lq_search := lq_search q;
     lq_sortBy := lq_sortBy q; lq_sortOrder := lq_sortOrder q;
     lq_isPinned := lq_isPinned q; lq_tags := lq_tags q |}.

(** The documents that the list route pages through. *)
Definition listed (db : Collection) (uid : string) (q : ListQuery) : list Chat :=
  db (totalFilter uid q)
     (default "updatedAt" (lq_sortBy q))
     (if String.eqb (default "desc" (lq_sortOrder q)) "asc" then 1%Z else (-1)%Z).

(** ** The socket server as a whole *)

(** The registry, the rooms, the sockets that are connected (by id), and
    how many connection ids the engine has given out. *)
Record Hub := {
  hub_server : Server;
  hub_rooms  : gmap string (gset string);
  hub_live   : gmap string Socket;
  hub_next   : nat
}.

(** The id of the [n]-th connection. *)
Definition socketName (n : nat) : string := "sock-" +:+ pretty n.

Definition hub_start (clk : nat) : Hub :=
  {| hub_server := {| activeConnections := ∅; open_sockets := ∅; srv_clock := clk |};
     hub_rooms := ∅; hub_live := ∅; hub_next := 0 |}.

(** What happens at the server: a client connects with a handshake, a
    connected socket goes away, a connected socket sends an event. *)
Inductive HubOp :=
| op_connect (h : Handshake)
| op_disconnect (sid : string)
| op_wire (sid : string) (w : Wire).

Definition hub_step (a : AuthEnv) (op : HubOp) (h : Hub) : Hub * list Delivery :=
  match op with
  | op_connect hs =>
      let s := {| socketId := socketName (hub_next h); handshake := hs;
                  sock_user := None |} in
      match authenticateSocket a s with
      | next_error _ =>
          ({| hub_server := hub_server h; hub_rooms := hub_rooms h;
              hub_live := hub_live h; hub_next := S (hub_next h) |}, [])
      | next_ok s' =>
          ({| hub_server := fst (connect a s (hub_server h));
              hub_rooms := joinUserRoom s' (hub_rooms h);
              hub_live := <[ socketId s' := s' ]> (hub_live h);
              hub_next := S (hub_next h) |}, [])
      end
  | op_disconnect sid =>
      match hub_live h !! sid with
      | Some s =>
          ({| hub_server := on_disconnect s (hub_server h);
              hub_rooms := dropRooms s (hub_rooms h);
              hub_live := delete sid (hub_live h);
              hub_next := hub_next h |}, [])
      | None => (h, [])
      end
  | op_wire sid w =>
      match hub_live h !! sid with
      | Some s =>
          let r := on_wire s w (hub_rooms h) in
          ({| hub_server := hub_server h; hub_rooms := fst r;
              hub_live := hub_live h; hub_next := hub_next h |}, snd r)
      | None => (h, [])
      end
  end.

Fixpoint hub_run (a : AuthEnv) (ops : list HubOp) (h : Hub) : Hub * list Delivery :=
  match ops with
  | [] => (h, [])
  | op :: rest =>
      let r1 := hub_step a op h in
      let r2 := hub_run a rest (fst r1) in
      (fst r2, snd r1 ++ snd r2)
  end.

(** An event as a SocketContext function sends it. *)
Definition fromSocketContext (w : Wire) : Prop :=
  ∃ chatId, w = joinChat chatId ∨ w = leaveChat chatId ∨
            w = startTyping chatId ∨ w = stopTyping chatId ∨
            ∃ message attachments0, w = sendMessage chatId message attachments0.

Definition clientOp (op : HubOp) : Prop :=
  match op with
  | op_wire _ w => fromSocketContext w
  | _ => True
  end.

(** *** Requests to the temporary server *)

Inductive TempOp :=
| t_create (uid : string) (title0 : option string)
| t_post (fetch : TempRequest -> FetchOutcome) (chatId uid : string)
         (message : option string)
| t_delete (chatId uid : string).

Definition temp_step (op : TempOp) (t : Temp) : Temp :=
  match op with
  | t_create uid title0 => snd (tempCreate uid title0 t)
  | t_post fetch chatId uid message => snd (tempPost fetch chatId uid message t)
  | t_delete chatId uid => snd (tempDelete chatId uid t)
  end.

Definition temp_run (ops : list TempOp) (t : Temp) : Temp :=
  foldl (fun t op => temp_step op t) t ops.

(** The ids of the stored chats are pairwise distinct and were all given
    out by the counter. *)
Definition temp_ok (t : Temp) : Prop :=
  NoDup (map tc_id (chats t)) ∧
  ∀ c, c ∈ chats t →
    ∃ k, k < currentChatId t ∧ tc_id c = "chat-" +:+ pretty k.

(** A [fetch] outcome that the route treats as a failure. *)
Definition fetchFailed (o : FetchOutcome) : bool :=
  match o with
  | FetchOk data => match d_choice data with Some _ => false | None => true end
  | FetchNotOk _ | FetchThrows _ => true
  end.

(** What a store [st] has become in [st'] after a run for the user [uid]:
    the chats of other users are there unchanged, and every chat is there
    with the same id and owner and at least the entries it had. *)
Definition continues (uid : string) (st st' : list Chat) : Prop :=
  (∀ c, c ∈ st → userId c ≠ uid → c ∈ st') ∧
  (∀ c, c ∈ st → ∃ c', c' ∈ st' ∧ _id c' = _id c ∧ userId c' = userId c ∧
                        messages c `prefix_of` messages c').

(** Invariants of the socket server: every connected socket carries its
    own id, one the engine gave out, and a verified user whose room it is
    in; every registry entry is filed under the id of its user and names a
    connected socket of that user. *)
Definition live_ok (a : AuthEnv) (h : Hub) : Prop :=
  ∀ sid s, hub_live h !! sid = Some s →
    socketId s = sid ∧ (∃ n, n < hub_next h ∧ sid = socketName n) ∧
    ∃ u, sock_user s = Some u ∧ u ∈ users a ∧
         userRoom (u_id u) ∈ roomsOf sid (hub_rooms h).

Definition registry_ok (h : Hub) : Prop :=
  ∀ uid ses, activeConnections (hub_server h) !! uid = Some ses →
    ∃ s, hub_live h !! ses_socketId ses = Some s ∧
         sock_user s = Some (ses_user ses) ∧ u_id (ses_user ses) = uid.

(** Every room joined is "chat_undefined" or the room of a user. *)
Definition rooms_ok (r : gmap string (gset string)) : Prop :=
  ∀ sid room, room ∈ roomsOf sid r → room = chatRoom None ∨ ∃ uid, room = userRoom uid.

(** *** More concrete inputs for the examples *)

Module Samples.

Definition env42 : Env := Fixtures.healthy (fun _ => Fixtures.reply "Hi there!" 42).

Definition hello : ChatMessageData := Fixtures.msgData "default" "Hello".

(** The chat that the "default" id creates for alice in the empty world. *)
Definition aliceNewChat : Chat :=
  preSaveHook 101 (newChat (Fixtures.chatIds 0) (u_id Fixtures.alice) 100).

Definition anyNews : ChatMessageData :=
  Fixtures.msgData "65c0000000000000000000b0" "Any news?".

(** A first message with a blank text and one attachment. *)
Definition blankWithReport : ChatMessageData :=
  {| d_chatId := "default"; d_message := Some " ";
     d_attachments := Some [Fixtures.mkAttachment "report.pdf" None] |}.

Definition aliceHandshake : Handshake :=
  {| auth_token := Some "token-alice"; authorization := None |}.

Definition bobsSession : State :=
  {| world := Fixtures.bobsWorld; trace := [];
     doc := Some {| chat := Fixtures.bobsChat; messages_modified := false |} |}.

Definition usage30 : MessageMeta :=
  {| mm_model := None;
     mm_tokens := Some {| prompt := 10; completion := 20; total := 30 |};
     mm_processingTime := Some 1200; mm_error := None |}.

(** Three chats of bob, listed two to a page. *)
Definition threeChats : ChatFilter -> string -> Z -> list Chat :=
  fun _ _ _ => [Fixtures.bobsChat; Fixtures.bobsChat; Fixtures.bobsChat].

Definition byTwo : ListQuery :=
  {| lq_page := None; lq_limit := Some 2; lq_search := None; lq_sortBy := None;
     lq_sortOrder := None; lq_isPinned := None; lq_tags := None |}.

Definition plainUploads : UploadEnv :=
  {| allowed := default_allowed; enable_ocr := false;
     extractVia := fun _ _ => None;
     readUtf8 := fun _ => Some ("Dear  all," +:+ Js.nl +:+ " see below. ");
     recognize := fun _ => None |}.

Definition notes : UploadedFile :=
  {| originalname := "notes.txt"; basename := "1700000000000_ab12cd_notes.txt";
     file_path := "uploads/1700000000000_ab12cd_notes.txt";
     mimetype := "text/plain"; file_size := 26 |}.

(** The temporary server after one chat has been created. *)
Definition oneChat : Temp := snd (tempCreate "demo-user" None (temp_start 0)).

Definition unavailable : TempRequest -> FetchOutcome := fun _ => FetchNotOk 503.

(** Settings that ask for a temperature of zero. *)
Definition coldSettings : SettingsInput :=
  {| si_model := None; si_temperature := Some 0%Q; si_maxTokens := None;
     si_systemPrompt := None |}.

End Samples.

(** * Properties *)

(** ** Strings *)

Section StringFacts.
Import Js.

Lemma append_cons (c : ascii) (a b : string) :
  String c a +:+ b = String c (a +:+ b).
Proof. reflexivity. Qed.

Lemma append_nil_l (s : string) : "" +:+ s = s.
Proof. reflexivity. Qed.

Lemma append_nil_r (s : string) : s +:+ "" = s.
Proof. induction s as [|c s IH]; [done|]. by rewrite append_cons, IH. Qed.

Lemma append_assoc (a b c : string) : (a +:+ b) +:+ c = a +:+ b +:+ c.
Proof. induction a as [|x a IH]; [done|]. by rewrite !append_cons, IH. Qed.

Lemma has_ink_app (a b : string) : has_ink (a +:+ b) = has_ink a || has_ink b.
Proof.
  induction a as [|c a IH]; [done|].
  rewrite append_cons. simpl. by rewrite IH, orb_assoc.
Qed.

Lemma trimStart_empty_iff (s : string) : trimStart s = "" ↔ has_ink s = false.
Proof.
  induction s as [|c r IH]; simpl; [done|].
  destruct (is_ws c); simpl; [done|]. split; discriminate.
Qed.

Lemma has_ink_trimStart (s : string) : has_ink (trimStart s) = has_ink s.
Proof.
  induction s as [|c r IH]; simpl; [done|].
  destruct (is_ws c) eqn:E; simpl; [done|]. by rewrite E.
Qed.

Lemma trimEnd_empty_iff (s : string) : trimEnd s = "" ↔ has_ink s = false.
Proof.
  induction s as [|c r IH]; simpl; [done|].
  destruct (trimEnd r) eqn:E.
  - destruct (is_ws c); simpl; [tauto|]. split; discriminate.
  - split; [discriminate|]. intros [_ H]%orb_false_iff.
    apply IH in H. discriminate.
Qed.

Lemma trim_empty_iff (s : string) : trim s = "" ↔ has_ink s = false.
Proof. unfold trim. by rewrite trimEnd_empty_iff, has_ink_trimStart. Qed.

Lemma starts_ink_trimStart (s : string) : starts_ink (trimStart s) = true.
Proof.
  induction s as [|c r IH]; simpl; [done|].
  destruct (is_ws c) eqn:E; simpl; [done|]. by rewrite E.
Qed.

Lemma trimStart_id (s : string) : starts_ink s = true → trimStart s = s.
Proof. destruct s as [|c r]; simpl; [done|]. by destruct (is_ws c). Qed.

Lemma starts_ink_trimEnd (s : string) : starts_ink s = true → starts_ink (trimEnd s) = true.
Proof.
  destruct s as [|c r]; simpl; [done|]. intros H.
  destruct (trimEnd r); [|done].
  destruct (is_ws c) eqn:E; simpl in *; [done|by rewrite E].
Qed.

Lemma trimEnd_idemp (s : string) : trimEnd (trimEnd s) = trimEnd s.
Proof.
  induction s as [|c r IH]; simpl; [done|].
  destruct (trimEnd r) as [|c' r'] eqn:E.
  - destruct (is_ws c) eqn:W; simpl; [done|]. by rewrite W.
  - change (trimEnd (String c (String c' r')) = String c (String c' r')).
    cbn [trimEnd] in IH |- *. 
    destruct (match trimEnd r' with "" => if is_ws c' then "" else String c' "" | String a s => String c' (String a s) end) eqn:E2; [discriminate|].
    by rewrite <- IH.
Qed.

Lemma starts_ink_trim (s : string) : starts_ink (trim s) = true.
Proof. apply starts_ink_trimEnd, starts_ink_trimStart. Qed.

Lemma trim_idemp (s : string) : trim (trim s) = trim s.
Proof.
  unfold trim at 1. rewrite (trimStart_id (trim s)) by apply starts_ink_trim.
  apply trimEnd_idemp.
Qed.

Lemma trimEnd_app_ink (x y : string) :
  trimEnd y ≠ "" → trimEnd (x +:+ y) = x +:+ trimEnd y.
Proof.
  intros Hy. induction x as [|c x IH]; [done|].
  rewrite !append_cons. simpl. rewrite IH.
  destruct (x +:+ trimEnd y) eqn:E; [|done].
  destruct x; [by rewrite append_nil_l in E|by rewrite append_cons in E].
Qed.


Lemma length_append (a b : string) :
  String.length (a +:+ b) = String.length a + String.length b.
Proof.
  induction a as [|c a IH]; [done|]. rewrite append_cons. simpl. by rewrite IH.
Qed.
End StringFacts.

Section TitleFacts.
Import Js.





End TitleFacts.

(** ** Stored user content (claim C6) *)

Lemma attachmentNotes_joined (atts : list Attachment) :
  attachmentNotes atts = joined_blocks atts.
Proof.
  unfold attachmentNotes, Js.join.
  induction atts as [|a rest IH]; [done|].
  simpl. destruct rest; [done|]. by rewrite <- IH.
Qed.


Lemma has_ink_attachmentNote (a : Attachment) : has_ink (attachmentNote a) = true.
Proof.
  unfold attachmentNote. destruct (Js.truthy_opt (textExcerpt a));
    rewrite !has_ink_app; simpl; by rewrite ?orb_true_r.
Qed.

Lemma has_ink_joined (atts : list Attachment) :
  atts ≠ [] → has_ink (joined_blocks atts) = true.
Proof.
  destruct atts as [|a rest]; [done|]. intros _. simpl.
  destruct rest; [apply has_ink_attachmentNote|].
  by rewrite has_ink_app, has_ink_attachmentNote.
Qed.

(** A message that passes validation never needs the placeholder: its
    content has a character that survives the trim. *)
Lemma fullContent_nonempty (message : option string) (atts : list Attachment) :
  isEmptyMessage message atts = false → fullContent message atts ≠ "".
Proof.
  unfold isEmptyMessage, fullContent. intros H.
  rewrite attachmentNotes_joined, trim_empty_iff, has_ink_app.
  intros [H1 H2]%orb_false_iff.
  apply andb_false_iff in H as [H|H].
  - apply orb_false_iff in H as [_ H]. apply negb_false_iff in H.
    apply trim_empty_iff in H1. rewrite trim_idemp in H1.
    by rewrite H1 in H.
  - destruct atts as [|a rest]; [done|].
    by rewrite has_ink_joined in H2.
Qed.



(** ** Rejected before any side effect (claim C7) *)

Lemma trim_blank_is_empty (message : option string) :
  Js.trim (default "" message) = "" → isEmptyMessage message [] = true.
Proof.
  intros H. unfold isEmptyMessage. rewrite H. simpl.
  by rewrite orb_true_r.
Qed.

(** C7: a message whose text trims to nothing and that carries no
    attachment gets one error event and nothing else happens: no lookup,
    no save, no upstream call, the world is unchanged. *)
Theorem C7_empty_message_rejected (env : Env) (u : User) (d : ChatMessageData)
    (w : World) :
  Js.trim (default "" (d_message d)) = "" →
  default [] (d_attachments d) = [] →
  on_chat_message env u (Some d) w =
    (w, [eff_emit (ev_error "Message or attachments are required" None)]).
Proof.
  intros Htext Hatts. unfold on_chat_message, chat_message, try_catch.
  rewrite Hatts, (trim_blank_is_empty _ Htext). simpl. by destruct w.
Qed.

Lemma C7_witness :
  Js.trim (default "" (Some "   ")) = "" ∧
  default [] (@None (list Attachment)) = [] ∧
  on_chat_message (Fixtures.healthy (fun _ => Failed TimedOut)) Fixtures.alice
    (Some {| d_chatId := "default"; d_message := Some "   "; d_attachments := None |})
    Fixtures.bobsWorld =
    (Fixtures.bobsWorld,
     [eff_emit (ev_error "Message or attachments are required" None)]).
Proof.
  split; [reflexivity|]. split; [reflexivity|].
  apply (C7_empty_message_rejected _ _
           {| d_chatId := "default"; d_message := Some "   "; d_attachments := None |});
    reflexivity.
Defined.

(** ** The connection registry (claim C10) *)





(** ** The chat model *)

Lemma length_two_more {A} (l : list A) (a b : A) :
  (length ((l ++ [a]) ++ [b]) =? 2) = (length l =? 0).
Proof.
  rewrite !length_app. simpl.
  destruct (length l) as [|n]; [done|].
  replace (S n + 1 + 1) with (S (S (S n))) by lia. done.
Qed.

Lemma foldl_tokens_shift (l : list Message) (n : nat) :
  foldl (λ acc msg, acc + total (tokens (metadata msg))) n l =
  n + sumTokens l.
Proof.
  unfold sumTokens. revert n. induction l as [|m l IH]; intros n; simpl; [lia|].
  rewrite (IH (n + _)), (IH (total (tokens (metadata m)))). lia.
Qed.

Lemma sumTokens_app (l1 l2 : list Message) :
  sumTokens (l1 ++ l2) = sumTokens l1 + sumTokens l2.
Proof.
  unfold sumTokens at 1. rewrite foldl_app, foldl_tokens_shift. done.
Qed.

Lemma sumTokens_cast (l : list Message) (m : RawMessage) :
  sumTokens (l ++ [castMessage m]) = sumTokens l.
Proof. rewrite sumTokens_app. unfold sumTokens. simpl. lia. Qed.

(** ** Symbolic execution of a handler run *)

(** The run is kept in a hypothesis [E : r = m s].  [plumb] evaluates the
    monad plumbing and the record updates; [open_in] unfolds the block that
    has reached the state; [branch_in] splits on the next answer of the
    environment or test on the inputs. *)
Ltac plumb E :=
  cbv beta iota zeta delta
    [bind ret throw try_catch effect emit now setDoc getDoc modifyChat write
     freshId entry andb orb negb
     world trace doc chat messages_modified store clock nextId nwrites fst snd
     d_choice d_model d_usage d_chatId d_message d_attachments
     pushRaw setStatistics setTitle preSaveHook newChat summaryOf
     _id userId title settings messages statistics
     messageCount totalTokens lastActivity
     castable newId validates writes respond validationError withRespond] in E.

Ltac open_in E :=
  match type of E with
  | context [chat_message ?a ?b ?c ?s] => unfold chat_message in E
  | context [resolveAndExchange ?a ?b ?c ?d ?e ?s] =>
      unfold resolveAndExchange in E
  | context [exchange ?a ?b ?c ?d ?s] => unfold exchange in E
  | context [settleSuccess ?a ?b ?c ?d ?s] => unfold settleSuccess in E
  | context [settleFailure ?a ?b ?c ?s] => unfold settleFailure in E
  | context [axiosPost ?a ?b ?s] => unfold axiosPost in E
  | context [findOne ?a ?b ?c ?s] => unfold findOne in E
  | context [save ?a ?s] => unfold save in E
  end.

Ltac decide_in E b :=
  let v := eval lazy in b in
  match v with
  | true => change b with true in E
  | false => change b with false in E
  end.

Ltac branch_in E :=
  match type of E with
  | context [isEmptyMessage ?m ?a] => destruct (isEmptyMessage m a) eqn:?
  | context [String.eqb ?i "default"] => destruct (String.eqb i "default") eqn:?
  | context [List.find ?p ?l] => destruct (List.find p l) as [[]|] eqn:?
  | context [Nat.eqb (length ((?l ++ [?a]) ++ [?b])) 2] =>
      first [ decide_in E (Nat.eqb (length ((l ++ [a]) ++ [b])) 2)
            | rewrite (length_two_more l a b) in E;
              destruct (Nat.eqb (length l) 0) eqn:? ]
  | context [String.eqb ?t placeholder_title] =>
      first [ decide_in E (String.eqb t placeholder_title)
            | destruct (String.eqb t placeholder_title) eqn:? ]
  | context [match ?m with Some _ => _ | None => _ end] => is_var m; destruct m
  | context [if ?b then _ else _] => is_var b; destruct b
  | context [match ?o with Completed _ => _ | Failed _ => _ end] =>
      is_var o; destruct o as [[[?|] ? ?]|?]
  | context [if ?f ?x then _ else _] => is_var f; destruct (f x) eqn:?
  | context [match ?f ?x with Completed _ => _ | Failed _ => _ end] =>
      is_var f; destruct (f x) as [[[?|] ? ?]|?] eqn:?
  end.

Ltac crunch E := repeat (plumb E; first [open_in E | branch_in E]); plumb E.

(** ** The outer catch *)

(** Whatever happens inside, the handler returns: an exception that
    reaches the outer catch becomes an error event. *)
Lemma chat_message_never_throws (env : Env) (u : User)
    (data : option ChatMessageData) (s : State) :
  fst (chat_message env u data s) = inr tt.
Proof.
  unfold chat_message, try_catch.
  match goal with |- context [match ?m s with _ => _ end] => destruct (m s) as [[e|[]] s'] end;
    reflexivity.
Qed.

(** ** One terminal event per exchange (claim C1) *)






(** ** Conversation resolution (claim C5) *)

Lemma find_none_of_forall {A} (p : A → bool) (l : list A) :
  (∀ x, x ∈ l → p x = false) → List.find p l = None.
Proof.
  induction l as [|a l IH]; [done|]. intros H. simpl.
  rewrite (H a) by left. apply IH. intros x Hx. apply H. by right.
Qed.

Lemma matches_false (chatId uid : string) (c : Chat) :
  (_id c = chatId → userId c ≠ uid) → matches chatId uid c = false.
Proof.
  intros H. unfold matches.
  destruct (String.eqb_spec (_id c) chatId) as [Hid|]; [|done].
  destruct (String.eqb_spec (userId c) uid) as [Hu|]; [|done].
  by destruct (H Hid).
Qed.

(** C5, as the claim words it, fails: a chat id that is not the sentinel
    and names no stored chat is not always answered with "Chat not found".
    An id that does not cast to an ObjectId makes the lookup itself reject,
    and the handler answers "Invalid chat ID". *)
Lemma C5_malformed_id_is_not_reported_missing :
  ¬ (∀ env u d w,
       validMessage d = true →
       d_chatId d ≠ "default" →
       (∀ c, c ∈ store w → _id c = d_chatId d → userId c ≠ u_id u) →
       emitted (snd (on_chat_message env u (Some d) w)) =
         [ev_error "Chat not found" None]).
Proof.
  intros H.
  specialize (H (Fixtures.healthy (fun _ => Fixtures.reply "Hi!" 30)) Fixtures.alice
                (Fixtures.msgData "not-an-id" "Hello") Fixtures.bobsWorld
                eq_refl ltac:(discriminate)).
  assert (Hno : ∀ c, c ∈ store Fixtures.bobsWorld →
                     _id c = d_chatId (Fixtures.msgData "not-an-id" "Hello") →
                     userId c ≠ u_id Fixtures.alice).
  { intros c Hc Hid. apply list_elem_of_singleton in Hc. subst c. discriminate. }
  specialize (H Hno). vm_compute in H. discriminate.
Qed.

(** C5 (amended): the "default" chat id never causes a lookup, and the
    first thing the handler does is to save a chat it has just constructed.
    Any other chat id is looked up with the pair (chat id, user id).  When
    the id casts to an ObjectId and no stored chat has both that id and
    that owner, whether no chat has the id or the chat with the id belongs
    to someone else, the handler emits "Chat not found" and stops, the
    world unchanged.  When the id does not cast to an ObjectId the handler
    emits "Invalid chat ID" and stops, the world unchanged.  When a stored
    chat has the id and the owner, the handler emits neither of the two and
    goes on to call the completion service: ownership is not checked
    again. *)
Theorem C5_conversation_resolution (env : Env) (u : User) (d : ChatMessageData)
    (w : World) :
  validMessage d = true →
  let effs := snd (on_chat_message env u (Some d) w) in
  (d_chatId d = "default" →
   List.filter is_lookup effs = [] ∧
   head effs =
     Some (eff_save (newId env (nextId w))
             (validates env (newChat (newId env (nextId w)) (u_id u) (clock w))
              && writes env (nwrites w))))
  ∧
  (d_chatId d ≠ "default" →
   head effs = Some (eff_findOne (d_chatId d) (u_id u)) ∧
   (castable env (d_chatId d) = true →
    (∀ c, c ∈ store w → _id c = d_chatId d → userId c ≠ u_id u) →
    on_chat_message env u (Some d) w =
      (w, [eff_findOne (d_chatId d) (u_id u);
           eff_emit (ev_error "Chat not found" None)])) ∧
   (castable env (d_chatId d) = false →
    on_chat_message env u (Some d) w =
      (w, [eff_findOne (d_chatId d) (u_id u);
           eff_emit (ev_error "Invalid chat ID" None)])) ∧
   (castable env (d_chatId d) = true →
    (∃ c, c ∈ store w ∧ _id c = d_chatId d ∧ userId c = u_id u) →
    post_count effs = 1 ∧
    (ev_error "Chat not found" None ∉ emitted effs) ∧
    (ev_error "Invalid chat ID" None ∉ emitted effs))).
Proof.
  intros Hv.
  destruct env as [cast ids val wr resp verr], w as [st clk nid nw], d as [cid msg atts].
  unfold validMessage in Hv. apply negb_true_iff in Hv.
  unfold on_chat_message. cbv zeta.
  remember (chat_message _ u _ _) as r eqn:E.
  cbn [d_chatId castable newId validates writes store clock nextId nwrites] in *.
  cbn [d_message d_attachments] in Hv.
  unfold chat_message in E. plumb E. rewrite Hv in E.
  unfold resolveAndExchange in E.
  destruct (String.eqb_spec cid "default") as [->|Hne].
  - split; [intros _|done]. unfold newChat.
    crunch E; subst r; cbn [snd fst world trace]; split; reflexivity.
  - split; [done|intros _]. split; [|split; [|split]].
    + crunch E; subst r; reflexivity.
    + intros Hc Hno. unfold findOne in E. plumb E. rewrite Hc in E.
      rewrite find_none_of_forall in E
        by (intros c Hin; apply matches_false; auto).
      plumb E. by subst r.
    + intros Hc. unfold findOne in E. plumb E. rewrite Hc in E.
      plumb E. by subst r.
    + intros Hc (c & Hin & Hid & Hu). unfold findOne in E. plumb E. rewrite Hc in E.
      destruct (List.find (matches cid (u_id u)) st) as [c1|] eqn:Hf.
      2:{ exfalso. apply list_elem_of_In in Hin.
          pose proof (find_none _ _ Hf c Hin) as Hm. unfold matches in Hm.
          rewrite Hid, Hu, !String.eqb_refl in Hm. discriminate. }
      crunch E; subst r; cbn [snd fst world trace].
      all: split; [reflexivity|].
      all: cbv [rev app emitted omap list_omap]; rewrite !not_elem_of_cons;
           split; split_and!; by (discriminate || apply not_elem_of_nil).
Qed.

Lemma C5_witness :
  validMessage (Fixtures.msgData "65c0000000000000000000b0" "Hello Bob") = true ∧
  d_chatId (Fixtures.msgData "65c0000000000000000000b0" "Hello Bob") ≠ "default" ∧
  castable (Fixtures.healthy (fun _ => Fixtures.reply "Hi!" 30))
    "65c0000000000000000000b0" = true ∧
  on_chat_message (Fixtures.healthy (fun _ => Fixtures.reply "Hi!" 30)) Fixtures.alice
    (Some (Fixtures.msgData "65c0000000000000000000b0" "Hello Bob"))
    Fixtures.bobsWorld =
  (Fixtures.bobsWorld,
   [eff_findOne "65c0000000000000000000b0" (u_id Fixtures.alice);
    eff_emit (ev_error "Chat not found" None)]).
Proof.
  pose proof (C5_conversation_resolution
                (Fixtures.healthy (fun _ => Fixtures.reply "Hi!" 30)) Fixtures.alice
                (Fixtures.msgData "65c0000000000000000000b0" "Hello Bob")
                Fixtures.bobsWorld eq_refl) as H.
  destruct H as [_ H].
  assert (Hne : d_chatId (Fixtures.msgData "65c0000000000000000000b0" "Hello Bob")
                ≠ "default") by discriminate.
  destruct (H Hne) as (_ & H2 & _).
  split; [reflexivity|]. split; [exact Hne|]. split; [reflexivity|].
  apply H2; [reflexivity|].
  intros c Hc Hid. apply list_elem_of_singleton in Hc. subst c. discriminate.
Defined.



(** ** The upstream failure path (claim C3) *)

Ltac eval_last_save :=
  match goal with
  | |- context [last_save_ok ?l] =>
      let v := eval lazy in (last_save_ok l) in
      change (last_save_ok l) with v
  end; cbv iota.

(** C3, as the claim words it, fails: persistence and emission do not
    always complete.  Here the upstream call is refused and the write of the
    apology entry fails: the store is left as it was and the client gets an
    error event, no terminal response. *)
Lemma C3_failed_save_no_terminal_event :
  let run := chat_message
               (Fixtures.failingFrom 0 (fun _ => Failed (Transport "connect ECONNREFUSED")))
               Fixtures.bob (Fixtures.say "65c0000000000000000000b0" "Any news?")
               (entry Fixtures.bobsWorld) in
  fst run = inr tt ∧
  store (world (snd run)) = store Fixtures.bobsWorld ∧
  terminal_count (rev (trace (snd run))) = 0 ∧
  last (emitted (rev (trace (snd run)))) =
    Some (ev_error "Failed to process message" (Some "write failed")).
Proof. vm_compute. done. Qed.

(** C3 (amended): when the upstream call fails, timeout included, the
    handler itself does not throw.  It appends an entry with the apology
    text whose metadata, as built and as emitted, marks an error of kind
    "ai_service_error", sets the entry count to the list length and
    refreshes last-activity, and does not add to the token total (the
    stored total is the recomputed sum, to which the two new entries
    contribute nothing).  When the save succeeds the conversation is stored
    and the terminal response, in the shape of a success, carries the
    warning; when the save fails nothing of the exchange is stored and an
    error event is emitted in place of the terminal response. *)
Theorem C3_upstream_failure (env : Env) (u : User) (d : ChatMessageData)
    (w : World) (c0 : Chat) (r : FailureReason) :
  validMessage d = true →
  resolvedChat env u (d_chatId d) w = Some c0 →
  (∀ rq, respond env rq = Failed r) →
  let run := chat_message env u (Some d) (entry w) in
  let effs := rev (trace (snd run)) in
  let w' := world (snd run) in
  fst run = inr tt ∧
  if last_save_ok effs then
    ∃ c' um em,
      r_role um = user ∧
      r_content um = userContent (d_message d) (default [] (d_attachments d)) ∧
      r_role em = assistant ∧ r_content em = apology ∧
      r_metadata em = Some {| rm_model := None; rm_usage := None;
                              rm_error := Some true;
                              rm_errorType := Some "ai_service_error" |} ∧
      md_error (metadata (castMessage em)) = Some "true" ∧
      store w' = upsert c' (resolvedStore env u (d_chatId d) w) ∧
      _id c' = _id c0 ∧ title c' = title c0 ∧
      messages c' = messages c0 ++ [castMessage um; castMessage em] ∧
      messageCount (statistics c') = length (messages c') ∧
      totalTokens (statistics c') = sumTokens (messages c0) ∧
      clock w ≤ lastActivity (statistics c') ∧
      last (emitted effs) =
        Some (ev_ai_response (_id c0) em (summaryOf c')
                (Some "AI service temporarily unavailable"))
  else
    store w' = resolvedStore env u (d_chatId d) w ∧
    terminal_count effs = 0 ∧
    ∃ details,
      last (emitted effs) = Some (ev_error "Failed to process message" details).
Proof.
  intros Hv Hr Hresp.
  destruct env as [cast ids val wr resp verr], w as [st clk nid nw], d as [cid msg atts].
  unfold validMessage in Hv. apply negb_true_iff in Hv.
  cbv zeta.
  remember (chat_message _ u _ _) as res eqn:E.
  unfold resolvedChat, resolvedStore, newChat in *.
  cbn [d_chatId d_message d_attachments castable newId validates writes respond validationError
       store clock nextId nwrites] in *.
  unfold chat_message in E. plumb E. rewrite Hv in E.
  unfold resolveAndExchange in E.
  destruct (String.eqb cid "default") eqn:Hcid.
  - plumb E. unfold save in E. plumb E.
    destruct (val _) eqn:Hval; [|done]. destruct (wr nw) eqn:Hwr; [|done].
    injection Hr as <-.
    plumb E. unfold exchange in E. plumb E. unfold axiosPost in E. plumb E.
    rewrite Hresp in E. plumb E.
    crunch E; subst res; cbn [snd fst world trace]; (split; [reflexivity|]).
    all: eval_last_save.
    all: try (eexists _, (Build_RawMessage _ _ _ _ _), (Build_RawMessage _ _ _ _ _);
              split_and!; try reflexivity;
              cbn [messages statistics totalTokens lastActivity];
              rewrite ?sumTokens_cast; try done; try lia).
    all: split_and!; try reflexivity; eexists; reflexivity.
  - destruct (cast cid) eqn:Hcast; [|done].
    unfold findOne in E. plumb E. rewrite Hcast in E. plumb E. rewrite Hr in E.
    destruct c0 as [id0 uid0 title0 set0 msgs0 stats0].
    plumb E. unfold exchange in E. plumb E. unfold axiosPost in E. plumb E.
    rewrite Hresp in E. plumb E.
    crunch E; subst res; cbn [snd fst world trace]; (split; [reflexivity|]).
    all: eval_last_save.
    all: try (eexists _, (Build_RawMessage _ _ _ _ _), (Build_RawMessage _ _ _ _ _);
              split_and!; try reflexivity;
              cbn [messages statistics totalTokens lastActivity];
              rewrite ?sumTokens_cast, <- ?app_assoc; try done; try lia).
    all: split_and!; try reflexivity; eexists; reflexivity.
Qed.

Lemma C3_witness :
  validMessage (Fixtures.msgData "65c0000000000000000000b0" "Any news?") = true ∧
  resolvedChat (Fixtures.healthy (fun _ => Failed TimedOut)) Fixtures.bob
    "65c0000000000000000000b0" Fixtures.bobsWorld = Some Fixtures.bobsChat ∧
  (∀ rq, respond (Fixtures.healthy (fun _ => Failed TimedOut)) rq = Failed TimedOut) ∧
  fst (chat_message (Fixtures.healthy (fun _ => Failed TimedOut)) Fixtures.bob
         (Some (Fixtures.msgData "65c0000000000000000000b0" "Any news?"))
         (entry Fixtures.bobsWorld)) = inr tt.
Proof.
  pose proof (C3_upstream_failure (Fixtures.healthy (fun _ => Failed TimedOut))
                Fixtures.bob (Fixtures.msgData "65c0000000000000000000b0" "Any news?")
                Fixtures.bobsWorld Fixtures.bobsChat TimedOut
                eq_refl eq_refl (fun _ => eq_refl)) as H.
  destruct H as [H _].
  split; [reflexivity|]. split; [reflexivity|]. split; [reflexivity|].
  exact H.
Defined.


(** ** The title (claim C4) *)






(** A first message of 60 characters: the first 47 and the ellipsis. *)
Example title_of_60_characters :
  String.length "Please summarise the attached quarterly report, in brief pls" = 60 ∧
  titleFor (Js.trim "  Please summarise the attached quarterly report, in brief pls ")
  = "Please summarise the attached quarterly report," +:+ "...".
Proof. split; reflexivity. Qed.

(** A first message that carries attachments and an empty text: the title
    computed from the text is empty, chatSchema requires a title, both
    saves reject and the exchange ends with the error event. *)
Example first_message_without_text :
  let run := on_chat_message (Fixtures.healthy (fun _ => Fixtures.reply "Noted." 25))
               Fixtures.alice
               (Some {| d_chatId := "default"; d_message := Some "";
                        d_attachments :=
                          Some [Fixtures.mkAttachment "report.pdf" None] |})
               Fixtures.emptyWorld in
  terminal_count (snd run) = 0 ∧
  save_outcomes (snd run) = [true; false; false] ∧
  last (emitted (snd run)) =
    Some (ev_error "Failed to process message"
            (Some "Chat validation failed: title: Chat title is required")).
Proof. vm_compute. done. Qed.


(** ** Statistics of a settled exchange (claim C2) *)

(** X7: what a success-shaped terminal event reports, and what is stored:
    the event carries the id of the resolved chat, the usage that the
    completion service reported, and the summary of the stored chat, which
    has two entries more than before, an entry count equal to the length of
    its entry list and, as token total, the sum over the entries that were
    there before the exchange. *)
Theorem success_statistics (env : Env) (u : User) (d : ChatMessageData) (w : World)
    (c0 : Chat) (data : AiData) :
  validMessage d = true →
  resolvedChat env u (d_chatId d) w = Some c0 →
  (∀ rq, respond env rq = Completed data) →
  let run := on_chat_message env u (Some d) w in
  ∀ id msg sum,
    last (emitted (snd run)) = Some (ev_ai_response id msg sum None) →
    ∃ c', store (fst run) = upsert c' (resolvedStore env u (d_chatId d) w) ∧
          summaryOf c' = sum ∧ id = _id c0 ∧
          (rm_usage <$> r_metadata msg) = Some (d_usage data) ∧
          length (messages c') = length (messages c0) + 2 ∧
          messageCount (statistics c') = length (messages c') ∧
          totalTokens (statistics c') = sumTokens (messages c0) ∧
          clock w ≤ lastActivity (statistics c').
Proof.
  intros Hv Hr Hresp.
  destruct env as [cast ids val wr resp verr], w as [st clk nid nw], d as [cid msg atts].
  unfold validMessage in Hv. apply negb_true_iff in Hv.
  unfold on_chat_message. cbv zeta.
  remember (chat_message _ u _ _) as res eqn:E.
  unfold resolvedChat, resolvedStore, newChat in *.
  cbn [d_chatId d_message d_attachments castable newId validates writes respond validationError
       store clock nextId nwrites] in *.
  unfold chat_message in E. plumb E. rewrite Hv in E.
  unfold resolveAndExchange in E.
  destruct data as [choice dm du].
  destruct (String.eqb cid "default") eqn:Hcid.
  - plumb E. unfold save in E. plumb E.
    destruct (val _) eqn:Hval; [|done]. destruct (wr nw) eqn:Hwr; [|done].
    injection Hr as <-.
    plumb E. unfold exchange in E. plumb E. unfold axiosPost in E. plumb E.
    rewrite Hresp in E.
    crunch E; subst res; cbn [snd fst world trace]; intros id rmsg sum Hlast;
      try discriminate.
    all: simpl in Hlast; try discriminate; injection Hlast as <- <- <-.
    all: eexists; split_and!; try reflexivity;
      cbn [messages statistics totalTokens lastActivity];
      rewrite ?sumTokens_cast; try done; try lia.
  - destruct (cast cid) eqn:Hcast; [|done].
    unfold findOne in E. plumb E. rewrite Hcast in E. plumb E. rewrite Hr in E.
    destruct c0 as [id0 uid0 title0 set0 msgs0 stats0].
    plumb E. unfold exchange in E. plumb E. unfold axiosPost in E. plumb E.
    rewrite Hresp in E.
    crunch E; subst res; cbn [snd fst world trace]; intros id rmsg sum Hlast;
      try discriminate.
    all: simpl in Hlast; try discriminate; injection Hlast as <- <- <-.
    all: eexists; split_and!; try reflexivity;
      cbn [messages statistics totalTokens lastActivity];
      rewrite ?sumTokens_cast, ?length_app; try done; simpl; try lia.
Qed.

(** C2: on a new conversation, first message "Hello", the completion
    service answers and reports 42 tokens in total.  The stored entry count
    is the length of the entry list and last-activity is refreshed, but the
    stored token total and the total in the terminal event are 0: the
    pre-save hook recomputes the total from [metadata.tokens.total], which
    the handler never writes (it writes [metadata.usage]). *)
Theorem C2_token_total_lost :
  let run := on_chat_message (Fixtures.healthy (fun _ => Fixtures.reply "Hi there!" 42))
               Fixtures.alice (Fixtures.say "default" "Hello") Fixtures.emptyWorld in
  ∃ c msg sum,
    store (fst run) = [c] ∧
    last (emitted (snd run)) = Some (ev_ai_response (_id c) msg sum None) ∧
    ((r_metadata msg ≫= rm_usage) ≫= total_tokens) = Some 42 ∧
    map role (messages c) = [user; assistant] ∧
    messageCount (statistics c) = length (messages c) ∧
    clock Fixtures.emptyWorld ≤ lastActivity (statistics c) ∧
    totalTokens (statistics c) = 0 ∧
    sum = summaryOf c ∧
    s_totalTokens sum = 0.
Proof.
  intros run. vm_compute in run. subst run.
  eexists _, _, _. split_and!; try reflexivity.
  cbn [clock Fixtures.emptyWorld statistics lastActivity]. lia.
Qed.

(** ** Upstream attempts (claim C9) *)

(** The failure reason reaches the log only: two runs that differ in the
    reason of the upstream failure leave the same world and emit the same
    events. *)
Lemma failure_reason_unobservable (env : Env) (u : User)
    (data : option ChatMessageData) (w : World) (r1 r2 : FailureReason) :
  let run1 := on_chat_message (withRespond env (fun _ => Failed r1)) u data w in
  let run2 := on_chat_message (withRespond env (fun _ => Failed r2)) u data w in
  fst run1 = fst run2 ∧ emitted (snd run1) = emitted (snd run2).
Proof.
  destruct env as [cast ids val wr resp verr], w as [st clk nid nw],
    data as [[cid msg atts]|]; [|split; reflexivity].
  unfold on_chat_message. cbv zeta.
  remember (chat_message (withRespond _ (fun _ => Failed r1)) u _ _) as a eqn:E1.
  remember (chat_message (withRespond _ (fun _ => Failed r2)) u _ _) as b eqn:E2.
  repeat (plumb E1; plumb E2; first [ (open_in E1; open_in E2) | branch_in E1 ]);
    plumb E1; plumb E2; subst a b; cbn [snd fst world trace];
    try discriminate; split; reflexivity.
Qed.

(** C9, as the claim words it, fails: what the client receives and what is
    stored after a timeout are what they are after a refused connection;
    no "timeout" reason is reported. *)
Lemma C9_timeout_not_distinguished :
  let t := on_chat_message (Fixtures.healthy (fun _ => Failed TimedOut))
             Fixtures.alice (Fixtures.say "default" "Hello") Fixtures.emptyWorld in
  let n := on_chat_message
             (Fixtures.healthy (fun _ => Failed (Transport "connect ECONNREFUSED")))
             Fixtures.alice (Fixtures.say "default" "Hello") Fixtures.emptyWorld in
  ¬ (fst t ≠ fst n ∨ emitted (snd t) ≠ emitted (snd n)).
Proof. vm_compute. intros [H|H]; by apply H. Qed.

(** C9 (amended): for a valid message whose conversation resolves, the
    completion service is called exactly once, with a timeout of 120000
    milliseconds; a failure of that call, whatever its reason, timeout
    included, leads to the same events and the same stored state. *)
Theorem C9_single_bounded_attempt (env : Env) (u : User) (d : ChatMessageData)
    (w : World) :
  validMessage d = true →
  is_Some (resolvedChat env u (d_chatId d) w) →
  let effs := snd (on_chat_message env u (Some d) w) in
  post_count effs = 1 ∧
  (∀ rq, In (eff_post rq) effs → rq_timeout rq = 120000%N) ∧
  (∀ r1 r2,
     let run1 := on_chat_message (withRespond env (fun _ => Failed r1)) u (Some d) w in
     let run2 := on_chat_message (withRespond env (fun _ => Failed r2)) u (Some d) w in
     fst run1 = fst run2 ∧ emitted (snd run1) = emitted (snd run2)).
Proof.
  intros Hv Hr. cbv zeta.
  match goal with
  | |- ?A ∧ ?B ∧ ?C =>
      assert (K : A ∧ B);
      [|destruct K; split_and!;
        [assumption|assumption|intros r1 r2; apply failure_reason_unobservable]]
  end.
  destruct env as [cast ids val wr resp verr], w as [st clk nid nw], d as [cid msg atts].
  unfold validMessage in Hv. apply negb_true_iff in Hv.
  unfold on_chat_message. cbv zeta.
  unfold resolvedChat, newChat in Hr.
  cbn [d_chatId d_message d_attachments castable newId validates writes
       store clock nextId nwrites] in Hr, Hv.
  remember (chat_message _ u _ _) as r eqn:E.
  crunch E; subst r; cbn [snd fst world trace]; try discriminate.
  all: try (simpl in Hr; by destruct Hr).
  all: split; [reflexivity|].
  all: intros rq Hin; simpl in Hin;
    repeat (destruct Hin as [Hin|Hin]; [try discriminate; by injection Hin as <-|]);
    by destruct Hin.
Qed.

Lemma C9_witness :
  validMessage (Fixtures.msgData "65c0000000000000000000b0" "Any news?") = true ∧
  is_Some (resolvedChat (Fixtures.healthy (fun _ => Failed TimedOut)) Fixtures.bob
             "65c0000000000000000000b0" Fixtures.bobsWorld) ∧
  post_count
    (snd (on_chat_message (Fixtures.healthy (fun _ => Failed TimedOut)) Fixtures.bob
            (Fixtures.say "65c0000000000000000000b0" "Any news?")
            Fixtures.bobsWorld)) = 1.
Proof.
  split; [reflexivity|]. split; [eexists; reflexivity|].
  apply (C9_single_bounded_attempt (Fixtures.healthy (fun _ => Failed TimedOut))
           Fixtures.bob (Fixtures.msgData "65c0000000000000000000b0" "Any news?")
           Fixtures.bobsWorld).
  - reflexivity.
  - eexists; reflexivity.
Defined.

(** ** Identity verification (claim C8) *)

Lemma no_token_rejected (a : AuthEnv) (s : Socket) (srv : Server) :
  handshakeToken (handshake s) = None ∨ handshakeToken (handshake s) = Some "" →
  authenticateSocket a s = next_error "Authentication token required" ∧
  connect a s srv = (srv, []).
Proof.
  intros H. unfold connect, authenticateSocket.
  by destruct H as [-> | ->].
Qed.

Lemma unknown_user_rejected (a : AuthEnv) (s : Socket) (srv : Server)
    (t uid : string) :
  handshakeToken (handshake s) = Some t → t ≠ "" →
  jwtVerify a t = Decoded uid → findById a uid = None →
  authenticateSocket a s = next_error "User not found" ∧
  connect a s srv = (srv, []).
Proof.
  intros Ht Hne Hj Hf. unfold connect, authenticateSocket.
  rewrite Ht. destruct t; [done|]. simpl. simpl in Hj. by rewrite Hj, Hf.
Qed.

(** The socket middleware never reads [isActive]: a token that verifies
    and names a stored user is accepted with that user, active or not;
    the HTTP middleware rejects it when the account is deactivated. *)
Lemma socket_auth_ignores_isActive (a : AuthEnv) (s : Socket) (t uid : string)
    (u : User) :
  handshakeToken (handshake s) = Some t → t ≠ "" →
  jwtVerify a t = Decoded uid → findById a uid = Some u →
  authenticateSocket a s =
    next_ok {| socketId := socketId s; handshake := handshake s;
               sock_user := Some u |}.
Proof.
  intros Ht Hne Hj Hf. unfold authenticateSocket.
  rewrite Ht. destruct t; [done|]. simpl. simpl in Hj. by rewrite Hj, Hf.
Qed.

Lemma http_auth_checks_isActive (a : AuthEnv) (h t uid : string) (u : User) :
  bearerToken (Some h) = Some t → t ≠ "" →
  jwtVerify a t = Decoded uid → findById a uid = Some u → isActive u = false →
  authenticateToken a (Some h) = http_reject 401 "Account is deactivated".
Proof.
  intros Ht Hne Hj Hf Hact. unfold authenticateToken.
  rewrite Ht. destruct t; [done|]. simpl. simpl in Hj. by rewrite Hj, Hf, Hact.
Qed.

(** C8: a socket that presents a valid token of a deactivated account is
    given that identity and entered in the registry, where the HTTP
    middleware rejects the same token with "Account is deactivated". *)
Theorem C8_deactivated_account_admitted :
  isActive Fixtures.carol = false ∧
  authenticateSocket Fixtures.accounts
    (Fixtures.socketWith "sock-9" (Some "token-carol")) =
    next_ok {| socketId := "sock-9";
               handshake := {| auth_token := Some "token-carol";
                               authorization := None |};
               sock_user := Some Fixtures.carol |} ∧
  (ses_socketId <$>
     getUserConnection (u_id Fixtures.carol)
       (fst (connect Fixtures.accounts
               (Fixtures.socketWith "sock-9" (Some "token-carol")) Fixtures.idle)))
    = Some "sock-9" ∧
  authenticateToken Fixtures.accounts (Some "Bearer token-carol") =
    http_reject 401 "Account is deactivated".
Proof.
  split_and!; reflexivity.
Qed.

(** * Further properties *)

(** ** Identity verification over HTTP and on the socket *)

Lemma findById_spec (a : AuthEnv) (uid : string) (u : User) :
  findById a uid = Some u → u ∈ users a ∧ u_id u = uid.
Proof.
  unfold findById. intros H. apply find_some in H as [Hin Heq].
  split; [by apply list_elem_of_In|by apply String.eqb_eq].
Qed.

Lemma truthy_opt_spec (o : option string) :
  Js.truthy_opt o = true ↔ ∃ t, o = Some t ∧ t ≠ "".
Proof.
  destruct o as [[|c r]|]; simpl; split; try done.
  - by intros (t & [= <-] & H).
  - intros _. by eexists.
  - by intros (t & [=] & _).
Qed.

Lemma authenticateToken_next (a : AuthEnv) (authHeader : option string) (u : User) :
  authenticateToken a authHeader = http_next u →
  ∃ t, bearerToken authHeader = Some t ∧ t ≠ "" ∧
       jwtVerify a t = Decoded (u_id u) ∧ findById a (u_id u) = Some u ∧
       u ∈ users a ∧ isActive u = true.
Proof.
  unfold authenticateToken.
  destruct (Js.truthy_opt (bearerToken authHeader)) eqn:Ht; simpl; [|done].
  apply truthy_opt_spec in Ht as (t & -> & Hne). simpl.
  destruct (jwtVerify a t) as [uid| |] eqn:Hj; try done.
  destruct (findById a uid) as [u'|] eqn:Hf; [|done].
  destruct (isActive u') eqn:Hact; simpl; [|done].
  intros [= ->]. apply findById_spec in Hf as Hs. destruct Hs as [Hin <-].
  by exists t.
Qed.

(** X11: The HTTP middleware lets a request through with user [u]
    exactly when the header carries a non-empty token that verifies to the
    id of [u], [u] is the stored user of that id, and the account is
    active. *)
Theorem http_auth_accepts_iff (a : AuthEnv) (authHeader : option string) (u : User) :
  authenticateToken a authHeader = http_next u ↔
  ∃ t, bearerToken authHeader = Some t ∧ t ≠ "" ∧
       jwtVerify a t = Decoded (u_id u) ∧ findById a (u_id u) = Some u ∧
       u ∈ users a ∧ isActive u = true.
Proof.
  split; [apply authenticateToken_next|].
  unfold authenticateToken. intros (t & -> & Hne & Hj & Hf & _ & Hact).
  destruct t; [done|]. simpl. simpl in Hj. by rewrite Hj, Hf, Hact.
Qed.

(** X12: The optional middleware attaches a user to the request
    exactly when the mandatory one lets the request through, and then the
    same user; in every other case it attaches none. *)
Theorem optionalAuth_agrees (a : AuthEnv) (authHeader : option string) :
  optionalAuth a authHeader =
    match authenticateToken a authHeader with
    | http_next u => Some u
    | http_reject _ _ => None
    end.
Proof.
  unfold optionalAuth, authenticateToken.
  destruct (Js.truthy_opt (bearerToken authHeader)); simpl; [|done].
  destruct (jwtVerify a _); try done.
  destruct (findById a _) as [u|]; [|done]. by destruct (isActive u).
Qed.

(** X13: A token that the HTTP middleware accepts is accepted in
    the auth payload of a socket handshake, with the same user. *)
Theorem http_token_opens_socket (a : AuthEnv) (authHeader : option string) (u : User)
    (s : Socket) :
  authenticateToken a authHeader = http_next u →
  auth_token (handshake s) = bearerToken authHeader →
  authenticateSocket a s =
    next_ok {| socketId := socketId s; handshake := handshake s; sock_user := Some u |}.
Proof.
  intros (t & Ht & Hne & Hj & Hf & _)%authenticateToken_next Hs.
  unfold authenticateSocket, handshakeToken. rewrite Hs, Ht.
  destruct t; [done|]. simpl. simpl in Hj. by rewrite Hj, Hf.
Qed.

Lemma http_token_opens_socket_witness :
  authenticateToken Fixtures.accounts (Some "Bearer token-alice")
    = http_next Fixtures.alice ∧
  auth_token (handshake (Fixtures.socketWith "sock-1" (Some "token-alice")))
    = bearerToken (Some "Bearer token-alice") ∧
  authenticateSocket Fixtures.accounts (Fixtures.socketWith "sock-1" (Some "token-alice")) =
    next_ok {| socketId := socketId (Fixtures.socketWith "sock-1" (Some "token-alice"));
               handshake := handshake (Fixtures.socketWith "sock-1" (Some "token-alice"));
               sock_user := Some Fixtures.alice |}.
Proof.
  pose proof (http_token_opens_socket Fixtures.accounts (Some "Bearer token-alice")
                Fixtures.alice (Fixtures.socketWith "sock-1" (Some "token-alice"))
                eq_refl eq_refl) as H.
  split; [reflexivity|]. split; [reflexivity|]. exact H.
Defined.

(** X14: The socket middleware accepts a handshake exactly when its
    token (the auth payload's, else the Authorization header without its
    first "Bearer ") is non-empty and verifies to the id of a stored user;
    the socket then carries that user and keeps its id and handshake. *)
Theorem socket_auth_accepts_iff (a : AuthEnv) (s s' : Socket) :
  authenticateSocket a s = next_ok s' ↔
  ∃ t u, handshakeToken (handshake s) = Some t ∧ t ≠ "" ∧
         jwtVerify a t = Decoded (u_id u) ∧ findById a (u_id u) = Some u ∧
         u ∈ users a ∧
         s' = {| socketId := socketId s; handshake := handshake s; sock_user := Some u |}.
Proof.
  unfold authenticateSocket. split.
  - destruct (Js.truthy_opt (handshakeToken (handshake s))) eqn:Ht; simpl; [|done].
    apply truthy_opt_spec in Ht as (t & -> & Hne). simpl.
    destruct (jwtVerify a t) as [uid| |] eqn:Hj; try done.
    destruct (findById a uid) as [u|] eqn:Hf; [|done].
    intros [= <-]. apply findById_spec in Hf as Hs. destruct Hs as [Hin <-].
    by exists t, u.
  - intros (t & u & -> & Hne & Hj & Hf & _ & ->).
    destruct t; [done|]. simpl. simpl in Hj. by rewrite Hj, Hf.
Qed.

(** ** The registry and the rooms along a run of the server *)

Lemma elem_of_inRoom (room sid : string) (r : gmap string (gset string)) :
  sid ∈ inRoom room r ↔ room ∈ roomsOf sid r.
Proof.
  unfold inRoom, roomsOf. rewrite elem_of_dom. unfold is_Some.
  setoid_rewrite map_lookup_filter_Some.
  destruct (r !! sid) as [rs|] eqn:E; simpl.
  - split; [by intros (x & [= <-] & H)|]. intros H. by exists rs.
  - split; [by intros (x & [=] & _)|]. set_solver.
Qed.

Lemma roomsOf_join (sid sid' room : string) (r : gmap string (gset string)) :
  roomsOf sid' (joinRoom sid room r) =
    if decide (sid = sid') then {[ room ]} ∪ roomsOf sid r else roomsOf sid' r.
Proof.
  unfold joinRoom, roomsOf at 1. destruct (decide (sid = sid')) as [->|Hne].
  - by rewrite lookup_insert_eq.
  - by rewrite lookup_insert_ne.
Qed.

Lemma roomsOf_leave (sid sid' room : string) (r : gmap string (gset string)) :
  roomsOf sid' (leaveRoom sid room r) =
    if decide (sid = sid') then roomsOf sid r ∖ {[ room ]} else roomsOf sid' r.
Proof.
  unfold leaveRoom, roomsOf at 1. destruct (decide (sid = sid')) as [->|Hne].
  - by rewrite lookup_insert_eq.
  - by rewrite lookup_insert_ne.
Qed.

Lemma roomsOf_drop (s : Socket) (sid' : string) (r : gmap string (gset string)) :
  roomsOf sid' (dropRooms s r) =
    if decide (socketId s = sid') then ∅ else roomsOf sid' r.
Proof.
  unfold dropRooms, roomsOf at 1. destruct (decide (socketId s = sid')) as [<-|Hne].
  - by rewrite lookup_delete_eq.
  - by rewrite lookup_delete_ne.
Qed.

Lemma chatRoom_not_userRoom (c : option string) (uid : string) :
  chatRoom c ≠ userRoom uid.
Proof. unfold chatRoom, userRoom. rewrite !append_cons. discriminate. Qed.

Lemma chatRoom_inj (c : string) : chatRoom (Some c) = chatRoom None → c = "undefined".
Proof.
  unfold chatRoom. simpl. rewrite !append_cons, !append_nil_l.
  intros H. by injection H.
Qed.

Lemma socketName_inj (n m : nat) : socketName n = socketName m → n = m.
Proof.
  unfold socketName. rewrite !append_cons, !append_nil_l.
  intros H. injection H as H. by apply pretty_nat_inj in H.
Qed.

Lemma authenticateSocket_ok (a : AuthEnv) (s s' : Socket) :
  authenticateSocket a s = next_ok s' →
  ∃ u, s' = {| socketId := socketId s; handshake := handshake s; sock_user := Some u |} ∧
       u ∈ users a.
Proof.
  unfold authenticateSocket.
  destruct (negb _); [done|].
  destruct (jwtVerify a _) as [uid| |]; try done.
  destruct (findById a uid) as [u|] eqn:Hf; [|done].
  intros [= <-]. exists u. split; [done|].
  unfold findById in Hf. apply find_some in Hf as [Hin _]. by apply list_elem_of_In.
Qed.

Lemma connect_registry (a : AuthEnv) (s : Socket) (srv : Server) (u : User) :
  authenticateSocket a s =
    next_ok {| socketId := socketId s; handshake := handshake s; sock_user := Some u |} →
  activeConnections (fst (connect a s srv)) =
    <[ u_id u := {| ses_socketId := socketId s; ses_user := u;
                    ses_connectedAt := srv_clock srv |} ]> (activeConnections srv).
Proof. intros H. unfold connect. rewrite H. reflexivity. Qed.

(** X15: getActiveConnectionsCount counts users, not sockets: a
    connection of a user who already has an entry leaves the count as it
    is, one of a user without an entry adds one; when that socket then
    disconnects, the count is one less than before the connection in the
    first case and the same as before in the second. *)
Theorem registry_counts_users (a : AuthEnv) (s : Socket) (srv : Server) (u : User) :
  authenticateSocket a s =
    next_ok {| socketId := socketId s; handshake := handshake s; sock_user := Some u |} →
  getActiveConnectionsCount (fst (connect a s srv)) =
    match getUserConnection (u_id u) srv with
    | Some _ => getActiveConnectionsCount srv
    | None => S (getActiveConnectionsCount srv)
    end ∧
  getActiveConnectionsCount
    (on_disconnect {| socketId := socketId s; handshake := handshake s;
                      sock_user := Some u |} (fst (connect a s srv))) =
    match getUserConnection (u_id u) srv with
    | Some _ => getActiveConnectionsCount srv - 1
    | None => getActiveConnectionsCount srv
    end.
Proof.
  intros Ha. unfold getActiveConnectionsCount, getUserConnection.
  unfold on_disconnect. cbn [sock_user activeConnections].
  rewrite (connect_registry a s srv u Ha).
  rewrite delete_insert_eq, map_size_delete, map_size_insert.
  destruct (activeConnections srv !! u_id u) as [ses|] eqn:E; simpl; split; lia.
Qed.

Lemma registry_counts_users_witness :
  authenticateSocket Fixtures.accounts (Fixtures.socketWith "sock-1" (Some "token-alice")) =
    next_ok {| socketId := socketId (Fixtures.socketWith "sock-1" (Some "token-alice"));
               handshake := handshake (Fixtures.socketWith "sock-1" (Some "token-alice"));
               sock_user := Some Fixtures.alice |} ∧
  getActiveConnectionsCount
    (fst (connect Fixtures.accounts (Fixtures.socketWith "sock-1" (Some "token-alice"))
            Fixtures.idle)) =
    match getUserConnection (u_id Fixtures.alice) Fixtures.idle with
    | Some _ => getActiveConnectionsCount Fixtures.idle
    | None => S (getActiveConnectionsCount Fixtures.idle)
    end.
Proof.
  pose proof (registry_counts_users Fixtures.accounts
                (Fixtures.socketWith "sock-1" (Some "token-alice")) Fixtures.idle
                Fixtures.alice eq_refl) as H.
  destruct H as [H _]. split; [reflexivity|]. exact H.
Defined.

Lemma hub_step_ok (a : AuthEnv) (op : HubOp) (h : Hub) :
  live_ok a h → registry_ok h →
  live_ok a (fst (hub_step a op h)) ∧ registry_ok (fst (hub_step a op h)).
Proof.
  intros HL HR. destruct op as [hs|sid|sid w]; simpl.
  - (* connect *)
    destruct (authenticateSocket a _) as [msg|s'] eqn:Ha; simpl.
    + split.
      * intros sid s Hs. destruct (HL sid s Hs) as (? & (n & ? & ?) & ?).
        split_and!; try done. exists n. split; [simpl; lia|done].
      * done.
    + apply authenticateSocket_ok in Ha as Hu. destruct Hu as (u & -> & Hin).
      cbn [socketId handshake sock_user] in *.
      split.
      * intros sid s. cbn [hub_live hub_next hub_rooms].
        unfold joinUserRoom. cbn [sock_user socketId].
        destruct (decide (socketName (hub_next h) = sid)) as [<-|Hne].
        -- rewrite lookup_insert_eq. intros [= <-]. cbn [socketId sock_user].
           split_and!; [done|exists (hub_next h); split; [lia|done]|].
           exists u. split_and!; try done.
           rewrite roomsOf_join. rewrite decide_True by done.
           apply elem_of_union. left. by apply elem_of_singleton.
        -- rewrite lookup_insert_ne by done. intros Hs.
           destruct (HL sid s Hs) as (? & (n & ? & ?) & u' & ? & ? & ?).
           split_and!; [done|exists n; split; [lia|done]|].
           exists u'. split_and!; try done.
           rewrite roomsOf_join. by rewrite decide_False.
      * intros uid ses. cbn [hub_server hub_live].
        rewrite (connect_registry a _ (hub_server h) u Ha). cbn [socketId].
        destruct (decide (u_id u = uid)) as [<-|Hne].
        -- rewrite lookup_insert_eq. intros [= <-]. cbn [ses_socketId ses_user].
           eexists. rewrite lookup_insert_eq. done.
        -- rewrite lookup_insert_ne by done. intros Hses.
           destruct (HR uid ses Hses) as (s0 & Hs0 & ? & ?).
           exists s0. split_and!; try done.
           rewrite lookup_insert_ne; [done|].
           destruct (HL _ _ Hs0) as (_ & (n & Hn & ->) & _).
           intros E%socketName_inj. lia.
  - (* disconnect *)
    destruct (hub_live h !! sid) as [s|] eqn:Hs; simpl; [|done].
    destruct (HL sid s Hs) as (Hid & _ & u & Hu & _).
    split.
    + intros sid' s'. cbn [hub_live hub_rooms hub_next]. rewrite lookup_delete_Some.
      intros [Hne Hs'].
      destruct (HL sid' s' Hs') as (? & ? & u' & ? & ? & ?).
      split_and!; try done. exists u'. split_and!; try done.
      rewrite roomsOf_drop. rewrite decide_False; [done|congruence].
    + intros uid ses. cbn [hub_server hub_live]. unfold on_disconnect. rewrite Hu.
      cbn [activeConnections]. rewrite lookup_delete_Some. intros [Hne Hses].
      destruct (HR uid ses Hses) as (s0 & Hs0 & Hu0 & Huid).
      exists s0. split_and!; try done.
      rewrite lookup_delete_ne; [done|].
      intros ->. rewrite Hs in Hs0. injection Hs0 as <-.
      rewrite Hu in Hu0. injection Hu0 as ->. done.
  - (* an event from a connected socket *)
    destruct (hub_live h !! sid) as [s|] eqn:Hs; simpl; [|done].
    split; [|done].
    intros sid' s' Hs'. cbn [hub_live] in Hs'.
    destruct (HL sid' s' Hs') as (? & ? & u' & ? & ? & Hroom).
    split_and!; try done. exists u'. split_and!; try done.
    cbn [hub_rooms]. unfold on_wire.
    repeat destruct (String.eqb _ _); cbn [fst]; try done.
    + unfold on_join_chat. rewrite roomsOf_join. destruct (decide _) as [E|]; [|done].
      rewrite E. apply elem_of_union. by right.
    + unfold on_leave_chat. rewrite roomsOf_leave. destruct (decide _) as [E|]; [|done].
      rewrite E. apply elem_of_difference. split; [done|].
      intros E'%elem_of_singleton. symmetry in E'. by apply chatRoom_not_userRoom in E'.
Qed.

Lemma hub_run_ok (a : AuthEnv) (ops : list HubOp) (h : Hub) :
  live_ok a h → registry_ok h →
  live_ok a (fst (hub_run a ops h)) ∧ registry_ok (fst (hub_run a ops h)).
Proof.
  revert h. induction ops as [|op ops IH]; intros h HL HR; [done|].
  simpl. destruct (hub_step_ok a op h HL HR) as [HL' HR']. by apply IH.
Qed.

(** X16: Along every run of the server (connections,
    disconnections, events, from the empty state), an entry that
    getUserConnection returns is filed under the id of its own user, who is
    a stored user, and names a socket that is connected, carries that user
    and is in the room that broadcastToUser addresses. *)
Theorem registry_entries_are_live (a : AuthEnv) (ops : list HubOp) (clk : nat)
    (uid : string) (ses : Session) :
  let h := fst (hub_run a ops (hub_start clk)) in
  getUserConnection uid (hub_server h) = Some ses →
  ∃ s, hub_live h !! ses_socketId ses = Some s ∧
       sock_user s = Some (ses_user ses) ∧
       u_id (ses_user ses) = uid ∧
       ses_user ses ∈ users a ∧
       ses_socketId ses ∈ broadcastToUser uid (hub_rooms h).
Proof.
  intros h Hses.
  destruct (hub_run_ok a ops (hub_start clk)) as [HL HR]; [done|done|].
  fold h in HL, HR.
  destruct (HR uid ses Hses) as (s & Hs & Hu & Huid).
  destruct (HL _ _ Hs) as (_ & _ & u & Hu' & Hin & Hroom).
  rewrite Hu in Hu'. injection Hu' as <-.
  exists s. split_and!; try done.
  unfold broadcastToUser. apply elem_of_inRoom. by rewrite <- Huid.
Qed.

Lemma registry_entries_are_live_witness :
  getUserConnection (u_id Fixtures.alice)
    (hub_server (fst (hub_run Fixtures.accounts [op_connect Samples.aliceHandshake]
                        (hub_start 50)))) =
    Some {| ses_socketId := "sock-0"; ses_user := Fixtures.alice;
            ses_connectedAt := 50 |} ∧
  ∃ s, hub_live (fst (hub_run Fixtures.accounts [op_connect Samples.aliceHandshake]
                        (hub_start 50))) !! "sock-0" = Some s.
Proof.
  pose proof (registry_entries_are_live Fixtures.accounts [op_connect Samples.aliceHandshake] 50
                (u_id Fixtures.alice)
                {| ses_socketId := "sock-0"; ses_user := Fixtures.alice;
                   ses_connectedAt := 50 |} eq_refl) as H.
  destruct H as (s & H & _).
  split; [reflexivity|]. exists s. exact H.
Defined.

(** ** What the client's SocketContext can reach *)

Lemma client_step (a : AuthEnv) (op : HubOp) (h : Hub) :
  clientOp op → rooms_ok (hub_rooms h) →
  snd (hub_step a op h) = [] ∧ rooms_ok (hub_rooms (fst (hub_step a op h))).
Proof.
  intros Hop HR. destruct op as [hs|sid|sid w]; simpl.
  - destruct (authenticateSocket a _) as [msg|s'] eqn:Ha; simpl; [done|].
    split; [done|]. unfold joinUserRoom.
    destruct (sock_user s') as [u|]; [|done].
    intros sid room. rewrite roomsOf_join.
    destruct (decide _); [|apply HR].
    intros [E%elem_of_singleton|H]%elem_of_union; [subst room; right; by eexists|by eapply HR].
  - destruct (hub_live h !! sid) as [s|]; simpl; [|done].
    split; [done|]. intros sid' room. rewrite roomsOf_drop.
    destruct (decide _); [by intros ?%elem_of_empty|apply HR].
  - destruct (hub_live h !! sid) as [s|]; simpl; [|done].
    destruct Hop as (c & [E|[E|[E|[E|(m & l & E)]]]]); subst w; unfold on_wire; simpl;
      split; try done.
    + intros sid' room. unfold on_join_chat. rewrite roomsOf_join. simpl.
      destruct (decide _); [|apply HR].
      intros [E%elem_of_singleton|H]%elem_of_union; [subst room; by left|by eapply HR].
    + intros sid' room. unfold on_leave_chat. rewrite roomsOf_leave. simpl.
      destruct (decide _); [|apply HR].
      intros [H _]%elem_of_difference. by eapply HR.
Qed.

Lemma client_run (a : AuthEnv) (ops : list HubOp) (h : Hub) :
  Forall clientOp ops → rooms_ok (hub_rooms h) →
  snd (hub_run a ops h) = [] ∧ rooms_ok (hub_rooms (fst (hub_run a ops h))).
Proof.
  revert h. induction ops as [|op ops IH]; intros h Hops HR; [done|].
  apply Forall_cons in Hops as [Hop Hops]. simpl.
  destruct (client_step a op h Hop HR) as [-> HR'].
  by apply IH.
Qed.

(** X17: The client's SocketContext sends a bare
    chat id with join_chat and leave_chat, where the handlers destructure
    [{ chatId }], and sends start_typing and stop_typing, for which the
    server has no listener.  So when all events come from SocketContext, no
    event is ever delivered to another socket, the only rooms joined are
    "chat_undefined" and the user rooms, and broadcastToChat reaches nobody
    for every chat id other than "undefined". *)
Theorem socket_context_reaches_no_chat_room (a : AuthEnv) (ops : list HubOp)
    (clk : nat) :
  Forall clientOp ops →
  let r := hub_run a ops (hub_start clk) in
  snd r = [] ∧
  (∀ sid room, room ∈ roomsOf sid (hub_rooms (fst r)) →
     room = "chat_undefined" ∨ ∃ uid, room = userRoom uid) ∧
  (∀ chatId, chatId ≠ "undefined" → broadcastToChat chatId (hub_rooms (fst r)) = ∅).
Proof.
  intros Hops r.
  destruct (client_run a ops (hub_start clk) Hops) as [Hd HR].
  { intros sid room. unfold roomsOf. simpl. rewrite lookup_empty. by intros ?%elem_of_empty. }
  fold r in Hd, HR. split_and!; [done|apply HR|].
  intros c Hc. apply set_eq. intros sid. split; [|by intros ?%elem_of_empty].
  unfold broadcastToChat. rewrite elem_of_inRoom. intros [E|(uid & E)]%HR.
  - by apply chatRoom_inj in E.
  - by apply chatRoom_not_userRoom in E.
Qed.

Lemma socket_context_reaches_no_chat_room_witness :
  Forall clientOp [op_connect Samples.aliceHandshake;
                   op_wire "sock-0" (joinChat "65c0000000000000000000b0")] ∧
  snd (hub_run Fixtures.accounts
         [op_connect Samples.aliceHandshake;
          op_wire "sock-0" (joinChat "65c0000000000000000000b0")] (hub_start 50)) = [].
Proof.
  assert (Hops : Forall clientOp
                   [op_connect Samples.aliceHandshake;
                    op_wire "sock-0" (joinChat "65c0000000000000000000b0")]).
  { apply Forall_cons_2; [exact I|]. apply Forall_cons_2; [|apply Forall_nil_2].
    exists "65c0000000000000000000b0". left. reflexivity. }
  pose proof (socket_context_reaches_no_chat_room Fixtures.accounts _ 50 Hops) as H.
  cbv zeta in H. destruct H as [H _].
  split; [exact Hops|]. exact H.
Defined.

(** ** Methods of the Chat model *)

Lemma lastMessage_push (m : Message) (c : Chat) :
  lastMessage (pushMessage m c) = Some m.
Proof.
  unfold lastMessage, pushMessage. cbn [messages].
  rewrite length_app. simpl.
  replace (length (messages c) + 1 - 1) with (length (messages c) + 0) by lia.
  rewrite lookup_app_r by lia.
  replace (length (messages c) + 0 - length (messages c)) with 0 by lia.
  destruct (0 <? length (messages c) + 1) eqn:E; [done|].
  apply Nat.ltb_ge in E. lia.
Qed.

(** X18: addMessage followed by save: the entry is appended with
    the given role, content, attachments and token counts, it is the last
    entry, and the pre-save hook sets the entry count to one more and the
    token total to the old sum plus the total of the new entry; the save
    stores that chat when validation and the write succeed, and otherwise
    rejects and leaves the store as it was. *)
Theorem addMessage_counts_tokens (env : Env) (s : State) (c : Chat) (b : bool)
    (role0 : Role) (content0 : string) (meta : MessageMeta) (atts : list Attachment) :
  doc s = Some {| chat := c; messages_modified := b |} →
  let r := (let* m := addMessage role0 content0 meta atts in save env >> ret m) s in
  ∃ m c1,
    role m = role0 ∧ content m = content0 ∧ attachments m = atts ∧
    tokens (metadata m) =
      default {| prompt := 0; completion := 0; total := 0 |} (mm_tokens meta) ∧
    messages c1 = messages c ++ [m] ∧
    lastMessage c1 = Some m ∧
    messageCount (statistics c1) = length (messages c) + 1 ∧
    totalTokens (statistics c1) = sumTokens (messages c) + total (tokens (metadata m)) ∧
    (validates env (pushMessage m c) = true →
     writes env (nwrites (world s)) = true →
     fst r = inr m ∧ store (world (snd r)) = upsert c1 (store (world s))) ∧
    (validates env (pushMessage m c) = false ∨ writes env (nwrites (world s)) = false →
     (∃ e, fst r = inl e) ∧ store (world (snd r)) = store (world s)).
Proof.
  intros Hd.
  destruct s as [[st clk nid nw] tr d], env as [cast ids val wr resp verr],
    c as [id0 uid0 title0 set0 msgs0 stats0].
  cbn [doc] in Hd. subst d. cbv zeta.
  assert (Hb : b || true = true) by (by destruct b).
  remember ((let* m := addMessage _ _ _ _ in save _ >> ret m) _) as r eqn:E.
  unfold addMessage, save, modifyChat in E.
  cbv beta iota zeta delta [bind ret getDoc setDoc now doc world chat messages_modified
                             store clock nextId nwrites trace] in E.
  rewrite Hb in E. plumb E.
  cbv beta iota zeta delta [pushMessage _id userId title settings messages statistics] in E.
  pose (m := {| role := role0; content := content0; attachments := atts; timestamp := clk;
                metadata :=
                  {| md_model := Js.or_else (default "" (mm_model meta)) (model set0);
                     tokens := default {| prompt := 0; completion := 0; total := 0 |}
                                       (mm_tokens meta);
                     processingTime := default 0 (mm_processingTime meta);
                     md_error := if Js.truthy_opt (mm_error meta)
                                 then mm_error meta else None |} |}).
  exists m, (preSaveHook (S clk)
               (pushMessage m {| _id := id0; userId := uid0; title := title0;
                                 settings := set0; messages := msgs0;
                                 statistics := stats0 |})).
  split_and!; try reflexivity.
  - apply lastMessage_push.
  - unfold preSaveHook, pushMessage. cbn [statistics setStatistics messageCount messages].
    rewrite length_app. reflexivity.
  - unfold preSaveHook, pushMessage. cbn [statistics setStatistics totalTokens messages].
    rewrite sumTokens_app. unfold sumTokens at 2. simpl. reflexivity.
  - intros Hv Hw. unfold pushMessage in Hv. subst m.
    cbn [world nwrites writes validates _id userId title settings messages statistics]
      in Hv, Hw.
    rewrite Hv in E. plumb E. rewrite Hw in E. plumb E. subst r. split; reflexivity.
  - intros H. unfold pushMessage in H. subst m.
    cbn [world nwrites writes validates _id userId title settings messages statistics] in H.
    destruct H as [H|H].
    + rewrite H in E. plumb E. subst r. split; [by eexists|reflexivity].
    + destruct (val _) eqn:Hv in E; plumb E.
      * rewrite H in E. plumb E. subst r. split; [by eexists|reflexivity].
      * subst r. split; [by eexists|reflexivity].
Qed.

Lemma addMessage_counts_tokens_witness :
  doc Samples.bobsSession = Some {| chat := Fixtures.bobsChat; messages_modified := false |} ∧
  ∃ m c1,
    role m = assistant ∧
    totalTokens (statistics c1) =
      sumTokens (messages Fixtures.bobsChat) + total (tokens (metadata m)).
Proof.
  pose proof (addMessage_counts_tokens Samples.env42 Samples.bobsSession Fixtures.bobsChat false
                assistant "Sunny." Samples.usage30 [] eq_refl) as H.
  cbv zeta in H. destruct H as (m & c1 & H1 & _ & _ & _ & _ & _ & _ & H2 & _).
  split; [reflexivity|]. exists m, c1. split; [exact H1|exact H2].
Defined.

Lemma length_substring0_le (n : nat) (s : string) :
  String.length (Js.substring0 n s) ≤ n.
Proof.
  unfold Js.substring0. revert s. induction n as [|n IH]; intros [|c r]; simpl; try lia.
  specialize (IH r). lia.
Qed.

Lemma substring0_all (n : nat) (s : string) :
  String.length s ≤ n → Js.substring0 n s = s.
Proof.
  unfold Js.substring0. revert s. induction n as [|n IH]; intros [|c r]; simpl; try done; try lia.
  intros H. rewrite IH; [done|lia].
Qed.

Lemma length_trimStart_le (s : string) : String.length (Js.trimStart s) ≤ String.length s.
Proof. induction s as [|c r IH]; simpl; [lia|]. destruct (Js.is_ws c); simpl; lia. Qed.

Lemma length_trimEnd_le (s : string) : String.length (Js.trimEnd s) ≤ String.length s.
Proof.
  induction s as [|c r IH]; simpl; [lia|].
  destruct (Js.trimEnd r); [destruct (Js.is_ws c)|]; simpl in *; lia.
Qed.

Lemma length_trim_le (s : string) : String.length (Js.trim s) ≤ String.length s.
Proof.
  unfold Js.trim. etrans; [apply length_trimEnd_le|apply length_trimStart_le].
Qed.

Lemma trim_ellipsis (x : string) :
  starts_ink x = true → Js.trim (x +:+ "...") = x +:+ "...".
Proof.
  intros H. unfold Js.trim. rewrite trimStart_id.
  - by rewrite trimEnd_app_ink.
  - by destruct x.
Qed.

(** X19: generateTitle on a chat with a user entry: the title
    becomes the trimmed first 50 characters of the first user entry,
    followed by "..." when the entry is longer than 50 characters; it has
    at most 53 characters, is stable under trim, and calling the method
    again changes nothing; entries and statistics are untouched. *)
Theorem generateTitle_spec (c : Chat) (m : Message) :
  List.find is_user (messages c) = Some m →
  let t := title (generateTitle c) in
  t = (if 50 <? String.length (content m)
       then Js.trim (Js.substring0 50 (content m)) +:+ "..."
       else Js.trim (content m)) ∧
  String.length t ≤ 53 ∧
  Js.trim t = t ∧
  messages (generateTitle c) = messages c ∧
  statistics (generateTitle c) = statistics c ∧
  generateTitle (generateTitle c) = generateTitle c.
Proof.
  intros Hf.
  assert (Hlen : (0 <? length (messages c)) = true).
  { destruct (messages c); [done|]. done. }
  assert (Ht : title (generateTitle c) =
               (if 50 <? String.length (content m)
                then Js.trim (Js.substring0 50 (content m)) +:+ "..."
                else Js.trim (content m))).
  { unfold generateTitle. rewrite Hlen, Hf.
    destruct (50 <? String.length (content m)) eqn:E; cbn [title setTitle].
    - rewrite trim_idemp. apply trim_ellipsis, starts_ink_trim.
    - apply Nat.ltb_ge in E. rewrite substring0_all by done. apply trim_idemp. }
  assert (Hm : messages (generateTitle c) = messages c).
  { unfold generateTitle. rewrite Hlen, Hf. by destruct (50 <? _). }
  cbv zeta. split_and!.
  - done.
  - rewrite Ht. destruct (50 <? String.length (content m)) eqn:E.
    + rewrite length_append. simpl.
      pose proof (length_trim_le (Js.substring0 50 (content m))).
      pose proof (length_substring0_le 50 (content m)). lia.
    + apply Nat.ltb_ge in E. pose proof (length_trim_le (content m)). lia.
  - rewrite Ht. destruct (50 <? String.length (content m)).
    + apply trim_ellipsis, starts_ink_trim.
    + apply trim_idemp.
  - done.
  - unfold generateTitle. rewrite Hlen, Hf. by destruct (50 <? _).
  - unfold generateTitle at 1. rewrite Hm, Hlen, Hf.
    unfold generateTitle. rewrite Hlen, Hf.
    destruct (50 <? String.length (content m)) eqn:E; cbn [title setTitle _id userId settings messages statistics].
    + reflexivity.
    + reflexivity.
Qed.

Lemma generateTitle_spec_witness :
  List.find is_user (messages Fixtures.bobsChat) =
    Some (castMessage {| r_role := user; r_content := "Will it rain?";
                         r_attachments := Some []; r_timestamp := 10;
                         r_metadata := None |}) ∧
  String.length (title (generateTitle Fixtures.bobsChat)) ≤ 53.
Proof.
  pose proof (generateTitle_spec Fixtures.bobsChat _ eq_refl) as H.
  cbv zeta in H. destruct H as (_ & H & _).
  split; [reflexivity|]. exact H.
Defined.

(** ** The chat list *)

Lemma pages_cover {A} (limit : nat) (xs : list A) (k : nat) :
  length xs ≤ k * limit →
  concat (map (fun i => take limit (drop (i * limit) xs)) (seq 0 k)) = xs.
Proof.
  revert xs. induction k as [|k IH]; intros xs H.
  - simpl in H. destruct xs; [done|simpl in H; lia].
  - rewrite <- cons_seq, <- fmap_S_seq. simpl. rewrite drop_0.
    rewrite <- (take_drop limit xs) at 2. f_equal.
    etrans; [|apply (IH (drop limit xs)); rewrite length_drop; lia].
    f_equal. rewrite <- list_fmap_compose. apply list_fmap_ext.
    intros _ i _. simpl. by rewrite drop_drop.
Qed.

Lemma ceil_div_spec (a b : nat) : 0 < b → a ≤ ceil_div a b * b ∧ ∀ p, p < ceil_div a b ↔ p * b < a.
Proof.
  intros Hb. unfold ceil_div.
  pose proof (Nat.div_mod_eq (a + (b - 1)) b) as E.
  pose proof (Nat.mod_upper_bound (a + (b - 1)) b ltac:(lia)) as U.
  split; [nia|]. intros p. split; intros H; nia.
Qed.

Lemma listed_filter (db : Collection) (uid : string) (q : ListQuery) :
  findUserChats db uid (listOptions q) =
    take (default 20 (lq_limit q))
         (drop ((default 1 (lq_page q) - 1) * default 20 (lq_limit q)) (listed db uid q)).
Proof. reflexivity. Qed.

(** X20: GET /api/chat with a positive page size, when the count
    query sees the documents that the find query sees: the pages 1 to
    totalPages, one after the other, are exactly the listed documents;
    hasNextPage holds exactly when the next page is not empty, hasPrevPage
    exactly from page 2 on; totalChats is the number of listed documents; no
    page is longer than the page size. *)
Theorem chat_list_pages (db : Collection) (count : ChatFilter → nat) (uid : string)
    (q : ListQuery) :
  0 < default 20 (lq_limit q) →
  count (totalFilter uid q) = length (listed db uid q) →
  let page p := listChats db count uid (atPage q p) in
  concat (map (fun p => fst (page p)) (seq 1 (totalPages (snd (page 1))))) =
    listed db uid q ∧
  ∀ p, 1 ≤ p →
    (hasNextPage (snd (page p)) = true ↔ fst (page (S p)) ≠ []) ∧
    (hasPrevPage (snd (page p)) = true ↔ 1 < p) ∧
    totalChats (snd (page p)) = length (listed db uid q) ∧
    length (fst (page p)) ≤ default 20 (lq_limit q).
Proof.
  intros Hl Hc page.
  set (limit := default 20 (lq_limit q)) in *.
  set (all := listed db uid q) in *.
  assert (Hpage : ∀ p, fst (page p) = take limit (drop ((p - 1) * limit) all)).
  { intros p. unfold page, listChats. cbn [fst]. by rewrite listed_filter. }
  assert (Htot : ∀ p, totalPages (snd (page p)) = ceil_div (length all) limit).
  { intros p. unfold page, listChats. cbn [snd totalPages]. unfold atPage at 1, totalFilter.
    unfold totalFilter in Hc. simpl in Hc |- *. by rewrite Hc. }
  assert (Hnext : ∀ p, hasNextPage (snd (page p)) = (p <? ceil_div (length all) limit)).
  { intros p. unfold page, listChats. cbn [snd hasNextPage]. unfold atPage at 1 2, totalFilter.
    unfold totalFilter in Hc. simpl in Hc |- *. by rewrite Hc. }
  assert (Hprev : ∀ p, hasPrevPage (snd (page p)) = (1 <? p)).
  { intros p. reflexivity. }
  assert (Hcount : ∀ p, totalChats (snd (page p)) = length all).
  { intros p. unfold page, listChats. cbn [snd totalChats]. unfold totalFilter in *.
    simpl in *. done. }
  destruct (ceil_div_spec (length all) limit Hl) as [Hcov Hlt].
  split.
  - rewrite Htot. rewrite <- (pages_cover limit all (ceil_div (length all) limit) Hcov) at 2.
    rewrite <- fmap_S_seq, <- list_fmap_compose. f_equal. apply list_fmap_ext.
    intros _ p _. unfold compose. rewrite Hpage. do 2 f_equal. lia.
  - intros p Hp. split_and!.
    + rewrite Hnext, Hpage, Nat.ltb_lt, Hlt.
      replace (S p - 1) with p by lia.
      split.
      * intros H Hnil. apply (f_equal length) in Hnil.
        rewrite length_take, length_drop in Hnil. simpl in Hnil. lia.
      * intros H. destruct (decide (p * limit < length all)) as [|Hn]; [done|].
        exfalso. apply H. rewrite drop_ge by lia. by rewrite take_nil.
    + rewrite Hprev. apply Nat.ltb_lt.
    + apply Hcount.
    + rewrite Hpage, length_take. lia.
Qed.

Lemma chat_list_pages_witness :
  0 < default 20 (lq_limit Samples.byTwo) ∧
  (fun _ : ChatFilter => 3) (totalFilter (u_id Fixtures.bob) Samples.byTwo)
    = length (listed Samples.threeChats (u_id Fixtures.bob) Samples.byTwo) ∧
  concat (map (fun p => fst (listChats Samples.threeChats (fun _ => 3) (u_id Fixtures.bob)
                               (atPage Samples.byTwo p)))
              (seq 1 (totalPages (snd (listChats Samples.threeChats (fun _ => 3)
                                         (u_id Fixtures.bob) (atPage Samples.byTwo 1)))))) =
    listed Samples.threeChats (u_id Fixtures.bob) Samples.byTwo.
Proof.
  assert (Hl : 0 < default 20 (lq_limit Samples.byTwo)) by (simpl; lia).
  pose proof (chat_list_pages Samples.threeChats (fun _ => 3) (u_id Fixtures.bob) Samples.byTwo
                Hl eq_refl) as H.
  cbv zeta in H. destruct H as [H _].
  split; [exact Hl|]. split; [reflexivity|]. exact H.
Defined.

(** ** Creating a chat and changing its settings *)



(** X26: PUT /:chatId/settings on a chat of the requester,
    when validation and the write succeed: the chat is stored with the new
    settings and they are the response; the temperature is the one given,
    zero included (the test is [!== undefined]), where model, system
    prompt and token limit are kept when the request gives them empty or
    zero; entries and statistics are untouched. *)
Theorem settings_route_stores_zero (env : Env) (u : User) (chatId : string)
    (s : SettingsInput) (w : World) (c0 : Chat) :
  castable env chatId = true →
  List.find (matches chatId (u_id u)) (store w) = Some c0 →
  validates env (setSettings (applySettings s (settings c0)) c0) = true →
  writes env (nwrites w) = true →
  let r := on_update_settings env u chatId (Some s) w in
  let c' := setSettings (applySettings s (settings c0)) c0 in
  store (rr_world r) = upsert c' (store w) ∧
  rr_response r = Some {| res_status := 200; res_body := body_settings (settings c') |} ∧
  temperature (settings c') = default (temperature (settings c0)) (si_temperature s) ∧
  (si_temperature s = Some 0%Q → truthyQ (temperature (settings c')) = false) ∧
  (maxTokens (settings c0) ≠ 0 → maxTokens (settings c') ≠ 0) ∧
  (model (settings c0) ≠ "" → model (settings c') ≠ "") ∧
  messages c' = messages c0 ∧ statistics c' = statistics c0.
Proof.
  intros Hcast Hfind Hval Hw.
  destruct env as [cast ids val wr resp verr], w as [st clk nid nw],
    c0 as [id0 uid0 title0 set0 msgs0 stats0].
  cbn [castable validates writes store nwrites settings] in *.
  unfold on_update_settings. cbv zeta. cbn [rr_world rr_response].
  remember (update_settings _ u _ _ _) as r eqn:E.
  unfold update_settings, findOne, save in E. plumb E.
  rewrite Hcast in E. plumb E. rewrite Hfind in E. plumb E.
  unfold setSettings in Hval, E. cbn [_id userId title settings messages statistics] in Hval, E.
  rewrite Hval in E. plumb E. rewrite Hw in E. plumb E. subst r.
  cbn [fst snd world store]. split_and!; try reflexivity.
  - intros Ht. unfold setSettings, applySettings.
    cbn [settings temperature]. by rewrite Ht.
  - unfold setSettings, applySettings. cbn [settings maxTokens]. intros H0.
    destruct (si_maxTokens s) as [n|]; [|done].
    destruct (n =? 0) eqn:En; [done|]. by apply Nat.eqb_neq in En.
  - unfold setSettings, applySettings. cbn [settings model]. intros H0.
    destruct (si_model s) as [[|a m]|]; simpl; done.
Qed.

Lemma settings_route_stores_zero_witness :
  castable Samples.env42 "65c0000000000000000000b0" = true ∧
  List.find (matches "65c0000000000000000000b0" (u_id Fixtures.bob))
            (store Fixtures.bobsWorld) = Some Fixtures.bobsChat ∧
  validates Samples.env42
    (setSettings (applySettings Samples.coldSettings (settings Fixtures.bobsChat))
                 Fixtures.bobsChat) = true ∧
  writes Samples.env42 (nwrites Fixtures.bobsWorld) = true ∧
  truthyQ (temperature
             (settings (setSettings
                          (applySettings Samples.coldSettings (settings Fixtures.bobsChat))
                          Fixtures.bobsChat))) = false.
Proof.
  pose proof (settings_route_stores_zero Samples.env42 Fixtures.bob "65c0000000000000000000b0"
                Samples.coldSettings Fixtures.bobsWorld Fixtures.bobsChat
                eq_refl eq_refl eq_refl eq_refl) as H.
  cbv zeta in H. destruct H as (_ & _ & _ & H & _).
  split; [reflexivity|]. split; [reflexivity|]. split; [reflexivity|].
  split; [reflexivity|]. exact (H eq_refl).
Defined.

(** ** The upload route *)

Lemma tidy_collapse (b : bool) (s : string) : tidy b (collapse_ws b s) = true.
Proof.
  revert b. induction s as [|c r IH]; intros b; simpl; [done|].
  destruct (Js.is_ws c) eqn:W.
  - destruct b; [apply IH|]. simpl. apply IH.
  - simpl. rewrite W. apply IH.
Qed.

Lemma tidy_trimStart (b : bool) (s : string) :
  tidy b s = true → tidy false (Js.trimStart s) = true.
Proof.
  revert b. induction s as [|c r IH]; intros b; simpl; [done|].
  destruct (Js.is_ws c) eqn:W.
  - intros [_ H]%andb_true_iff. by apply (IH true).
  - intros H. simpl. by rewrite W.
Qed.

Lemma tidy_trimEnd (b : bool) (s : string) :
  tidy b s = true → tidy b (Js.trimEnd s) = true.
Proof.
  revert b. induction s as [|c r IH]; intros b; simpl; [done|].
  destruct (Js.is_ws c) eqn:W.
  - intros [H1 H2]%andb_true_iff. apply IH in H2.
    destruct (Js.trimEnd r) eqn:E; [done|].
    simpl in *. rewrite W. by rewrite H1.
  - intros H. apply IH in H.
    destruct (Js.trimEnd r) eqn:E; simpl in *; by rewrite W.
Qed.

Lemma tidy_substring0 (b : bool) (n : nat) (s : string) :
  tidy b s = true → tidy b (Js.substring0 n s) = true.
Proof.
  unfold Js.substring0. revert b s.
  induction n as [|n IH]; intros b [|c r]; simpl; try done.
  destruct (Js.is_ws c).
  - intros [H1 H2]%andb_true_iff. rewrite H1. by apply IH.
  - apply IH.
Qed.

Lemma has_ink_collapse (b : bool) (s : string) :
  has_ink (collapse_ws b s) = has_ink s.
Proof.
  revert b. induction s as [|c r IH]; intros b; simpl; [done|].
  destruct (Js.is_ws c) eqn:W; simpl.
  - destruct b; simpl; by rewrite IH.
  - by rewrite W, IH.
Qed.

Lemma starts_ink_substring0_any (n : nat) (s : string) :
  starts_ink s = true → starts_ink (Js.substring0 n s) = true.
Proof. destruct n, s; done. Qed.

Lemma excerpt_tidy (text : option string) (max : nat) (e : string) :
  excerpt text max = Some e →
  String.length e ≤ max ∧ tidy false e = true ∧ starts_ink e = true.
Proof.
  unfold excerpt. destruct (negb (Js.truthy_opt text)); [done|].
  intros [= <-]. split_and!.
  - apply length_substring0_le.
  - apply tidy_substring0. unfold Js.trim.
    apply tidy_trimEnd, (tidy_trimStart false), tidy_collapse.
  - apply starts_ink_substring0_any, starts_ink_trim.
Qed.

(** X21: excerpt returns null exactly for the empty text; otherwise
    the result has at most [max] characters, its only white space is single
    space characters, never two in a row, it does not start with white
    space, and it is the empty string when the text is blank. *)
Theorem excerpt_shape (text : string) (max : nat) :
  match excerpt (Some text) max with
  | None => text = ""
  | Some e =>
      text ≠ "" ∧
      String.length e ≤ max ∧
      tidy false e = true ∧
      starts_ink e = true ∧
      (has_ink text = false → e = "")
  end.
Proof.
  destruct (excerpt (Some text) max) as [e|] eqn:E.
  - destruct (excerpt_tidy _ _ _ E) as (H1 & H2 & H3).
    unfold excerpt in E. destruct text as [|c r]; [done|].
    cbn [Js.truthy_opt Js.truthy negb] in E. injection E as E.
    split_and!; try done.
    intros H. rewrite <- E.
    match goal with
    | |- Js.substring0 _ (Js.trim ?x) = "" => assert (Js.trim x = "") as ->
    end; [|by destruct max].
    apply trim_empty_iff. exact (eq_trans (has_ink_collapse false (String c r)) H).
  - unfold excerpt in E. by destruct text.
Qed.

(** X22: An excerpt that the upload route attaches has at most 2000
    characters, no white space other than single spaces and no newline, and
    comes with the original file name; with the default file types and OCR
    switched off, only PDF and plain-text files get one. *)
Theorem uploaded_excerpt (env : UploadEnv) (f : UploadedFile) (e : string) :
  textExcerpt (uploadedAttachment env f) = Some e →
  String.length e ≤ 2000 ∧ tidy false e = true ∧ starts_ink e = true ∧
  filename (uploadedAttachment env f) = originalname f ∧
  (allowed env = default_allowed → enable_ocr env = false →
   fileFilter env (mimetype f) = true →
   mimetype f = "application/pdf" ∨ mimetype f = "text/plain").
Proof.
  unfold uploadedAttachment. cbn [textExcerpt filename]. intros H.
  assert (K : String.length e ≤ 2000 ∧ tidy false e = true ∧ starts_ink e = true).
  { unfold extractText, viaService, excerptOf in H.
    repeat match type of H with
    | (if ?b then _ else _) = _ => destruct b
    | match ?x with Some _ => _ | None => _ end = _ => destruct x
    end; try done; by apply excerpt_tidy in H. }
  destruct K as (K1 & K2 & K3). split_and!; try done.
  intros Ha Ho Hf. unfold fileFilter in Hf. rewrite Ha in Hf.
  apply bool_decide_eq_true in Hf. unfold default_allowed in Hf.
  unfold extractText in H. rewrite Ho in H.
  set_unfold in Hf. destruct Hf as [Hf|[Hf|[Hf|[Hf|[Hf|Hf]]]]]; try done;
    rewrite Hf in *; simpl in H; try discriminate; tauto.
Qed.

Lemma uploaded_excerpt_witness :
  textExcerpt (uploadedAttachment Samples.plainUploads Samples.notes) = Some "Dear all, see below." ∧
  String.length "Dear all, see below." ≤ 2000.
Proof.
  pose proof (uploaded_excerpt Samples.plainUploads Samples.notes "Dear all, see below." eq_refl) as H.
  destruct H as [H _]. split; [reflexivity|]. exact H.
Defined.

(** ** The temporary server *)

Lemma chatName_inj (n m : nat) : "chat-" +:+ pretty n = "chat-" +:+ pretty m → n = m.
Proof.
  rewrite !append_cons, !append_nil_l.
  intros H. injection H as H. by apply pretty_nat_inj in H.
Qed.

Lemma replaceFirst_ids (p : TempChat → bool) (c' : TempChat) (l : list TempChat) :
  (∀ c, p c = true → tc_id c = tc_id c') →
  map tc_id (replaceFirst p c' l) = map tc_id l.
Proof.
  intros H. induction l as [|c l IH]; simpl; [done|].
  destruct (p c) eqn:E; simpl; [by rewrite (H c E)|by rewrite IH].
Qed.

Lemma removeFirst_sub (p : TempChat → bool) (l l' : list TempChat) :
  removeFirst p l = Some l' → sublist l' l.
Proof.
  revert l'. induction l as [|c l IH]; intros l'; simpl; [done|].
  destruct (p c).
  - intros [= <-]. by apply sublist_cons.
  - destruct (removeFirst p l) as [r|]; simpl; [|done].
    intros [= <-]. apply sublist_skip. by apply IH.
Qed.

Lemma elem_of_replaceFirst (p : TempChat → bool) (c' x : TempChat) (l : list TempChat) :
  x ∈ replaceFirst p c' l → x = c' ∨ x ∈ l.
Proof.
  induction l as [|c l IH]; simpl; [by right|].
  destruct (p c).
  - intros [E|H]%elem_of_cons; [by left|right; by apply elem_of_cons; right].
  - intros [E|H]%elem_of_cons; [right; by apply elem_of_cons; left|].
    destruct (IH H) as [E|?]; [by left|right; by apply elem_of_cons; right].
Qed.

Lemma tempGet_spec (chatId uid : string) (t : Temp) (c : TempChat) :
  tempGet chatId uid t = Some c → c ∈ chats t ∧ tc_id c = chatId ∧ tc_userId c = uid.
Proof.
  unfold tempGet. intros H. apply find_some in H as [Hin H].
  unfold tempMatches in H. apply andb_true_iff in H as [H1 H2].
  split_and!; [by apply list_elem_of_In|by apply String.eqb_eq|by apply String.eqb_eq].
Qed.

Lemma tempPost_chats (fetch : TempRequest → FetchOutcome) (chatId uid : string)
    (message : option string) (t : Temp) :
  chats (snd (tempPost fetch chatId uid message t)) = chats t ∨
  ∃ c c', tempGet chatId uid t = Some c ∧ tc_id c' = tc_id c ∧
          chats (snd (tempPost fetch chatId uid message t)) =
            replaceFirst (tempMatches chatId uid) c' (chats t).
Proof.
  unfold tempPost.
  destruct (negb _ || negb _); [by left|].
  destruct (tempGet chatId uid t) as [c|] eqn:Hg; [|by left].
  right. exists c.
  destruct (fetch _) as [data| |]; [destruct (d_choice data)|..];
    eexists; (split; [done|]); (split; [|reflexivity]); reflexivity.
Qed.

Lemma currentChatId_post (fetch : TempRequest → FetchOutcome) (chatId uid : string)
    (message : option string) (t : Temp) :
  currentChatId (snd (tempPost fetch chatId uid message t)) = currentChatId t.
Proof.
  unfold tempPost.
  destruct (negb _ || negb _); [done|].
  destruct (tempGet chatId uid t) as [c|]; [|done].
  destruct (fetch _) as [data| |]; [destruct (d_choice data)|..]; reflexivity.
Qed.

Lemma temp_step_ok (op : TempOp) (t : Temp) : temp_ok t → temp_ok (temp_step op t).
Proof.
  intros [Hnd Hids]. destruct op as [uid title0|fetch chatId uid message|chatId uid]; simpl.
  - (* create *)
    split; cbn [chats currentChatId].
    + rewrite map_app. simpl. apply NoDup_app. split_and!; [done| |apply NoDup_singleton].
      intros x Hx Hx'%list_elem_of_singleton. subst x.
      apply list_elem_of_fmap in Hx as (c & Hc & Hin).
      destruct (Hids c Hin) as (k & Hk & E).
      rewrite E in Hc. apply chatName_inj in Hc. lia.
    + intros c [Hin|E%list_elem_of_singleton]%elem_of_app.
      * destruct (Hids c Hin) as (k & ? & ?). exists k. split; [lia|done].
      * subst c. exists (currentChatId t). split; [lia|done].
  - (* post *)
    split; rewrite ?currentChatId_post.
    + destruct (tempPost_chats fetch chatId uid message t) as [->|(c & c' & Hg & Hid & ->)];
        [done|].
      rewrite replaceFirst_ids; [done|].
      intros x Hx. apply tempGet_spec in Hg as (_ & Hc & _).
      unfold tempMatches in Hx. apply andb_true_iff in Hx as [Hx _].
      apply String.eqb_eq in Hx. congruence.
    + intros x Hx.
      destruct (tempPost_chats fetch chatId uid message t) as [E|(c & c' & Hg & Hid & E)];
        rewrite E in Hx; [by apply Hids|].
      apply elem_of_replaceFirst in Hx as [E'|Hx]; [|by apply Hids].
      subst x. apply tempGet_spec in Hg as (Hin & _). rewrite Hid. by apply Hids.
  - (* delete *)
    unfold tempDelete.
    destruct (removeFirst _ (chats t)) as [l|] eqn:Hr; [|done].
    apply removeFirst_sub in Hr. split; cbn [snd chats currentChatId].
    + eapply sublist_NoDup; [done|]. by apply fmap_sublist.
    + intros c Hc. apply Hids. by apply (sublist_subseteq _ _ Hr).
Qed.

Lemma temp_run_ok (ops : list TempOp) (t : Temp) : temp_ok t → temp_ok (temp_run ops t).
Proof.
  revert t. induction ops as [|op ops IH]; intros t H; [done|].
  simpl. by apply IH, temp_step_ok.
Qed.

Lemma find_app_fresh (p : TempChat → bool) (l : list TempChat) (c : TempChat) :
  (∀ x, x ∈ l → p x = false) → List.find p (l ++ [c]) = if p c then Some c else None.
Proof.
  intros H. induction l as [|x l IH]; simpl; [done|].
  rewrite (H x) by (by apply elem_of_cons; left).
  apply IH. intros y Hy. apply H. by apply elem_of_cons; right.
Qed.

Lemma find_app_old (p : TempChat → bool) (l : list TempChat) (c : TempChat) :
  p c = false → List.find p (l ++ [c]) = List.find p l.
Proof.
  intros H. induction l as [|x l IH]; simpl; [by rewrite H|].
  by destruct (p x).
Qed.

(** X23: Temporary server: after any sequence of create, post
    and delete requests, a newly created chat has an id that no stored chat
    has, has no entries, is what GET returns for that id, and leaves what
    GET returns for every other id unchanged. *)
Theorem temp_created_chat_is_found (ops : list TempOp) (clk : nat) (uid : string)
    (title0 : option string) :
  let t := temp_run ops (temp_start clk) in
  let r := tempCreate uid title0 t in
  tempGet (tc_id (fst r)) uid (snd r) = Some (fst r) ∧
  (tc_id (fst r) ∉ map tc_id (chats t)) ∧
  tc_messages (fst r) = [] ∧
  (∀ chatId uid', chatId ≠ tc_id (fst r) →
     tempGet chatId uid' (snd r) = tempGet chatId uid' t).
Proof.
  intros t r.
  assert (Hok : temp_ok t).
  { apply temp_run_ok. split; [constructor|]. simpl. by intros c ?%elem_of_nil. }
  destruct Hok as [Hnd Hids].
  assert (Hfresh : tc_id (fst r) ∉ map tc_id (chats t)).
  { intros (c & Hc & Hin)%list_elem_of_fmap.
    destruct (Hids c Hin) as (k & Hk & E). simpl in Hc. rewrite E in Hc.
    apply chatName_inj in Hc. lia. }
  split_and!; [|done|done|].
  - unfold tempGet, r, tempCreate. cbn [fst snd chats tc_id].
    rewrite find_app_fresh.
    + unfold tempMatches. cbn [tc_id tc_userId]. by rewrite !String.eqb_refl.
    + intros x Hx. unfold tempMatches. apply andb_false_iff. left.
      apply String.eqb_neq. intros E. apply Hfresh. simpl. rewrite <- E.
      by apply list_elem_of_fmap_2.
  - intros chatId uid' Hne. unfold tempGet, r, tempCreate. cbn [fst snd chats tc_id].
    apply find_app_old. unfold tempMatches. cbn [tc_id]. apply andb_false_iff. left.
    apply String.eqb_neq. intros E. apply Hne. by rewrite <- E.
Qed.

Lemma find_replaceFirst (p : TempChat → bool) (c c' : TempChat) (l : list TempChat) :
  List.find p l = Some c → p c' = true → List.find p (replaceFirst p c' l) = Some c'.
Proof.
  intros Hf Hp. induction l as [|x l IH]; simpl in *; [done|].
  destruct (p x) eqn:E; simpl; [by rewrite Hp|]. rewrite E. by apply IH.
Qed.

(** X24: Temporary server: when the completion service
    fails (no answer, a status that is not ok, an unreadable body) the route
    responds 500 "Failed to get AI response" and the chat keeps the user
    entry it has just appended, with statistics and title unchanged, so
    the entry count no longer counts the entries. *)
Theorem temp_failure_keeps_user_entry (fetch : TempRequest → FetchOutcome)
    (chatId uid m : string) (t : Temp) (c : TempChat) :
  Js.trim m ≠ "" →
  tempGet chatId uid t = Some c →
  (∀ rq, fetchFailed (fetch rq) = true) →
  let r := tempPost fetch chatId uid (Some m) t in
  fst r = {| res_status := 500; res_body := body_error "Failed to get AI response" |} ∧
  ∃ c', tempGet chatId uid (snd r) = Some c' ∧
        tc_messages c' =
          tc_messages c ++ [{| r_role := user; r_content := Js.trim m;
                               r_attachments := None; r_timestamp := tmp_clock t;
                               r_metadata := None |}] ∧
        tc_statistics c' = tc_statistics c ∧
        tc_title c' = tc_title c.
Proof.
  intros Hm Hg Hfail r. unfold r, tempPost.
  assert (Js.truthy_opt (Some m) = true) as ->.
  { destruct m; [by destruct Hm|done]. }
  assert (Js.truthy (Js.trim (default "" (Some m))) = true) as ->.
  { simpl. by destruct (Js.trim m). }
  cbn [negb orb]. rewrite Hg.
  assert (Hp : ∀ c', tc_id c' = tc_id c → tc_userId c' = tc_userId c →
                 tempMatches chatId uid c' = true).
  { intros c' E1 E2. apply tempGet_spec in Hg as (_ & <- & <-). unfold tempMatches.
    by rewrite E1, E2, !String.eqb_refl. }
  match goal with
  | |- context [fetch ?rq] => specialize (Hfail rq); destruct (fetch rq) as [data| |]
  end.
  - simpl in Hfail. destruct (d_choice data); [done|].
    cbn [fst snd]. split; [done|]. eexists. split.
    + unfold tempGet. cbn [chats]. eapply find_replaceFirst; [apply Hg|by apply Hp].
    + done.
  - cbn [fst snd]. split; [done|]. eexists. split.
    + unfold tempGet. cbn [chats]. eapply find_replaceFirst; [apply Hg|by apply Hp].
    + done.
  - cbn [fst snd]. split; [done|]. eexists. split.
    + unfold tempGet. cbn [chats]. eapply find_replaceFirst; [apply Hg|by apply Hp].
    + done.
Qed.

Lemma temp_failure_keeps_user_entry_witness :
  Js.trim "Hello" ≠ "" ∧
  tempGet "chat-1" "demo-user" Samples.oneChat
    = Some (fst (tempCreate "demo-user" None (temp_start 0))) ∧
  fst (tempPost Samples.unavailable "chat-1" "demo-user" (Some "Hello") Samples.oneChat) =
    {| res_status := 500; res_body := body_error "Failed to get AI response" |}.
Proof.
  assert (Hm : Js.trim "Hello" ≠ "") by discriminate.
  pose proof (temp_failure_keeps_user_entry Samples.unavailable "chat-1" "demo-user" "Hello"
                Samples.oneChat _ Hm eq_refl (fun _ => eq_refl)) as H.
  cbv zeta in H. destruct H as [H _].
  split; [exact Hm|]. split; [reflexivity|]. exact H.
Defined.

(** ** What a run of the chat_message handler writes *)

Ltac find_facts :=
  repeat match goal with
  | H : List.find (matches _ _) _ = Some _ |- _ =>
      apply find_some in H; destruct H as [?Hin H];
      unfold matches in H; simpl in H;
      apply andb_true_iff in H; destruct H as [?Hid ?Huid];
      apply String.eqb_eq in Hid; apply String.eqb_eq in Huid;
      apply list_elem_of_In in Hin
  end.

Lemma isConsistent_hook id uid t se ms date :
  isConsistent {| _id := id; userId := uid; title := t; settings := se; messages := ms;
                  statistics := {| messageCount := length ms; totalTokens := sumTokens ms;
                                   lastActivity := date |} |} = true.
Proof. unfold isConsistent. simpl. by rewrite !Nat.eqb_refl. Qed.

(** Every chat that a run writes. *)
Lemma writes_of_a_run (env : Env) (u : User) (data : option ChatMessageData)
    (w : World) :
  ∃ saved : list Chat,
    store (fst (on_chat_message env u data w)) =
      foldl (fun st c => upsert c st) (store w) saved ∧
    Forall (writtenFrom (store w) (newId env (nextId w)) (u_id u)) saved.
Proof.
  destruct env as [cast ids val wr resp verr], w as [st clk nid nw],
    data as [[cid msg atts]|]; [|exists []; split; [reflexivity|constructor]].
  unfold on_chat_message. cbv zeta.
  cbn [castable newId validates writes store clock nextId nwrites].
  remember (chat_message _ u _ _) as r eqn:E.
  crunch E; subst r; cbn [snd fst world trace store].
  all: find_facts.
  all: first
    [ by (exists []; split; [reflexivity|constructor])
    | eexists [_]; split; [reflexivity|]
    | eexists [_; _]; split; [reflexivity|]
    | eexists [_; _; _]; split; [reflexivity|] ].
  all: repeat apply Forall_cons_2; try apply Forall_nil_2.
  all: unfold writtenFrom;
    (split; [apply isConsistent_hook|]); (split; [done|]).
  all: first [ by left | right ].
  all: eexists; split; [eassumption|]; simpl; split_and!; try done.
  all: repeat apply prefix_app_r; done.
Qed.

Lemma elem_of_upsert (c x : Chat) (l : list Chat) :
  x ∈ upsert c l → x = c ∨ x ∈ l.
Proof.
  induction l as [|y l IH]; simpl.
  - intros E%list_elem_of_singleton. by left.
  - destruct (String.eqb (_id y) (_id c)).
    + intros [E|H]%elem_of_cons; [by left|right; by apply elem_of_cons; right].
    + intros [E|H]%elem_of_cons; [right; by apply elem_of_cons; left|].
      destruct (IH H) as [E|?]; [by left|right; by apply elem_of_cons; right].
Qed.

Lemma upsert_has (c : Chat) (l : list Chat) : c ∈ upsert c l.
Proof.
  induction l as [|y l IH]; simpl; [by apply list_elem_of_singleton|].
  destruct (String.eqb (_id y) (_id c)); apply elem_of_cons; [by left|by right].
Qed.

Lemma upsert_keeps (c x : Chat) (l : list Chat) :
  x ∈ l → _id x ≠ _id c → x ∈ upsert c l.
Proof.
  intros Hin Hne. induction l as [|y l IH]; simpl; [by apply elem_of_nil in Hin|].
  apply elem_of_cons in Hin as [E|Hin].
  - subst y. apply String.eqb_neq in Hne. rewrite Hne. apply elem_of_cons. by left.
  - destruct (String.eqb (_id y) (_id c)); apply elem_of_cons; right; [done|by apply IH].
Qed.

Lemma upsert_ids (c : Chat) (l : list Chat) :
  idsOf (upsert c l) = idsOf l ∨
  ((_id c ∉ idsOf l) ∧ idsOf (upsert c l) = idsOf l ++ [_id c]).
Proof.
  unfold idsOf. induction l as [|y l IH]; simpl.
  - right. split; [by intros ?%elem_of_nil|done].
  - destruct (String.eqb (_id y) (_id c)) eqn:E; simpl.
    + apply String.eqb_eq in E. left. by rewrite E.
    + apply String.eqb_neq in E. destruct IH as [->|[Hn ->]]; [by left|].
      right. split; [|done]. intros [?|?]%elem_of_cons; [congruence|done].
Qed.

Lemma consistent_fold (P : Chat → Prop) (saved st : list Chat) :
  Forall P saved → Forall P st → Forall P (foldl (fun st c => upsert c st) st saved).
Proof.
  intros Hs. revert st. induction Hs as [|c saved Hc Hs IH]; intros st H0; [done|].
  simpl. apply IH. apply Forall_forall. intros x [E|Hx]%elem_of_upsert.
  - by subst x.
  - by apply (proj1 (Forall_forall _ _) H0).
Qed.

(** X5: Every chat in the store after a run either was there
    before, or belongs to the sender and has statistics that agree with its
    entry list: the entry count is the length of the list and the token
    total is the sum of the stored per-entry totals. *)
Theorem written_chats_are_consistent (env : Env) (u : User)
    (data : option ChatMessageData) (w : World) :
  Forall (fun c => c ∈ store w ∨ (isConsistent c = true ∧ userId c = u_id u))
         (store (fst (on_chat_message env u data w))).
Proof.
  destruct (writes_of_a_run env u data w) as (saved & -> & Hs).
  apply consistent_fold.
  - eapply Forall_impl; [apply Hs|]. intros c (? & ? & _). by right.
  - apply Forall_forall. intros c Hc. by left.
Qed.

Lemma continues_upsert (uid fresh : string) (st st' : list Chat) (c : Chat) :
  NoDup (idsOf st) → fresh ∉ idsOf st →
  writtenFrom st fresh uid c →
  continues uid st st' → continues uid st (upsert c st').
Proof.
  intros Hnd Hfresh (_ & Hu & Hc) [H1 H2].
  assert (Hsame : ∀ x, x ∈ st → _id x = _id c →
            ∃ c0, x = c0 ∧ userId c0 = uid ∧ messages c0 `prefix_of` messages c).
  { intros x Hx E. destruct Hc as [Hc|(c0 & Hin & Hid & Huid & Hpre)].
    - exfalso. apply Hfresh. rewrite <- Hc, <- E. by apply list_elem_of_fmap_2.
    - exists c0. split_and!; try done.
      apply list_elem_of_lookup in Hx as (i & Hi), Hin as (j & Hj).
      assert (i = j) as ->; [|congruence].
      eapply NoDup_lookup; [apply Hnd| |]; unfold idsOf; rewrite list_lookup_fmap.
      + by rewrite Hi.
      + rewrite Hj. simpl. congruence. }
  split.
  - intros x Hx Hne. apply upsert_keeps; [by apply H1|].
    intros E. destruct (Hsame x Hx E) as (c0 & -> & Hu0 & _). done.
  - intros x Hx. destruct (decide (_id x = _id c)) as [E|Hne].
    + destruct (Hsame x Hx E) as (c0 & -> & Hu0 & Hpre).
      exists c. split_and!; [apply upsert_has|done|congruence|done].
    + destruct (H2 x Hx) as (x' & Hx' & Hid & Huid & Hpre).
      exists x'. split_and!; try done. apply upsert_keeps; [done|congruence].
Qed.

Lemma continues_fold (uid fresh : string) (st0 saved : list Chat) :
  NoDup (idsOf st0) → fresh ∉ idsOf st0 →
  Forall (writtenFrom st0 fresh uid) saved →
  ∀ st, continues uid st0 st → NoDup (idsOf st) →
    continues uid st0 (foldl (fun st c => upsert c st) st saved) ∧
    NoDup (idsOf (foldl (fun st c => upsert c st) st saved)).
Proof.
  intros Hnd Hfresh Hs. induction Hs as [|c saved Hc Hs IH]; intros st H0 Hn; [done|].
  simpl. apply IH.
  - by eapply continues_upsert.
  - destruct (upsert_ids c st) as [->|[Hni ->]]; [done|].
    unfold idsOf in *. apply NoDup_app. split_and!; [done| |apply NoDup_singleton].
    intros x Hx E%list_elem_of_singleton. by subst x.
Qed.

(** X6: When the chat ids of the store are pairwise distinct and
    the next ObjectId is not among them, a run for a user leaves every chat
    of every other user in the store unchanged, keeps every chat (same id,
    same owner) with at least the entries it had, in order, and keeps the
    ids pairwise distinct. *)
Theorem run_keeps_other_chats (env : Env) (u : User) (data : option ChatMessageData)
    (w : World) :
  NoDup (idsOf (store w)) →
  newId env (nextId w) ∉ idsOf (store w) →
  let st' := store (fst (on_chat_message env u data w)) in
  (∀ c, c ∈ store w → userId c ≠ u_id u → c ∈ st') ∧
  (∀ c, c ∈ store w →
     ∃ c', c' ∈ st' ∧ _id c' = _id c ∧ userId c' = userId c ∧
           messages c `prefix_of` messages c') ∧
  NoDup (idsOf st').
Proof.
  intros Hnd Hfresh st'.
  destruct (writes_of_a_run env u data w) as (saved & E & Hs).
  subst st'. rewrite E. clear E.
  destruct (continues_fold (u_id u) _ (store w) saved Hnd Hfresh Hs (store w))
    as [[H1 H2] H3]; [|done|done].
  split; [done|]. intros c Hc. by exists c.
Qed.

Lemma run_keeps_other_chats_witness :
  NoDup (idsOf (store Fixtures.bobsWorld)) ∧
  (newId Samples.env42 (nextId Fixtures.bobsWorld) ∉ idsOf (store Fixtures.bobsWorld)) ∧
  NoDup (idsOf (store (fst (on_chat_message Samples.env42 Fixtures.alice (Some Samples.hello)
                              Fixtures.bobsWorld)))).
Proof.
  assert (Hnd : NoDup (idsOf (store Fixtures.bobsWorld))) by apply NoDup_singleton.
  assert (Hfresh : newId Samples.env42 (nextId Fixtures.bobsWorld)
                   ∉ idsOf (store Fixtures.bobsWorld)).
  { intros E%list_elem_of_singleton. discriminate. }
  pose proof (run_keeps_other_chats Samples.env42 Fixtures.alice (Some Samples.hello) Fixtures.bobsWorld
                Hnd Hfresh) as H.
  cbv zeta in H. destruct H as (_ & _ & H).
  split; [exact Hnd|]. split; [exact Hfresh|]. exact H.
Defined.

(** ** The events of a run and the upstream request *)

(** X1: Every delivery of a chat_message event is answered on the socket,
    whatever the payload, the store and the answers of the environment:
    the events emitted end with exactly one closing event, a terminal
    response or an error, and no closing event comes before it. *)
Theorem every_message_is_answered (env : Env) (u : User)
    (data : option ChatMessageData) (w : World) :
  ∃ pre fin,
    emitted (snd (on_chat_message env u data w)) = pre ++ [fin] ∧
    is_closing fin = true ∧
    forallb (fun e => negb (is_closing e)) pre = true.
Proof.
  destruct env as [cast ids val wr resp verr], w as [st clk nid nw],
    data as [[cid msg atts]|]; [|by eexists [], _].
  unfold on_chat_message. cbv zeta.
  remember (chat_message _ u _ _) as r eqn:E.
  crunch E; subst r; cbn [snd fst world trace].
  all: simpl;
    first [ by eexists [], _ | by eexists [_], _ | by eexists [_; _], _
          | by eexists [_; _; _], _ | by eexists [_; _; _; _], _
          | by eexists [_; _; _; _; _], _ ].
Qed.

(** X2: For a valid message whose conversation resolves, the events
    start with message_received (the user entry as stored: role user, the
    content built from text and attachments, the attachments), ai_typing
    true, ai_typing false, all three under the chat id of the payload, even
    "default"; a terminal response, when there is one, is the last event
    and carries the id of the resolved chat, in the event and in its
    summary, and a generated entry. *)
Theorem event_order (env : Env) (u : User) (d : ChatMessageData) (w : World)
    (c0 : Chat) :
  validMessage d = true →
  resolvedChat env u (d_chatId d) w = Some c0 →
  let effs := snd (on_chat_message env u (Some d) w) in
  ∃ um tail,
    emitted effs =
      [ev_message_received (d_chatId d) um; ev_ai_typing (d_chatId d) true;
       ev_ai_typing (d_chatId d) false] ++ tail ∧
    r_role um = user ∧
    r_content um = userContent (d_message d) (default [] (d_attachments d)) ∧
    r_attachments um = Some (default [] (d_attachments d)) ∧
    (∀ id m s e, In (ev_ai_response id m s e) tail →
       id = _id c0 ∧ s_id s = _id c0 ∧ r_role m = assistant ∧
       last tail = Some (ev_ai_response id m s e)).
Proof.
  intros Hv Hr.
  destruct env as [cast ids val wr resp verr], w as [st clk nid nw], d as [cid msg atts].
  unfold validMessage in Hv. apply negb_true_iff in Hv.
  unfold on_chat_message. cbv zeta.
  unfold resolvedChat, newChat in Hr.
  cbn [d_chatId d_message d_attachments castable newId validates writes
       store clock nextId nwrites] in Hr, Hv |- *.
  remember (chat_message _ u _ _) as r eqn:E.
  crunch E; subst r; cbn [snd fst world trace]; try discriminate.
  all: try (simpl in Hr; discriminate).
  all: simpl; eexists _, _; split; [reflexivity|]; split_and!; try reflexivity.
  all: intros id0 m0 sm0 e0 Hin; simpl in Hin;
    repeat (destruct Hin as [Hin|Hin]; [try discriminate|]); try by destruct Hin.
  all: injection Hin as <- <- <- <-.
  all: repeat match goal with
    | H : ?f ?a = true |- _ => rewrite H in Hr
    | H : List.find _ _ = _ |- _ => rewrite H in Hr
    end; simpl in Hr; injection Hr as <-; done.
Qed.

Lemma event_order_witness :
  validMessage Samples.hello = true ∧
  resolvedChat Samples.env42 Fixtures.alice (d_chatId Samples.hello) Fixtures.emptyWorld
    = Some Samples.aliceNewChat ∧
  ∃ um tail,
    emitted (snd (on_chat_message Samples.env42 Fixtures.alice (Some Samples.hello) Fixtures.emptyWorld)) =
      [ev_message_received "default" um; ev_ai_typing "default" true;
       ev_ai_typing "default" false] ++ tail.
Proof.
  pose proof (event_order Samples.env42 Fixtures.alice Samples.hello Fixtures.emptyWorld Samples.aliceNewChat
                eq_refl eq_refl) as H.
  cbv zeta in H. destruct H as (um & tail & H & _).
  split; [reflexivity|]. split; [reflexivity|].
  exists um, tail. exact H.
Defined.

Ltac resolve_with Hr :=
  repeat match goal with
    | H : ?f ?a = true |- _ => rewrite H in Hr
    | H : List.find _ _ = _ |- _ => rewrite H in Hr
    end; simpl in Hr; injection Hr as <-.

Lemma messagesForAI_push (c : Chat) (m : RawMessage) :
  messagesForAI (pushRaw m c) =
    (if length (messages c) =? 0
     then [{| p_role := system; p_content := systemPrompt (settings c) |}] else []) ++
    map toPrompt (messages c) ++ [{| p_role := r_role m; p_content := r_content m |}].
Proof.
  unfold messagesForAI, pushRaw. cbn [messages settings].
  rewrite length_app, map_app. simpl.
  destruct (messages c) as [|x l]; [done|].
  simpl. replace (length l + 1) with (S (length l)) by lia. done.
Qed.

(** X3: The request sent upstream for a valid message on a resolved
    conversation: the system prompt of the chat first exactly when the
    conversation had no entry, then every stored entry in order, then the
    new user entry; model, temperature and token limit are those of the
    chat's settings. *)
Theorem upstream_prompt (env : Env) (u : User) (d : ChatMessageData) (w : World)
    (c0 : Chat) :
  validMessage d = true →
  resolvedChat env u (d_chatId d) w = Some c0 →
  ∀ rq, In (eff_post rq) (snd (on_chat_message env u (Some d) w)) →
    rq_messages rq =
      (if length (messages c0) =? 0
       then [{| p_role := system; p_content := systemPrompt (settings c0) |}] else []) ++
      map toPrompt (messages c0) ++
      [{| p_role := user;
          p_content := userContent (d_message d) (default [] (d_attachments d)) |}] ∧
    rq_model rq = model (settings c0) ∧
    rq_temperature rq = temperature (settings c0) ∧
    rq_max_tokens rq = maxTokens (settings c0).
Proof.
  intros Hv Hr.
  destruct env as [cast ids val wr resp verr], w as [st clk nid nw], d as [cid msg atts].
  unfold validMessage in Hv. apply negb_true_iff in Hv.
  unfold on_chat_message. cbv zeta.
  unfold resolvedChat, newChat in Hr.
  cbn [d_chatId d_message d_attachments castable newId validates writes
       store clock nextId nwrites] in Hr, Hv |- *.
  remember (chat_message _ u _ _) as r eqn:E.
  crunch E; subst r; cbn [snd fst world trace]; try discriminate.
  all: try (simpl in Hr; discriminate).
  all: intros rq Hin; cbn [rev app In] in Hin;
    repeat (destruct Hin as [Hin|Hin]; [try discriminate|]); try by destruct Hin.
  all: injection Hin as <-; resolve_with Hr.
  all: first [ by (unfold completionRequest, messagesForAI; simpl) | idtac ].
  all: match goal with
    |- context [completionRequest {| _id := ?i; userId := ?ui; title := ?t; settings := ?se;
                   messages := ?ms ++ [castMessage ?m]; statistics := ?stt |}] =>
      change (completionRequest {| _id := i; userId := ui; title := t; settings := se;
                   messages := ms ++ [castMessage m]; statistics := stt |})
        with (completionRequest (pushRaw m {| _id := i; userId := ui; title := t; settings := se;
                   messages := ms; statistics := stt |}))
    end; unfold completionRequest; cbn [rq_messages rq_model rq_temperature rq_max_tokens];
    rewrite messagesForAI_push; done.
Qed.

Lemma upstream_prompt_witness :
  validMessage Samples.anyNews = true ∧
  resolvedChat Samples.env42 Fixtures.bob (d_chatId Samples.anyNews) Fixtures.bobsWorld
    = Some Fixtures.bobsChat ∧
  ∀ rq, In (eff_post rq)
          (snd (on_chat_message Samples.env42 Fixtures.bob (Some Samples.anyNews) Fixtures.bobsWorld)) →
        rq_model rq = model (settings Fixtures.bobsChat).
Proof.
  split; [reflexivity|]. split; [reflexivity|].
  intros rq Hin.
  pose proof (upstream_prompt Samples.env42 Fixtures.bob Samples.anyNews Fixtures.bobsWorld
                Fixtures.bobsChat eq_refl eq_refl rq Hin) as H.
  destruct H as (_ & H & _). exact H.
Defined.

Lemma blank_title (m : string) :
  has_ink m = false → Js.trim (titleFor (Js.trim m)) = "".
Proof. intros H. apply trim_empty_iff in H. rewrite H. reflexivity. Qed.

(** X4: A first message whose text is present but blank (so it
    carries attachments) can not complete when the completion service
    answers: the title computed from the text is empty, the schema requires
    a title, the save of the success path and the save of the catch block
    both reject, and the run ends with the error event whose details are
    the message of the ValidationError of the second save, on the chat with
    the empty title and the three entries pushed; the completion service
    has been called once and nothing of the exchange is stored. *)
Theorem blank_text_first_message (env : Env) (u : User) (d : ChatMessageData)
    (w : World) (c0 : Chat) (m : string) :
  d_message d = Some m → has_ink m = false →
  validMessage d = true →
  resolvedChat env u (d_chatId d) w = Some c0 →
  messages c0 = [] → title c0 = placeholder_title →
  (∀ c, title c = "" → validates env c = false) →
  (∀ rq, ∃ data text, respond env rq = Completed data ∧ d_choice data = Some text) →
  let run := on_chat_message env u (Some d) w in
  store (fst run) = resolvedStore env u (d_chatId d) w ∧
  post_count (snd run) = 1 ∧
  terminal_count (snd run) = 0 ∧
  ∃ c, _id c = _id c0 ∧ title c = "" ∧ length (messages c) = 3 ∧
       last (emitted (snd run)) =
         Some (ev_error "Failed to process message" (Some (validationError env c))).
Proof.
  intros Hm Hblank Hv Hr Hms Ht Hval Hresp.
  destruct env as [cast ids val wr resp verr], w as [st clk nid nw], d as [cid msg atts].
  unfold validMessage in Hv. apply negb_true_iff in Hv.
  unfold on_chat_message. cbv zeta.
  unfold resolvedChat, resolvedStore, newChat in *.
  cbn [d_chatId d_message d_attachments castable newId validates writes respond validationError
       store clock nextId nwrites] in *.
  subst msg.
  remember (chat_message _ u _ _) as r eqn:E.
  crunch E; subst r; cbn [snd fst world trace]; try discriminate.
  all: try (simpl in Hr; discriminate).
  all: resolve_with Hr; simpl in Hms, Ht; try subst; try discriminate.
  all: try match goal with
    | H : ?f ?rq = Failed _ |- _ =>
        destruct (Hresp rq) as (? & ? & Hc & Hch); rewrite Hc in H; discriminate
    | H : ?f ?rq = Completed _ |- _ =>
        destruct (Hresp rq) as (? & ? & Hc & Hch); rewrite Hc in H;
        injection H as ->; simpl in Hch; try discriminate
    end.
  all: try match goal with
    | H : ?f ?c = true |- _ =>
        rewrite Hval in H; [discriminate | simpl; by apply blank_title]
    end.
  all: split; [done|]; split; [done|]; split; [done|].
  all: eexists; split; [|split; [|split; [|simpl; reflexivity]]];
       [reflexivity | simpl; by apply blank_title | reflexivity].
Qed.

Lemma blank_text_first_message_witness :
  d_message Samples.blankWithReport = Some " " ∧
  has_ink " " = false ∧
  validMessage Samples.blankWithReport = true ∧
  resolvedChat Samples.env42 Fixtures.alice (d_chatId Samples.blankWithReport) Fixtures.emptyWorld
    = Some Samples.aliceNewChat ∧
  terminal_count
    (snd (on_chat_message Samples.env42 Fixtures.alice (Some Samples.blankWithReport)
            Fixtures.emptyWorld)) = 0 ∧
  last (emitted
    (snd (on_chat_message Samples.env42 Fixtures.alice (Some Samples.blankWithReport)
            Fixtures.emptyWorld))) =
    Some (ev_error "Failed to process message"
            (Some "Chat validation failed: title: Chat title is required")).
Proof.
  assert (Hval : ∀ c, title c = "" → validates Samples.env42 c = false).
  { intros c Hc. unfold Samples.env42, Fixtures.healthy, validates, schemaValidates.
    rewrite Hc. reflexivity. }
  assert (Hresp : ∀ rq, ∃ data text,
            respond Samples.env42 rq = Completed data ∧ d_choice data = Some text).
  { intros rq. eexists _, _. split; reflexivity. }
  pose proof (blank_text_first_message Samples.env42 Fixtures.alice Samples.blankWithReport
                Fixtures.emptyWorld Samples.aliceNewChat " "
                eq_refl eq_refl eq_refl eq_refl eq_refl eq_refl Hval Hresp) as H.
  cbv zeta in H. destruct H as (_ & _ & H & _).
  split; [reflexivity|]. split; [reflexivity|]. split; [reflexivity|].
  split; [reflexivity|]. split; [exact H | reflexivity].
Defined.


(** X8: For a message that passes the socket validation the stored
    user content is the built content itself, never the placeholder
    substituted for an empty one, and it has a character that is not white
    space. *)
Theorem socket_content_is_full (d : ChatMessageData) :
  validMessage d = true →
  userContent (d_message d) (default [] (d_attachments d)) =
    fullContent (d_message d) (default [] (d_attachments d)) ∧
  has_ink (userContent (d_message d) (default [] (d_attachments d))) = true.
Proof.
  intros Hv. unfold validMessage in Hv. apply negb_true_iff in Hv.
  pose proof (fullContent_nonempty _ _ Hv) as Hne.
  assert (E : userContent (d_message d) (default [] (d_attachments d)) =
              fullContent (d_message d) (default [] (d_attachments d))).
  { unfold userContent, Js.or_else. by destruct (fullContent _ _). }
  split; [done|]. rewrite E.
  destruct (has_ink (fullContent _ _)) eqn:Hi; [done|].
  exfalso. apply Hne. unfold fullContent in *.
  apply trim_empty_iff in Hi. by rewrite trim_idemp in Hi.
Qed.

Lemma socket_content_is_full_witness :
  validMessage Samples.blankWithReport = true ∧
  has_ink (userContent (d_message Samples.blankWithReport)
             (default [] (d_attachments Samples.blankWithReport))) = true.
Proof.
  pose proof (socket_content_is_full Samples.blankWithReport eq_refl) as H.
  destruct H as [_ H]. split; [reflexivity|]. exact H.
Defined.

(** ** The message route and the socket handler *)

Ltac rest_plumb E :=
  plumb E;
  cbv beta iota zeta delta [b_message b_attachments bodyOf d_chatId d_message d_attachments] in E.

Ltac rest_open_in E :=
  match type of E with
  | context [post_message ?a ?b ?c ?d ?s] => unfold post_message in E
  | context [restSettleSuccess ?a ?b ?c ?d ?s] => unfold restSettleSuccess in E
  | context [restSettleFailure ?a ?b ?c ?s] => unfold restSettleFailure in E
  end.

(** An answer that an earlier split has fixed. *)
Ltac known_in E :=
  match goal with
  | H : ?lhs = ?rhs |- _ =>
      lazymatch lhs with _ _ => idtac end;
      match type of E with context [lhs] => rewrite H in E end
  end.

Ltac rest_branch_in E :=
  match type of E with
  | context [restIsEmpty ?m ?a] => destruct (restIsEmpty m a) eqn:?
  end.

Ltac rest_crunch E :=
  repeat (rest_plumb E;
          first [known_in E | open_in E | rest_open_in E | rest_branch_in E | branch_in E]);
  rest_plumb E.

Lemma valid_for_rest (message : option string) (atts : list Attachment) :
  isEmptyMessage message atts = false → restIsEmpty message atts = false.
Proof.
  unfold isEmptyMessage, restIsEmpty.
  destruct (Js.truthy_opt message), (length atts =? 0); simpl; try done.
Qed.

(** X9: For a message that is valid on the socket and a chat id other
    than "default", the route POST /:chatId/messages and the socket handler
    leave the same world, send the same upstream requests and have the same
    save outcomes; the route always responds, with status 200 and the
    entries, summary and warning of the terminal event when there is one,
    with 404 where the socket says "Chat not found", and with 500 "Failed
    to send message" for any other error event. *)
Theorem rest_agrees_with_socket (env : Env) (u : User) (d : ChatMessageData)
    (w : World) :
  validMessage d = true →
  String.eqb (d_chatId d) "default" = false →
  let sock := on_chat_message env u (Some d) w in
  let rest := on_post_message env u (d_chatId d) (bodyOf d) w in
  rr_world rest = fst sock ∧
  posts (rr_effects rest) = posts (snd sock) ∧
  save_outcomes (rr_effects rest) = save_outcomes (snd sock) ∧
  ∃ res, rr_response rest = Some res ∧
    match last (emitted (snd sock)) with
    | Some (ev_ai_response id m s e) =>
        ∃ um, res = {| res_status := 200; res_body := body_exchange um m s e |} ∧
              In (ev_message_received (d_chatId d) um) (emitted (snd sock))
    | Some (ev_error msg _) =>
        res = {| res_status := if String.eqb msg "Chat not found" then 404 else 500;
                 res_body := body_error (if String.eqb msg "Chat not found" then msg
                                         else "Failed to send message") |}
    | _ => False
    end.
Proof.
  intros Hv Hd.
  destruct env as [cast ids val wr resp verr], w as [st clk nid nw], d as [cid msg atts].
  unfold validMessage in Hv. apply negb_true_iff in Hv.
  cbn [d_chatId d_message d_attachments] in Hv, Hd.
  pose proof (valid_for_rest _ _ Hv) as Hv'.
  unfold on_chat_message, on_post_message. cbv zeta.
  cbn [rr_world rr_response rr_effects].
  remember (chat_message _ u _ _) as r eqn:E.
  remember (post_message _ u _ _ _) as r2 eqn:E2.
  rest_crunch E.
  all: rest_crunch E2.
  all: subst r r2; cbn [snd fst world trace]; try discriminate.
  all: split; [reflexivity|]; split; [reflexivity|]; split; [reflexivity|].
  all: eexists; split; [reflexivity|]; simpl.
  all: try reflexivity.
  all: eexists; split; [reflexivity|]; tauto.
Qed.

Lemma rest_agrees_with_socket_witness :
  validMessage Samples.anyNews = true ∧
  String.eqb (d_chatId Samples.anyNews) "default" = false ∧
  rr_world (on_post_message Samples.env42 Fixtures.bob (d_chatId Samples.anyNews) (bodyOf Samples.anyNews)
              Fixtures.bobsWorld) =
    fst (on_chat_message Samples.env42 Fixtures.bob (Some Samples.anyNews) Fixtures.bobsWorld).
Proof.
  pose proof (rest_agrees_with_socket Samples.env42 Fixtures.bob Samples.anyNews Fixtures.bobsWorld
                eq_refl eq_refl) as H.
  cbv zeta in H. destruct H as [H _].
  split; [reflexivity|]. split; [reflexivity|]. exact H.
Defined.

Lemma blank_content (m : string) :
  has_ink m = false → userContent (Some m) [] = placeholder_content.
Proof.
  intros H. apply trim_empty_iff in H.
  unfold userContent, fullContent. simpl. rewrite H. reflexivity.
Qed.

Lemma last_messagesForAI_push (c : Chat) (m : RawMessage) :
  last (messagesForAI (pushRaw m c)) =
    Some {| p_role := r_role m; p_content := r_content m |}.
Proof.
  unfold messagesForAI, pushRaw. cbn [messages settings].
  rewrite map_app. simpl.
  destruct (length (messages c ++ [castMessage m]) =? 1);
    rewrite ?app_comm_cons, last_snoc; reflexivity.
Qed.

(** X10: A text that is blank but not empty, without attachments:
    the socket handler rejects it with "Message or attachments are
    required", the route does not (its test is [!message], without trim);
    on an existing chat the route sends one upstream request whose last
    entry is a user entry with the placeholder content. *)
Theorem rest_accepts_blank_text (env : Env) (u : User) (chatId m : string)
    (w : World) (c0 : Chat) :
  m ≠ "" → has_ink m = false →
  castable env chatId = true →
  List.find (matches chatId (u_id u)) (store w) = Some c0 →
  let d := {| d_chatId := chatId; d_message := Some m; d_attachments := None |} in
  emitted (snd (on_chat_message env u (Some d) w)) =
    [ev_error "Message or attachments are required" None] ∧
  ∃ rq, posts (rr_effects (on_post_message env u chatId (bodyOf d) w)) = [rq] ∧
        last (rq_messages rq) =
          Some {| p_role := user; p_content := placeholder_content |}.
Proof.
  intros Hne Hblank Hcast Hfind d. subst d. split.
  - unfold on_chat_message, chat_message, try_catch. cbn [d_message d_attachments default].
    assert (isEmptyMessage (Some m) [] = true) as ->; [|reflexivity].
    unfold isEmptyMessage. apply trim_empty_iff in Hblank. simpl. rewrite Hblank.
    by destruct m.
  - destruct env as [cast ids val wr resp verr], w as [st clk nid nw],
      c0 as [id0 uid0 title0 set0 msgs0 stats0].
    cbn [castable store] in Hcast, Hfind.
    assert (Hre : restIsEmpty (Some m) [] = false) by (by destruct m).
    unfold on_post_message. cbv zeta. cbn [rr_effects].
    remember (post_message _ u _ _ _) as r eqn:E.
    unfold post_message, bodyOf in E. cbn [b_message b_attachments d_message d_attachments] in E.
    change (default [] None) with (@nil Attachment) in E.
    rewrite Hre in E.
    rest_crunch E; subst r; cbn [snd fst world trace].
    all: eexists; (split; [reflexivity|]).
    all: rewrite (blank_content m Hblank).
    all: match goal with
    |- context [completionRequest {| _id := ?i; userId := ?ui; title := ?t; settings := ?se;
                   messages := ?ms ++ [castMessage ?m]; statistics := ?stt |}] =>
      change (completionRequest {| _id := i; userId := ui; title := t; settings := se;
                   messages := ms ++ [castMessage m]; statistics := stt |})
        with (completionRequest (pushRaw m {| _id := i; userId := ui; title := t; settings := se;
                   messages := ms; statistics := stt |}))
    end; unfold completionRequest; cbn [rq_messages];
      rewrite last_messagesForAI_push; reflexivity.
Qed.

Lemma rest_accepts_blank_text_witness :
  "  " ≠ "" ∧ has_ink "  " = false ∧
  castable Samples.env42 "65c0000000000000000000b0" = true ∧
  List.find (matches "65c0000000000000000000b0" (u_id Fixtures.bob))
            (store Fixtures.bobsWorld) = Some Fixtures.bobsChat ∧
  emitted (snd (on_chat_message Samples.env42 Fixtures.bob
                  (Some {| d_chatId := "65c0000000000000000000b0";
                           d_message := Some "  "; d_attachments := None |})
                  Fixtures.bobsWorld)) =
    [ev_error "Message or attachments are required" None].
Proof.
  assert (Hne : "  " ≠ "") by discriminate.
  pose proof (rest_accepts_blank_text Samples.env42 Fixtures.bob "65c0000000000000000000b0" "  "
                Fixtures.bobsWorld Fixtures.bobsChat Hne eq_refl eq_refl eq_refl) as H.
  cbv zeta in H. destruct H as [H _].
  split; [exact Hne|]. split; [reflexivity|]. split; [reflexivity|].
  split; [reflexivity|]. exact H.
Defined.

(** ** An example for the statistics of a settled exchange *)

Lemma success_statistics_witness :
  validMessage Samples.anyNews = true ∧
  resolvedChat Samples.env42 Fixtures.bob (d_chatId Samples.anyNews) Fixtures.bobsWorld
    = Some Fixtures.bobsChat ∧
  ∀ id msg sum,
    last (emitted (snd (on_chat_message Samples.env42 Fixtures.bob (Some Samples.anyNews)
                          Fixtures.bobsWorld)))
      = Some (ev_ai_response id msg sum None) →
    id = _id Fixtures.bobsChat.
Proof.
  split; [reflexivity|]. split; [reflexivity|].
  intros id msg sum Hl.
  pose proof (success_statistics Samples.env42 Fixtures.bob Samples.anyNews Fixtures.bobsWorld
                Fixtures.bobsChat _ eq_refl eq_refl (fun _ => eq_refl)) as H.
  cbv zeta in H. destruct (H id msg sum Hl) as (c' & _ & _ & Hid & _). exact Hid.
Defined.
